(** * Staker: the stake and reward ledger of the oracle

    A shallow embedding of
    [packages/core/contracts/oracle/implementation/Staker.sol]
    (Solidity ^0.8.0) and the properties of its ledger.

    - [uint256] values are [N] with Solidity 0.8 checked arithmetic: an
      addition, subtraction or multiplication that leaves [0 .. 2^256-1]
      raises [Panic(0x11)], a division by zero raises [Panic(0x12)].
    - A contract function is a computation in an error/state monad over the
      contract storage; a revert carries no storage, so the caller's storage
      is what it was before the call.
    - The collaborators the contract only calls are part of the call
      environment [Env]: the clock ([getCurrentTime], from [Testable]), the
      two virtual hooks ([inActiveReveal], [getStartingIndexForStaker]) and
      the voting token, which answers each external call by reverting or by
      returning a boolean.
    - Emitted events and external token calls are recorded, newest first, in
      the [trace] of the storage. *)

From Stdlib Require Import NArith Lia String.
From stdpp Require Import gmap strings list fin_maps.

Local Open Scope N_scope.

Abbreviation uint256 := N (only parsing).
Abbreviation address := N (only parsing).

(** ** Checked arithmetic *)

Definition MAX_UINT256 : N := 2 ^ 256 - 1.

(** The literal [1e18] of the source. *)
Definition SCALE : N := 10 ^ 18.

Inductive error : Type :=
  | Require_failed (reason : string)   (* require(cond, reason) *)
  | Panic_overflow                     (* Panic(0x11): over- or underflow *)
  | Panic_div_zero                     (* Panic(0x12) *)
  | External_revert.                   (* a call to the voting token reverted *)

Inductive result (A : Type) : Type :=
  | Ok (a : A)
  | Err (e : error).
Arguments Ok {A} a.
Arguments Err {A} e.

Definition is_err {A} (r : result A) : Prop :=
  match r with Ok _ => False | Err _ => True end.

Definition checked_add (a b : uint256) : result uint256 :=
  if a + b <=? MAX_UINT256 then Ok (a + b) else Err Panic_overflow.

Definition checked_sub (a b : uint256) : result uint256 :=
  if b <=? a then Ok (a - b) else Err Panic_overflow.

Definition checked_mul (a b : uint256) : result uint256 :=
  if a * b <=? MAX_UINT256 then Ok (a * b) else Err Panic_overflow.

Definition checked_div (a b : uint256) : result uint256 :=
  if b =? 0 then Err Panic_div_zero else Ok (a / b).

Definition rbind {A B} (r : result A) (k : A -> result B) : result B :=
  match r with Ok a => k a | Err e => Err e end.

Notation "x <-? c1 ;; c2" := (rbind c1 (fun x => c2))
  (at level 20, c1 at level 99, c2 at level 200, right associativity).

(** ** Storage *)

Module VoterStake.
Record t : Type := mk {
  activeStake : uint256;
  pendingUnstake : uint256;
  pendingStake : uint256;
  rewardsPaidPerToken : uint256;
  outstandingRewards : uint256;
  unstakeRequestTime : uint256;
  lastRequestIndexConsidered : uint256;
  delegate : address
}.

(** The value of a mapping entry that was never written. *)
Definition zero : t := mk 0 0 0 0 0 0 0 0.

Definition set_activeStake (x : uint256) (v : t) : t :=
  mk x (pendingUnstake v) (pendingStake v) (rewardsPaidPerToken v)
     (outstandingRewards v) (unstakeRequestTime v)
     (lastRequestIndexConsidered v) (delegate v).
Definition set_pendingUnstake (x : uint256) (v : t) : t :=
  mk (activeStake v) x (pendingStake v) (rewardsPaidPerToken v)
     (outstandingRewards v) (unstakeRequestTime v)
     (lastRequestIndexConsidered v) (delegate v).
Definition set_pendingStake (x : uint256) (v : t) : t :=
  mk (activeStake v) (pendingUnstake v) x (rewardsPaidPerToken v)
     (outstandingRewards v) (unstakeRequestTime v)
     (lastRequestIndexConsidered v) (delegate v).
Definition set_rewardsPaidPerToken (x : uint256) (v : t) : t :=
  mk (activeStake v) (pendingUnstake v) (pendingStake v) x
     (outstandingRewards v) (unstakeRequestTime v)
     (lastRequestIndexConsidered v) (delegate v).
Definition set_outstandingRewards (x : uint256) (v : t) : t :=
  mk (activeStake v) (pendingUnstake v) (pendingStake v)
     (rewardsPaidPerToken v) x (unstakeRequestTime v)
     (lastRequestIndexConsidered v) (delegate v).
Definition set_unstakeRequestTime (x : uint256) (v : t) : t :=
  mk (activeStake v) (pendingUnstake v) (pendingStake v)
     (rewardsPaidPerToken v) (outstandingRewards v) x
     (lastRequestIndexConsidered v) (delegate v).
Definition set_lastRequestIndexConsidered (x : uint256) (v : t) : t :=
  mk (activeStake v) (pendingUnstake v) (pendingStake v)
     (rewardsPaidPerToken v) (outstandingRewards v) (unstakeRequestTime v)
     x (delegate v).
End VoterStake.

(** External calls made to the voting token. *)
Inductive TokenCall : Type :=
  | TransferFrom (from to : address) (amount : uint256)
  | Transfer (to : address) (amount : uint256)
  | Mint (to : address) (amount : uint256).

Inductive TokenReply : Type :=
  | Reverts
  | Returns (b : bool).

Inductive Event : Type :=
  | Staked (voter : address)
      (amount voterActiveStake voterPendingStake voterPendingUnStake
       cumulativeActiveStake cumulativePendingStake : uint256)
  | RequestedUnstake (voter : address)
      (amount unstakeTime voterActiveStake voterPendingStake : uint256)
  | ExecutedUnstake (voter : address)
      (tokensSent voterActiveStake voterPendingStake : uint256)
  | WithdrawnRewards (voter : address) (tokensWithdrawn : uint256)
  | UpdatedReward (voter : address) (newReward lastUpdateTime : uint256)
  | UpdatedActiveStake (voter : address)
      (voterActiveStake voterPendingStake
       cumulativeActiveStake cumulativePendingStake : uint256)
  | SetNewEmissionRate (newEmissionRate : uint256)
  | SetNewUnstakeCooldown (newUnstakeCooldown : uint256).

Inductive Effect : Type :=
  | Emit (ev : Event)
  | Call (c : TokenCall).

Record Staker : Type := mkStaker {
  emissionRate : uint256;
  cumulativeActiveStake : uint256;
  cumulativePendingStake : uint256;
  rewardPerTokenStored : uint256;
  lastUpdateTime : uint256;
  unstakeCoolDown : uint256;
  voterStakes : gmap address VoterStake.t;
  delegateToStaker : gmap address address;
  owner : address;                 (* Ownable._owner *)
  trace : list Effect              (* events and token calls, newest first *)
}.

Definition set_emissionRate (x : uint256) (s : Staker) : Staker :=
  mkStaker x (cumulativeActiveStake s) (cumulativePendingStake s)
    (rewardPerTokenStored s) (lastUpdateTime s) (unstakeCoolDown s)
    (voterStakes s) (delegateToStaker s) (owner s) (trace s).
Definition set_cumulativeActiveStake (x : uint256) (s : Staker) : Staker :=
  mkStaker (emissionRate s) x (cumulativePendingStake s)
    (rewardPerTokenStored s) (lastUpdateTime s) (unstakeCoolDown s)
    (voterStakes s) (delegateToStaker s) (owner s) (trace s).
Definition set_cumulativePendingStake (x : uint256) (s : Staker) : Staker :=
  mkStaker (emissionRate s) (cumulativeActiveStake s) x
    (rewardPerTokenStored s) (lastUpdateTime s) (unstakeCoolDown s)
    (voterStakes s) (delegateToStaker s) (owner s) (trace s).
Definition set_rewardPerTokenStored (x : uint256) (s : Staker) : Staker :=
  mkStaker (emissionRate s) (cumulativeActiveStake s)
    (cumulativePendingStake s) x (lastUpdateTime s) (unstakeCoolDown s)
    (voterStakes s) (delegateToStaker s) (owner s) (trace s).
Definition set_lastUpdateTime (x : uint256) (s : Staker) : Staker :=
  mkStaker (emissionRate s) (cumulativeActiveStake s)
    (cumulativePendingStake s) (rewardPerTokenStored s) x (unstakeCoolDown s)
    (voterStakes s) (delegateToStaker s) (owner s) (trace s).
Definition set_unstakeCoolDown (x : uint256) (s : Staker) : Staker :=
  mkStaker (emissionRate s) (cumulativeActiveStake s)
    (cumulativePendingStake s) (rewardPerTokenStored s) (lastUpdateTime s) x
    (voterStakes s) (delegateToStaker s) (owner s) (trace s).
Definition set_voterStakes (x : gmap address VoterStake.t) (s : Staker)
  : Staker :=
  mkStaker (emissionRate s) (cumulativeActiveStake s)
    (cumulativePendingStake s) (rewardPerTokenStored s) (lastUpdateTime s)
    (unstakeCoolDown s) x (delegateToStaker s) (owner s) (trace s).
Definition set_trace (x : list Effect) (s : Staker) : Staker :=
  mkStaker (emissionRate s) (cumulativeActiveStake s)
    (cumulativePendingStake s) (rewardPerTokenStored s) (lastUpdateTime s)
    (unstakeCoolDown s) (voterStakes s) (delegateToStaker s) (owner s) x.

(** [voterStakes[v]]: every key of a Solidity mapping reads as the zero
    struct until it is written. *)
Definition voterStake (s : Staker) (v : address) : VoterStake.t :=
  default VoterStake.zero (voterStakes s !! v).

(** A write through the storage pointer [voterStakes[v]]. *)
Definition write_voter (v : address) (f : VoterStake.t -> VoterStake.t)
    (s : Staker) : Staker :=
  set_voterStakes (<[v := f (voterStake s v)]> (voterStakes s)) s.

(** ** The call environment *)

(** What one call sees of the world around the contract.  [Testable] and
    [VotingToken] are contracts the source imports but does not contain, and
    [inActiveReveal] and [getStartingIndexForStaker] are virtual functions a
    derived contract overrides: all four are taken as parameters of the
    call, constant while it runs. *)
Record Env : Type := mkEnv {
  currentTime : uint256;            (* Testable.getCurrentTime() *)
  inActiveReveal : bool;            (* the virtual hook inActiveReveal() *)
  startingIndex : uint256;          (* getStartingIndexForStaker() *)
  this : address;                   (* address(this) *)
  votingToken : TokenCall -> TokenReply
}.

(** ** The contract monad *)

Definition M (A : Type) : Type := Staker -> result (A * Staker).

Definition ret {A} (a : A) : M A := fun s => Ok (a, s).

Definition bind {A B} (m : M A) (k : A -> M B) : M B :=
  fun s => match m s with
           | Ok (a, s') => k a s'
           | Err e => Err e
           end.

Notation "x <- c1 ;; c2" := (bind c1 (fun x => c2))
  (at level 20, c1 at level 99, c2 at level 200, right associativity).
Notation "c1 ;; c2" := (bind c1 (fun _ => c2))
  (at level 100, c2 at level 200, right associativity).

Definition revert {A} (e : error) : M A := fun _ => Err e.

Definition require (c : bool) (reason : string) : M unit :=
  if c then ret tt else revert (Require_failed reason).

Definition gets {A} (f : Staker -> A) : M A := fun s => Ok (f s, s).

Definition modify (f : Staker -> Staker) : M unit := fun s => Ok (tt, f s).

(** Evaluation of a [view] function or of a checked expression. *)
Definition view {A} (f : Staker -> result A) : M A :=
  fun s => match f s with Ok a => Ok (a, s) | Err e => Err e end.

Definition emit (ev : Staker -> Event) : M unit :=
  modify (fun s => set_trace (Emit (ev s) :: trace s) s).

(** An external call to the voting token: a revert of the callee reverts
    the caller; otherwise the call is recorded and its boolean returned. *)
Definition call (e : Env) (c : TokenCall) : M bool :=
  fun s => match votingToken e c with
           | Reverts => Err External_revert
           | Returns b => Ok (b, set_trace (Call c :: trace s) s)
           end.

(** ** The contract *)

(** [constructor(_emissionRate, _unstakeCoolDown, ...)], deployed by
    [deployer], whom [Ownable] makes the owner. *)
Definition constructor (_emissionRate _unstakeCoolDown : uint256)
    (deployer : address) : Staker :=
  mkStaker _emissionRate 0 0 0 0 _unstakeCoolDown ∅ ∅ deployer [].

Definition getCumulativeStake (s : Staker) : result uint256 :=
  checked_add (cumulativeActiveStake s) (cumulativePendingStake s).

Definition getVoterStake (voterAddress : address) (s : Staker)
  : result uint256 :=
  checked_add (VoterStake.activeStake (voterStake s voterAddress))
              (VoterStake.pendingStake (voterStake s voterAddress)).

Definition rewardPerToken (e : Env) (s : Staker) : result uint256 :=
  total <-? getCumulativeStake s ;;
  if total =? 0 then Ok (rewardPerTokenStored s)
  else
    elapsed <-? checked_sub (currentTime e) (lastUpdateTime s) ;;
    emitted <-? checked_mul elapsed (emissionRate s) ;;
    scaled <-? checked_mul emitted SCALE ;;
    divisor <-? getCumulativeStake s ;;
    perToken <-? checked_div scaled divisor ;;
    checked_add (rewardPerTokenStored s) perToken.

Definition outstandingRewards (e : Env) (voterAddress : address) (s : Staker)
  : result uint256 :=
  let voterStake := voterStake s voterAddress in
  staked <-? getVoterStake voterAddress s ;;
  perToken <-? rewardPerToken e s ;;
  unpaid <-? checked_sub perToken (VoterStake.rewardsPaidPerToken voterStake) ;;
  product <-? checked_mul staked unpaid ;;
  accrued <-? checked_div product SCALE ;;
  checked_add accrued (VoterStake.outstandingRewards voterStake).

Definition _updateReward (e : Env) (voterAddress : address) : M unit :=
  let currentTime := currentTime e in
  newRewardPerToken <- view (rewardPerToken e) ;;
  modify (set_rewardPerTokenStored newRewardPerToken) ;;
  modify (set_lastUpdateTime currentTime) ;;
  (if voterAddress =? 0 then ret tt
   else
     owed <- view (outstandingRewards e voterAddress) ;;
     modify (write_voter voterAddress (VoterStake.set_outstandingRewards owed)) ;;
     modify (write_voter voterAddress
               (VoterStake.set_rewardsPaidPerToken newRewardPerToken))) ;;
  emit (fun s => UpdatedReward voterAddress newRewardPerToken (lastUpdateTime s)).

Definition _updateActiveStake (e : Env) (voterAddress : address) : M unit :=
  if inActiveReveal e then ret tt
  else
    cumulativeActive <- view (fun s =>
      checked_add (cumulativeActiveStake s)
                  (VoterStake.pendingStake (voterStake s voterAddress))) ;;
    modify (set_cumulativeActiveStake cumulativeActive) ;;
    cumulativePending <- view (fun s =>
      checked_sub (cumulativePendingStake s)
                  (VoterStake.pendingStake (voterStake s voterAddress))) ;;
    modify (set_cumulativePendingStake cumulativePending) ;;
    active <- view (fun s =>
      checked_add (VoterStake.activeStake (voterStake s voterAddress))
                  (VoterStake.pendingStake (voterStake s voterAddress))) ;;
    modify (write_voter voterAddress (VoterStake.set_activeStake active)) ;;
    modify (write_voter voterAddress (VoterStake.set_pendingStake 0)) ;;
    emit (fun s =>
      UpdatedActiveStake voterAddress
        (VoterStake.activeStake (voterStake s voterAddress))
        (VoterStake.pendingStake (voterStake s voterAddress))
        (cumulativeActiveStake s) (cumulativePendingStake s)).

Definition _updateTrackers (e : Env) (voterAddress : address) : M unit :=
  _updateReward e voterAddress ;;
  _updateActiveStake e voterAddress.

Definition stake (e : Env) (sender : address) (amount : uint256) : M unit :=
  balance <- view (fun s =>
    staked <-? getVoterStake sender s ;;
    checked_add staked (VoterStake.pendingStake (voterStake s sender))) ;;
  (if balance =? 0
   then modify (write_voter sender
          (VoterStake.set_lastRequestIndexConsidered (startingIndex e)))
   else ret tt) ;;
  _updateTrackers e sender ;;
  (if inActiveReveal e then
     pending <- view (fun s =>
       checked_add (VoterStake.pendingStake (voterStake s sender)) amount) ;;
     modify (write_voter sender (VoterStake.set_pendingStake pending)) ;;
     cumulativePending <- view (fun s =>
       checked_add (cumulativePendingStake s) amount) ;;
     modify (set_cumulativePendingStake cumulativePending)
   else
     active <- view (fun s =>
       checked_add (VoterStake.activeStake (voterStake s sender)) amount) ;;
     modify (write_voter sender (VoterStake.set_activeStake active)) ;;
     cumulativeActive <- view (fun s =>
       checked_add (cumulativeActiveStake s) amount) ;;
     modify (set_cumulativeActiveStake cumulativeActive)) ;;
  _ <- call e (TransferFrom sender (this e) amount) ;;
  emit (fun s =>
    Staked sender amount
      (VoterStake.activeStake (voterStake s sender))
      (VoterStake.pendingStake (voterStake s sender))
      (VoterStake.pendingUnstake (voterStake s sender))
      (cumulativeActiveStake s) (cumulativePendingStake s)).

Definition requestUnstake (e : Env) (sender : address) (amount : uint256)
  : M unit :=
  require (negb (inActiveReveal e)) "In an active reveal phase" ;;
  _updateTrackers e sender ;;
  active <- gets (fun s => VoterStake.activeStake (voterStake s sender)) ;;
  require (amount <=? active) "Bad request amount" ;;
  pendingUnstake <- gets (fun s =>
    VoterStake.pendingUnstake (voterStake s sender)) ;;
  require (pendingUnstake =? 0) "Have previous request unstake" ;;
  cumulativeActive <- view (fun s =>
    checked_sub (cumulativeActiveStake s) amount) ;;
  modify (set_cumulativeActiveStake cumulativeActive) ;;
  modify (write_voter sender (VoterStake.set_pendingUnstake amount)) ;;
  active' <- view (fun s =>
    checked_sub (VoterStake.activeStake (voterStake s sender)) amount) ;;
  modify (write_voter sender (VoterStake.set_activeStake active')) ;;
  modify (write_voter sender
            (VoterStake.set_unstakeRequestTime (currentTime e))) ;;
  emit (fun s =>
    RequestedUnstake sender amount
      (VoterStake.unstakeRequestTime (voterStake s sender))
      (VoterStake.activeStake (voterStake s sender))
      (VoterStake.pendingStake (voterStake s sender))).

Definition executeUnstake (e : Env) (sender : address) : M unit :=
  _updateTrackers e sender ;;
  requestTime <- gets (fun s =>
    VoterStake.unstakeRequestTime (voterStake s sender)) ;;
  (* [a != 0 && b]: the right operand is evaluated only if the left holds *)
  elapsed <- (if requestTime =? 0 then ret false
              else
                releaseTime <- view (fun s =>
                  checked_add requestTime (unstakeCoolDown s)) ;;
                ret (releaseTime <=? currentTime e)) ;;
  require elapsed "Unstake time not passed" ;;
  tokensToSend <- gets (fun s =>
    VoterStake.pendingUnstake (voterStake s sender)) ;;
  (if 0 <? tokensToSend then
     modify (write_voter sender (VoterStake.set_pendingUnstake 0)) ;;
     modify (write_voter sender (VoterStake.set_unstakeRequestTime 0)) ;;
     _ <- call e (Transfer sender tokensToSend) ;;
     ret tt
   else ret tt) ;;
  emit (fun s =>
    ExecutedUnstake sender tokensToSend
      (VoterStake.activeStake (voterStake s sender))
      (VoterStake.pendingStake (voterStake s sender))).

Definition withdrawRewards (e : Env) (sender : address) : M uint256 :=
  _updateTrackers e sender ;;
  tokensToMint <- gets (fun s =>
    VoterStake.outstandingRewards (voterStake s sender)) ;;
  (if 0 <? tokensToMint then
     modify (write_voter sender (VoterStake.set_outstandingRewards 0)) ;;
     minted <- call e (Mint sender tokensToMint) ;;
     require minted "Voting token issuance failed"
   else ret tt) ;;
  emit (fun _ => WithdrawnRewards sender tokensToMint) ;;
  ret tokensToMint.

Definition exit (e : Env) (sender : address) : M unit :=
  executeUnstake e sender ;;
  _ <- withdrawRewards e sender ;;
  ret tt.

(** Modelled from the spec: the modifier [onlyOwner] of OpenZeppelin's
    [Ownable], which is not among the sources; the two setters are
    "privileged (single-owner) configuration changes", so the call reverts
    unless the caller is the owner, who is the deployer. *)
Definition onlyOwner (sender : address) : M unit :=
  o <- gets owner ;;
  require (o =? sender) "Ownable: caller is not the owner".

Definition setEmissionRate (e : Env) (sender : address)
    (_emissionRate : uint256) : M unit :=
  onlyOwner sender ;;
  _updateReward e 0 ;;
  modify (set_emissionRate _emissionRate) ;;
  emit (fun s => SetNewEmissionRate (emissionRate s)).

Definition setUnstakeCoolDown (sender : address) (_unstakeCoolDown : uint256)
  : M unit :=
  onlyOwner sender ;;
  modify (set_unstakeCoolDown _unstakeCoolDown) ;;
  emit (fun s => SetNewUnstakeCooldown (unstakeCoolDown s)).

(** ** Transactions *)

Inductive Op : Type :=
  | OpStake (amount : uint256)
  | OpRequestUnstake (amount : uint256)
  | OpExecuteUnstake
  | OpWithdrawRewards
  | OpExit
  | OpSetEmissionRate (_emissionRate : uint256)
  | OpSetUnstakeCoolDown (_unstakeCoolDown : uint256).

Definition exec (e : Env) (sender : address) (op : Op) : M unit :=
  match op with
  | OpStake amount => stake e sender amount
  | OpRequestUnstake amount => requestUnstake e sender amount
  | OpExecuteUnstake => executeUnstake e sender
  | OpWithdrawRewards => _ <- withdrawRewards e sender ;; ret tt
  | OpExit => exit e sender
  | OpSetEmissionRate r => setEmissionRate e sender r
  | OpSetUnstakeCoolDown c => setUnstakeCoolDown sender c
  end.

(** A transaction is atomic: when the call reverts the storage is the one
    before the call. *)
Definition run_tx (e : Env) (sender : address) (op : Op) (s : Staker)
  : Staker :=
  match exec e sender op s with
  | Ok (_, s') => s'
  | Err _ => s
  end.

Record Tx : Type := mkTx {
  tx_env : Env;
  tx_sender : address;
  tx_op : Op
}.

Definition run_txs (txs : list Tx) (s : Staker) : Staker :=
  fold_left (fun s tx => run_tx (tx_env tx) (tx_sender tx) (tx_op tx) s) txs s.

(** The storages the contract can be in: those a fresh deployment reaches by
    a finite sequence of transactions. *)
Definition reachable (s : Staker) : Prop :=
  exists r c d txs, s = run_txs txs (constructor r c d).

(** The sums, over all voters, of a field of their record. *)
Definition sum_of (f : VoterStake.t -> uint256)
    (m : gmap address VoterStake.t) : N :=
  map_fold (fun _ v acc => f v + acc) 0 m.

(** The token calls of a trace, newest first. *)
Definition token_calls (t : list Effect) : list TokenCall :=
  omap (fun x => match x with Call c => Some c | Emit _ => None end) t.

(** ** Specification vocabulary *)

(** The amount [_updateActiveStake] promotes for [v]: the whole pending
    stake outside the reveal phase, nothing inside it. *)
Definition promoted (e : Env) (s : Staker) (v : address) : N :=
  if inActiveReveal e then 0 else VoterStake.pendingStake (voterStake s v).

(** What a successful [_updateReward] leaves behind. *)
Record reward_updated (e : Env) (v : address) (s s1 : Staker) : Prop := {
  ru_perToken : rewardPerToken e s = Ok (rewardPerTokenStored s1);
  ru_time : lastUpdateTime s1 = currentTime e;
  ru_rate : emissionRate s1 = emissionRate s;
  ru_active : cumulativeActiveStake s1 = cumulativeActiveStake s;
  ru_pending : cumulativePendingStake s1 = cumulativePendingStake s;
  ru_cooldown : unstakeCoolDown s1 = unstakeCoolDown s;
  ru_owner : owner s1 = owner s;
  ru_calls : token_calls (trace s1) = token_calls (trace s);
  ru_others : forall w, w <> v -> voterStake s1 w = voterStake s w;
  ru_sum_active :
    sum_of VoterStake.activeStake (voterStakes s1)
    = sum_of VoterStake.activeStake (voterStakes s);
  ru_sum_pending :
    sum_of VoterStake.pendingStake (voterStakes s1)
    = sum_of VoterStake.pendingStake (voterStakes s);
  ru_zero : v = 0 -> voterStake s1 v = voterStake s v;
  ru_voter : v <> 0 -> exists owed,
    outstandingRewards e v s = Ok owed /\
    voterStake s1 v =
      VoterStake.set_rewardsPaidPerToken (rewardPerTokenStored s1)
        (VoterStake.set_outstandingRewards owed (voterStake s v))
}.

(** What a successful [_updateActiveStake] leaves behind. *)
Record active_updated (e : Env) (v : address) (s s1 : Staker) : Prop := {
  au_perToken : rewardPerTokenStored s1 = rewardPerTokenStored s;
  au_time : lastUpdateTime s1 = lastUpdateTime s;
  au_rate : emissionRate s1 = emissionRate s;
  au_cooldown : unstakeCoolDown s1 = unstakeCoolDown s;
  au_owner : owner s1 = owner s;
  au_calls : token_calls (trace s1) = token_calls (trace s);
  au_active :
    cumulativeActiveStake s1 = cumulativeActiveStake s + promoted e s v;
  au_active_fits :
    inActiveReveal e = false -> cumulativeActiveStake s1 <= MAX_UINT256;
  au_pending :
    cumulativePendingStake s1 = cumulativePendingStake s - promoted e s v;
  au_pending_fits : promoted e s v <= cumulativePendingStake s;
  au_others : forall w, w <> v -> voterStake s1 w = voterStake s w;
  au_voter :
    voterStake s1 v =
      VoterStake.set_pendingStake
        (VoterStake.pendingStake (voterStake s v) - promoted e s v)
        (VoterStake.set_activeStake
           (VoterStake.activeStake (voterStake s v) + promoted e s v)
           (voterStake s v));
  au_voter_fits :
    inActiveReveal e = false ->
    VoterStake.activeStake (voterStake s1 v) <= MAX_UINT256;
  au_sum_active :
    sum_of VoterStake.activeStake (voterStakes s1)
    = sum_of VoterStake.activeStake (voterStakes s) + promoted e s v;
  au_sum_pending :
    sum_of VoterStake.pendingStake (voterStakes s1) + promoted e s v
    = sum_of VoterStake.pendingStake (voterStakes s)
}.

(** What a successful [_updateTrackers] leaves behind: the accumulator is
    settled at the current time, the voter's rewards are settled against
    it, and the voter's pending stake is promoted outside the reveal
    phase. *)
Record trackers_updated (e : Env) (v : address) (s s1 : Staker) : Prop := {
  tu_perToken : rewardPerToken e s = Ok (rewardPerTokenStored s1);
  tu_time : lastUpdateTime s1 = currentTime e;
  tu_rate : emissionRate s1 = emissionRate s;
  tu_cooldown : unstakeCoolDown s1 = unstakeCoolDown s;
  tu_owner : owner s1 = owner s;
  tu_calls : token_calls (trace s1) = token_calls (trace s);
  tu_active :
    cumulativeActiveStake s1 = cumulativeActiveStake s + promoted e s v;
  tu_active_fits :
    inActiveReveal e = false -> cumulativeActiveStake s1 <= MAX_UINT256;
  tu_pending :
    cumulativePendingStake s1 = cumulativePendingStake s - promoted e s v;
  tu_pending_fits : promoted e s v <= cumulativePendingStake s;
  tu_others : forall w, w <> v -> voterStake s1 w = voterStake s w;
  tu_activeStake :
    VoterStake.activeStake (voterStake s1 v)
    = VoterStake.activeStake (voterStake s v) + promoted e s v;
  tu_activeStake_fits :
    inActiveReveal e = false ->
    VoterStake.activeStake (voterStake s1 v) <= MAX_UINT256;
  tu_pendingStake :
    VoterStake.pendingStake (voterStake s1 v)
    = VoterStake.pendingStake (voterStake s v) - promoted e s v;
  tu_pendingUnstake :
    VoterStake.pendingUnstake (voterStake s1 v)
    = VoterStake.pendingUnstake (voterStake s v);
  tu_unstakeRequestTime :
    VoterStake.unstakeRequestTime (voterStake s1 v)
    = VoterStake.unstakeRequestTime (voterStake s v);
  tu_index :
    VoterStake.lastRequestIndexConsidered (voterStake s1 v)
    = VoterStake.lastRequestIndexConsidered (voterStake s v);
  tu_delegate :
    VoterStake.delegate (voterStake s1 v)
    = VoterStake.delegate (voterStake s v);
  tu_settled : v <> 0 ->
    VoterStake.rewardsPaidPerToken (voterStake s1 v) = rewardPerTokenStored s1
    /\ outstandingRewards e v s
       = Ok (VoterStake.outstandingRewards (voterStake s1 v));
  tu_unsettled : v = 0 ->
    VoterStake.rewardsPaidPerToken (voterStake s1 v)
    = VoterStake.rewardsPaidPerToken (voterStake s v)
    /\ VoterStake.outstandingRewards (voterStake s1 v)
       = VoterStake.outstandingRewards (voterStake s v);
  tu_sum_active :
    sum_of VoterStake.activeStake (voterStakes s1)
    = sum_of VoterStake.activeStake (voterStakes s) + promoted e s v;
  tu_sum_pending :
    sum_of VoterStake.pendingStake (voterStakes s1) + promoted e s v
    = sum_of VoterStake.pendingStake (voterStakes s)
}.

Definition ledger_invariant (s : Staker) : Prop :=
  cumulativeActiveStake s = sum_of VoterStake.activeStake (voterStakes s) /\
  cumulativePendingStake s = sum_of VoterStake.pendingStake (voterStakes s).

(** A computation that never fails with [Panic(0x12)]. *)
Definition division_safe {A} (r : result A) : Prop :=
  forall x, r = Err x -> x <> Panic_div_zero.

Definition never_divides_by_zero {A} (m : M A) : Prop :=
  forall s x, m s = Err x -> x <> Panic_div_zero.

(** The storage [requestUnstake] leaves, given the settled storage. *)
Definition unstake_requested (e : Env) (v : address) (amount : uint256)
    (s1 : Staker) : Staker :=
  let s2 :=
    write_voter v (VoterStake.set_unstakeRequestTime (currentTime e))
      (write_voter v
         (VoterStake.set_activeStake
            (VoterStake.activeStake (voterStake s1 v) - amount))
         (write_voter v (VoterStake.set_pendingUnstake amount)
            (set_cumulativeActiveStake
               (cumulativeActiveStake s1 - amount) s1))) in
  set_trace
    (Emit (RequestedUnstake v amount (currentTime e)
             (VoterStake.activeStake (voterStake s1 v) - amount)
             (VoterStake.pendingStake (voterStake s1 v)))
       :: trace s1) s2.


(** Concrete scenarios. The voting token of [a_token] accepts every call. *)
Definition a_token : TokenCall -> TokenReply := fun _ => Returns true.

Definition at_time (t : uint256) (reveal : bool) : Env :=
  mkEnv t reveal 0 999 a_token.

(** A ledger deployed with emission rate [2^200] in which voter [1] has
    staked one token at time [0]. *)
Definition overflowing_ledger : Staker :=
  run_txs [mkTx (at_time 0 false) 1 (OpStake 1)] (constructor (2 ^ 200) 0 7).

(** A ledger with emission rate [1] and cooldown [10] in which voter [1]
    has staked [100] tokens at time [5]. *)
Definition staked_ledger : Staker :=
  run_txs [mkTx (at_time 5 false) 1 (OpStake 100)] (constructor 1 10 7).

(** The storage [executeUnstake] leaves, given the settled storage. *)
Definition unstake_executed (e : Env) (v : address) (s1 : Staker) : Staker :=
  let tokensToSend := VoterStake.pendingUnstake (voterStake s1 v) in
  let s2 :=
    if 0 <? tokensToSend then
      set_trace (Call (Transfer v tokensToSend) :: trace s1)
        (write_voter v (VoterStake.set_unstakeRequestTime 0)
           (write_voter v (VoterStake.set_pendingUnstake 0) s1))
    else s1 in
  set_trace
    (Emit (ExecutedUnstake v tokensToSend
             (VoterStake.activeStake (voterStake s2 v))
             (VoterStake.pendingStake (voterStake s2 v)))
       :: trace s2) s2.

(** The precondition of [executeUnstake]: a request is stamped and its
    cooldown has elapsed. *)
Definition cooldown_elapsed (e : Env) (v : address) (s : Staker) : Prop :=
  VoterStake.unstakeRequestTime (voterStake s v) <> 0 /\
  VoterStake.unstakeRequestTime (voterStake s v) + unstakeCoolDown s
  <= currentTime e.

(** Voter [1] has staked [100] at time [5] and requested an unstake of
    [0] at time [6]; the cooldown is [10]. *)
Definition zero_request_ledger : Staker :=
  run_txs [mkTx (at_time 5 false) 1 (OpStake 100);
           mkTx (at_time 6 false) 1 (OpRequestUnstake 0)]
          (constructor 1 10 7).

(** Voter [1] has staked [100] at time [5] and requested an unstake of
    [50] at time [8]; the cooldown is [10]. *)
Definition requested_ledger : Staker :=
  run_txs [mkTx (at_time 8 false) 1 (OpRequestUnstake 50)] staked_ledger.

(** The storage [withdrawRewards] leaves, given the settled storage. *)
Definition rewards_withdrawn (v : address) (s1 : Staker) : Staker :=
  let tokensToMint := VoterStake.outstandingRewards (voterStake s1 v) in
  let s2 :=
    if 0 <? tokensToMint then
      set_trace (Call (Mint v tokensToMint) :: trace s1)
        (write_voter v (VoterStake.set_outstandingRewards 0) s1)
    else s1 in
  set_trace (Emit (WithdrawnRewards v tokensToMint) :: trace s2) s2.

(** The storage [stake] leaves, given the settled storage. *)
Definition stake_deposited (e : Env) (v : address) (amount : uint256)
    (s1 : Staker) : Staker :=
  let s2 :=
    if inActiveReveal e then
      set_cumulativePendingStake (cumulativePendingStake s1 + amount)
        (write_voter v
           (VoterStake.set_pendingStake
              (VoterStake.pendingStake (voterStake s1 v) + amount)) s1)
    else
      set_cumulativeActiveStake (cumulativeActiveStake s1 + amount)
        (write_voter v
           (VoterStake.set_activeStake
              (VoterStake.activeStake (voterStake s1 v) + amount)) s1) in
  let s3 := set_trace (Call (TransferFrom v (this e) amount) :: trace s2) s2 in
  set_trace
    (Emit (Staked v amount
             (VoterStake.activeStake (voterStake s3 v))
             (VoterStake.pendingStake (voterStake s3 v))
             (VoterStake.pendingUnstake (voterStake s3 v))
             (cumulativeActiveStake s3) (cumulativePendingStake s3))
       :: trace s3) s3.

(** The storage in which [stake] settles: a voter without any stake first
    has [lastRequestIndexConsidered] moved to the starting index. *)
Definition stake_indexed (e : Env) (v : address) (s : Staker) : Staker :=
  if VoterStake.activeStake (voterStake s v)
     + VoterStake.pendingStake (voterStake s v)
     + VoterStake.pendingStake (voterStake s v) =? 0
  then write_voter v
         (VoterStake.set_lastRequestIndexConsidered (startingIndex e)) s
  else s.

(** The entry points a voter calls for themselves; each of them starts
    with [_updateTrackers(msg.sender)].  The two owner-only setters are
    configuration changes and touch no voter record. *)
Definition voter_entry_point (op : Op) : bool :=
  match op with
  | OpSetEmissionRate _ | OpSetUnstakeCoolDown _ => false
  | _ => true
  end.

Definition staked_by (op : Op) : N :=
  match op with OpStake amount => amount | _ => 0 end.

Definition unstaked_by (op : Op) : N :=
  match op with OpRequestUnstake amount => amount | _ => 0 end.



(** ** Further vocabulary *)

(** The amounts the ledger asked the token to pull into its custody
    ([transferFrom]) and to send back to voters ([transfer]). *)
Definition pulled_in (calls : list TokenCall) : N :=
  foldr (fun c acc =>
           match c with TransferFrom _ _ amount => amount + acc | _ => acc end)
        0 calls.

Definition sent_out (calls : list TokenCall) : N :=
  foldr (fun c acc =>
           match c with Transfer _ amount => amount + acc | _ => acc end)
        0 calls.

(** Everything pulled in and not yet sent back is on record as active
    stake, pending stake or pending unstake. *)
Definition custody_balanced (s : Staker) : Prop :=
  pulled_in (token_calls (trace s))
  = sent_out (token_calls (trace s))
    + cumulativeActiveStake s + cumulativePendingStake s
    + sum_of VoterStake.pendingUnstake (voterStakes s).

(** No voter's snapshot of the accumulator is ahead of the accumulator. *)
Definition snapshots_behind (s : Staker) : Prop :=
  forall w, VoterStake.rewardsPaidPerToken (voterStake s w)
            <= rewardPerTokenStored s.

(** The entry points that write a voter's unstake request. *)
Definition unstakes (op : Op) : bool :=
  match op with
  | OpRequestUnstake _ | OpExecuteUnstake | OpExit => true
  | _ => false
  end.

(** The transactions that cannot write the unstake request of [v]: those
    of other senders, and those of [v] that do not unstake. *)
Definition leaves_request (v : address) (tx : Tx) : Prop :=
  tx_sender tx = v -> unstakes (tx_op tx) = false.

(** The unstake request on record for [v]: the amount and its time. *)
Definition unstake_request (s : Staker) (v : address) : uint256 * uint256 :=
  (VoterStake.pendingUnstake (voterStake s v),
   VoterStake.unstakeRequestTime (voterStake s v)).

(** The entry points that begin by bringing the reward accumulator up to
    date: all of them but [setUnstakeCoolDown]. *)
Definition updates_reward (op : Op) : bool :=
  match op with
  | OpSetUnstakeCoolDown _ => false
  | _ => true
  end.

(** The part of the storage that holds stake and custody. *)
Definition same_stakes (s s' : Staker) : Prop :=
  cumulativeActiveStake s' = cumulativeActiveStake s
  /\ cumulativePendingStake s' = cumulativePendingStake s
  /\ voterStakes s' = voterStakes s
  /\ token_calls (trace s') = token_calls (trace s).

(** Two voters stake [2^255] each, the first inside the reveal phase and
    the second outside it, under a token that accepts every call. *)
Definition overflowed_totals : Staker :=
  run_txs [mkTx (at_time 0 true) 1 (OpStake (2 ^ 255));
           mkTx (at_time 0 false) 2 (OpStake (2 ^ 255))]
          (constructor 0 0 7).

(** The entry points that pay rewards out. *)
Definition withdraws (op : Op) : bool :=
  match op with
  | OpWithdrawRewards | OpExit => true
  | _ => false
  end.

(** No delegation is on record. *)
Definition no_delegation (s : Staker) : Prop :=
  delegateToStaker s = ∅
  /\ forall w, VoterStake.delegate (voterStake s w) = 0.

(** The balance [stake] tests before it settles. *)
Definition balance_before_stake (s : Staker) (v : address) : N :=
  VoterStake.activeStake (voterStake s v)
  + VoterStake.pendingStake (voterStake s v)
  + VoterStake.pendingStake (voterStake s v).

Definition stakes (op : Op) : bool :=
  match op with OpStake _ => true | _ => false end.

(** The storage a settlement for [v] leaves; the storage itself when the
    settlement reverts. *)
Definition settle (e : Env) (v : address) (s : Staker) : Staker :=
  match _updateTrackers e v s with
  | Ok (_, s1) => s1
  | Err _ => s
  end.

(** Voter [1] stakes [100] and requests an unstake of [50], both at time
    [0]; the cooldown is [10]. *)
Definition stuck_ledger : Staker :=
  run_txs [mkTx (at_time 0 false) 1 (OpStake 100);
           mkTx (at_time 0 false) 1 (OpRequestUnstake 50)]
          (constructor 1 10 7).

(** A call at time [5] for which the starting index is [3]. *)
Definition indexed_call : Env := mkEnv 5 false 3 999 a_token.


(** * Reasoning principles *)

(** ** Checked arithmetic *)

#[global] Arguments MAX_UINT256 : simpl never.
#[global] Arguments SCALE : simpl never.

Lemma checked_add_ok a b c :
  checked_add a b = Ok c <-> a + b <= MAX_UINT256 /\ c = a + b.
Proof.
  unfold checked_add. destruct (N.leb_spec (a + b) MAX_UINT256); split.
  - intros [= <-]. auto.
  - intros [_ ->]. reflexivity.
  - discriminate.
  - intros [? _]. lia.
Qed.

Lemma checked_sub_ok a b c :
  checked_sub a b = Ok c <-> b <= a /\ c = a - b.
Proof.
  unfold checked_sub. destruct (N.leb_spec b a); split.
  - intros [= <-]. auto.
  - intros [_ ->]. reflexivity.
  - discriminate.
  - intros [? _]. lia.
Qed.

Lemma checked_mul_ok a b c :
  checked_mul a b = Ok c <-> a * b <= MAX_UINT256 /\ c = a * b.
Proof.
  unfold checked_mul. destruct (N.leb_spec (a * b) MAX_UINT256); split.
  - intros [= <-]. auto.
  - intros [_ ->]. reflexivity.
  - discriminate.
  - intros [? _]. lia.
Qed.

Lemma checked_div_ok a b c :
  checked_div a b = Ok c <-> b <> 0 /\ c = a / b.
Proof.
  unfold checked_div. destruct (N.eqb_spec b 0); split.
  - discriminate.
  - intros [? _]. contradiction.
  - intros [= <-]. auto.
  - intros [_ ->]. reflexivity.
Qed.

Lemma checked_add_fits a b :
  a + b <= MAX_UINT256 -> checked_add a b = Ok (a + b).
Proof. intros. by apply checked_add_ok. Qed.

Lemma checked_sub_fits a b : b <= a -> checked_sub a b = Ok (a - b).
Proof. intros. by apply checked_sub_ok. Qed.


Lemma checked_div_fits a b : b <> 0 -> checked_div a b = Ok (a / b).
Proof. intros. by apply checked_div_ok. Qed.

Lemma checked_sub_diag a : checked_sub a a = Ok 0.
Proof. rewrite checked_sub_fits by lia. f_equal. lia. Qed.

Lemma checked_mul_0_l b : checked_mul 0 b = Ok 0.
Proof. reflexivity. Qed.

Lemma checked_mul_0_r a : checked_mul a 0 = Ok 0.
Proof. unfold checked_mul. by rewrite N.mul_0_r. Qed.

Lemma checked_div_0_l b : b <> 0 -> checked_div 0 b = Ok 0.
Proof. intros. rewrite checked_div_fits by done. by rewrite N.Div0.div_0_l. Qed.

Lemma checked_add_0_r a : a <= MAX_UINT256 -> checked_add a 0 = Ok a.
Proof. intros. rewrite checked_add_fits by lia. f_equal. lia. Qed.

Lemma checked_add_0_l a : a <= MAX_UINT256 -> checked_add 0 a = Ok a.
Proof. intros. rewrite checked_add_fits by lia. f_equal. Qed.

Lemma SCALE_nonzero : SCALE <> 0.
Proof. discriminate. Qed.

Lemma checked_add_err a b x : checked_add a b = Err x -> x = Panic_overflow.
Proof. unfold checked_add. destruct (_ <=? _); congruence. Qed.

Lemma checked_sub_err a b x : checked_sub a b = Err x -> x = Panic_overflow.
Proof. unfold checked_sub. destruct (_ <=? _); congruence. Qed.

Lemma checked_mul_err a b x : checked_mul a b = Err x -> x = Panic_overflow.
Proof. unfold checked_mul. destruct (_ <=? _); congruence. Qed.

Lemma rbind_ok {A B} (r : result A) (k : A -> result B) b :
  rbind r k = Ok b <-> exists a, r = Ok a /\ k a = Ok b.
Proof.
  destruct r as [a|x]; simpl; split.
  - eauto.
  - intros (a' & [= <-] & H). exact H.
  - discriminate.
  - intros (a' & [=] & _).
Qed.

(** ** The monad *)

Lemma bind_ok {A B} (m : M A) (k : A -> M B) s r :
  bind m k s = Ok r <-> exists a s1, m s = Ok (a, s1) /\ k a s1 = Ok r.
Proof.
  unfold bind. destruct (m s) as [[a s1]|x]; split.
  - eauto.
  - intros (a' & s1' & [= <- <-] & H). exact H.
  - discriminate.
  - intros (a' & s1' & [=] & _).
Qed.

Lemma ret_ok {A} (a b : A) s s' : ret a s = Ok (b, s') <-> b = a /\ s' = s.
Proof. unfold ret. split; [intros [= <- <-] | intros [-> ->]]; auto. Qed.

Lemma gets_ok {A} (f : Staker -> A) s a s' :
  gets f s = Ok (a, s') <-> a = f s /\ s' = s.
Proof. unfold gets. split; [intros [= <- <-] | intros [-> ->]]; auto. Qed.

Lemma modify_ok f s u s' : modify f s = Ok (u, s') <-> s' = f s.
Proof.
  unfold modify. destruct u. split; [intros [= <-] | intros ->]; auto.
Qed.

Lemma emit_ok ev s u s' :
  emit ev s = Ok (u, s') <-> s' = set_trace (Emit (ev s) :: trace s) s.
Proof. unfold emit. rewrite modify_ok. reflexivity. Qed.

Lemma view_ok {A} (f : Staker -> result A) s a s' :
  view f s = Ok (a, s') <-> f s = Ok a /\ s' = s.
Proof.
  unfold view. destruct (f s); split.
  - intros [= <- <-]. auto.
  - intros [[= ->] ->]. reflexivity.
  - discriminate.
  - intros [[=] _].
Qed.

Lemma require_ok c reason s u s' :
  require c reason s = Ok (u, s') <-> c = true /\ s' = s.
Proof.
  unfold require, ret, revert. destruct c, u; split.
  - intros [= <-]. auto.
  - intros [_ ->]. reflexivity.
  - discriminate.
  - intros [[=] _].
Qed.

Lemma call_ok e c s b s' :
  call e c s = Ok (b, s') <->
  votingToken e c = Returns b /\ s' = set_trace (Call c :: trace s) s.
Proof.
  unfold call. destruct (votingToken e c); split.
  - discriminate.
  - intros [[=] _].
  - intros [= <- <-]. auto.
  - intros [[= ->] ->]. reflexivity.
Qed.

(** ** Storage reads after writes *)

Lemma voterStake_write_eq v f s :
  voterStake (write_voter v f s) v = f (voterStake s v).
Proof. unfold voterStake, write_voter. simpl. by rewrite lookup_insert_eq. Qed.

Lemma voterStake_write_ne v w f s :
  v <> w -> voterStake (write_voter v f s) w = voterStake s w.
Proof.
  intros Hne. unfold voterStake, write_voter. simpl.
  by rewrite lookup_insert_ne.
Qed.

Lemma voterStake_constructor r c d v :
  voterStake (constructor r c d) v = VoterStake.zero.
Proof. reflexivity. Qed.

Section frame.
Context (v : address) (s : Staker).

Lemma voterStake_set_emissionRate x :
  voterStake (set_emissionRate x s) v = voterStake s v.
Proof. reflexivity. Qed.
Lemma voterStake_set_cumulativeActiveStake x :
  voterStake (set_cumulativeActiveStake x s) v = voterStake s v.
Proof. reflexivity. Qed.
Lemma voterStake_set_cumulativePendingStake x :
  voterStake (set_cumulativePendingStake x s) v = voterStake s v.
Proof. reflexivity. Qed.
Lemma voterStake_set_rewardPerTokenStored x :
  voterStake (set_rewardPerTokenStored x s) v = voterStake s v.
Proof. reflexivity. Qed.
Lemma voterStake_set_lastUpdateTime x :
  voterStake (set_lastUpdateTime x s) v = voterStake s v.
Proof. reflexivity. Qed.
Lemma voterStake_set_unstakeCoolDown x :
  voterStake (set_unstakeCoolDown x s) v = voterStake s v.
Proof. reflexivity. Qed.
Lemma voterStake_set_trace x :
  voterStake (set_trace x s) v = voterStake s v.
Proof. reflexivity. Qed.
End frame.

Section write_frame.
Context (v : address) (f : VoterStake.t -> VoterStake.t) (s : Staker).

Lemma emissionRate_write : emissionRate (write_voter v f s) = emissionRate s.
Proof. reflexivity. Qed.
Lemma cumulativeActiveStake_write : cumulativeActiveStake (write_voter v f s) = cumulativeActiveStake s.
Proof. reflexivity. Qed.
Lemma cumulativePendingStake_write : cumulativePendingStake (write_voter v f s) = cumulativePendingStake s.
Proof. reflexivity. Qed.
Lemma rewardPerTokenStored_write : rewardPerTokenStored (write_voter v f s) = rewardPerTokenStored s.
Proof. reflexivity. Qed.
Lemma lastUpdateTime_write : lastUpdateTime (write_voter v f s) = lastUpdateTime s.
Proof. reflexivity. Qed.
Lemma unstakeCoolDown_write : unstakeCoolDown (write_voter v f s) = unstakeCoolDown s.
Proof. reflexivity. Qed.
Lemma delegateToStaker_write : delegateToStaker (write_voter v f s) = delegateToStaker s.
Proof. reflexivity. Qed.
Lemma owner_write : owner (write_voter v f s) = owner s.
Proof. reflexivity. Qed.
Lemma trace_write : trace (write_voter v f s) = trace s.
Proof. reflexivity. Qed.
End write_frame.

Lemma voterStake_same_map s s' w :
  voterStakes s' = voterStakes s -> voterStake s' w = voterStake s w.
Proof. intros H. unfold voterStake. by rewrite H. Qed.

(** ** Sums over the voters *)

Lemma sum_of_insert_absent f (m : gmap address VoterStake.t) v x :
  m !! v = None -> sum_of f (<[v := x]> m) = f x + sum_of f m.
Proof.
  intros Hv. unfold sum_of.
  rewrite map_fold_insert_L; [reflexivity | | exact Hv].
  intros; lia.
Qed.

Lemma sum_of_insert f (m : gmap address VoterStake.t) v x :
  f VoterStake.zero = 0 ->
  sum_of f (<[v := x]> m) + f (default VoterStake.zero (m !! v))
  = sum_of f m + f x.
Proof.
  intros Hz. destruct (m !! v) as [y|] eqn:Hv; simpl.
  - rewrite <- (insert_delete_eq m v x).
    replace (sum_of f m) with (sum_of f (<[v := y]> (delete v m)))
      by (by rewrite insert_delete_id).
    rewrite !sum_of_insert_absent by apply lookup_delete_eq. lia.
  - rewrite sum_of_insert_absent by exact Hv. lia.
Qed.

Lemma sum_of_write f v g s :
  f VoterStake.zero = 0 ->
  sum_of f (voterStakes (write_voter v g s)) + f (voterStake s v)
  = sum_of f (voterStakes s) + f (g (voterStake s v)).
Proof.
  intros Hz. unfold write_voter.
  cbn [voterStakes set_voterStakes].
  unfold voterStake.
  by apply sum_of_insert.
Qed.

Lemma sum_of_ge f s v :
  f VoterStake.zero = 0 -> f (voterStake s v) <= sum_of f (voterStakes s).
Proof.
  intros Hz. unfold voterStake.
  destruct (voterStakes s !! v) as [y|] eqn:Hv; simpl; [|lia].
  replace (sum_of f (voterStakes s))
    with (sum_of f (<[v := y]> (delete v (voterStakes s))))
    by (by rewrite insert_delete_id).
  rewrite sum_of_insert_absent by apply lookup_delete_eq. lia.
Qed.

Lemma sum_of_write_frame f v g s :
  f VoterStake.zero = 0 ->
  f (g (voterStake s v)) = f (voterStake s v) ->
  sum_of f (voterStakes (write_voter v g s)) = sum_of f (voterStakes s).
Proof.
  intros Hz Hg. pose proof (sum_of_write f v g s Hz). lia.
Qed.

(** From here on the storage is read and written through the lemmas
    above only. *)
#[global] Opaque voterStake.
#[global] Opaque write_voter.

Create Rewrite HintDb staker.
#[global] Hint Rewrite voterStake_write_eq voterStake_set_emissionRate
  voterStake_set_cumulativeActiveStake voterStake_set_cumulativePendingStake
  voterStake_set_rewardPerTokenStored voterStake_set_lastUpdateTime
  voterStake_set_unstakeCoolDown voterStake_set_trace
  voterStake_constructor
  emissionRate_write cumulativeActiveStake_write cumulativePendingStake_write rewardPerTokenStored_write lastUpdateTime_write
  unstakeCoolDown_write delegateToStaker_write owner_write trace_write : staker.
#[global] Hint Rewrite voterStake_write_ne using congruence : staker.

(** ** Symbolic execution of successful runs *)

Ltac minv :=
  repeat match goal with
  | u : unit |- _ => destruct u
  | H : bind _ _ _ = Ok _ |- _ =>
      apply bind_ok in H; destruct H as (? & ? & ? & H)
  | H : ret _ _ = Ok _ |- _ => apply ret_ok in H; destruct H; subst
  | H : gets _ _ = Ok _ |- _ => apply gets_ok in H; destruct H; subst
  | H : modify _ _ = Ok _ |- _ => apply modify_ok in H; subst
  | H : emit _ _ = Ok _ |- _ => apply emit_ok in H; subst
  | H : view _ _ = Ok _ |- _ =>
      apply view_ok in H; destruct H as [H ?]; cbv beta in H; subst
  | H : require _ _ _ = Ok _ |- _ => apply require_ok in H; destruct H; subst
  | H : call _ _ _ = Ok _ |- _ => apply call_ok in H; destruct H; subst
  | H : rbind _ _ = Ok _ |- _ =>
      apply rbind_ok in H; destruct H as (? & ? & H)
  | H : checked_add _ _ = Ok _ |- _ =>
      apply checked_add_ok in H; destruct H; subst
  | H : checked_sub _ _ = Ok _ |- _ =>
      apply checked_sub_ok in H; destruct H; subst
  | H : checked_mul _ _ = Ok _ |- _ =>
      apply checked_mul_ok in H; destruct H; subst
  | H : checked_div _ _ = Ok _ |- _ =>
      apply checked_div_ok in H; destruct H; subst
  | H : (if ?c then _ else _) _ = Ok _ |- _ => destruct c eqn:?
  | H : Ok _ = Ok _ |- _ => injection H as H; subst
  | H : Err _ = Ok _ |- _ => discriminate H
  end.

Ltac ssimpl := simpl in *; autorewrite with staker in *; simpl in *.

Lemma rewardPerToken_settled e s rpt :
  rewardPerToken e s = Ok rpt ->
  rewardPerToken e
    (set_lastUpdateTime (currentTime e) (set_rewardPerTokenStored rpt s))
  = Ok rpt.
Proof.
  unfold rewardPerToken, getCumulativeStake. simpl.
  intros H. apply rbind_ok in H as (total & Ht & H). rewrite Ht. simpl.
  destruct (total =? 0) eqn:Hz; [reflexivity|].
  minv.
  rewrite checked_sub_diag. cbn [rbind]. rewrite checked_mul_0_l.
  cbn [rbind]. rewrite checked_mul_0_l. cbn [rbind].
  rewrite checked_div_0_l by done. cbn [rbind].
  by apply checked_add_0_r.
Qed.

Lemma outstandingRewards_settled e v s rpt :
  rewardPerToken e s = Ok rpt ->
  outstandingRewards e v
    (set_lastUpdateTime (currentTime e) (set_rewardPerTokenStored rpt s))
  = outstandingRewards e v s.
Proof.
  intros H. unfold outstandingRewards.
  rewrite (rewardPerToken_settled _ _ _ H), H. reflexivity.
Qed.

Lemma _updateReward_spec e v s u s1 :
  _updateReward e v s = Ok (u, s1) -> reward_updated e v s s1.
Proof.
  unfold _updateReward. intros H.
  apply bind_ok in H as (rpt & s' & Hrpt & H).
  apply view_ok in Hrpt as [Hrpt ->].
  destruct (N.eqb_spec v 0) as [->|Hv].
  - minv. split; ssimpl; try done.
  - minv.
    match goal with Ho : outstandingRewards _ _ _ = Ok _ |- _ =>
      rewrite (outstandingRewards_settled _ _ _ _ Hrpt) in Ho end.
    split; ssimpl; try done.
    + intros w Hw. by autorewrite with staker.
    + rewrite !sum_of_write_frame; ssimpl; done.
    + rewrite !sum_of_write_frame; ssimpl; done.
    + eauto.
Qed.

Lemma VoterStake_eta (x : VoterStake.t) :
  VoterStake.set_pendingStake (VoterStake.pendingStake x - 0)
    (VoterStake.set_activeStake (VoterStake.activeStake x + 0) x) = x.
Proof.
  destruct x. unfold VoterStake.set_pendingStake, VoterStake.set_activeStake.
  simpl. by rewrite N.sub_0_r, N.add_0_r.
Qed.

(** Account for every voter write under a sum. *)
Ltac sum_step :=
  match goal with
  | |- context [sum_of ?f (voterStakes (write_voter ?v ?g ?s))] =>
      let H := fresh in
      pose proof (sum_of_write f v g s eq_refl) as H;
      let x := fresh "total" in
      set (x := sum_of f (voterStakes (write_voter v g s))) in *;
      clearbody x; revert H
  end.
Ltac sums := simpl; repeat sum_step; intros; ssimpl; try lia.

Lemma _updateActiveStake_spec e v s u s1 :
  _updateActiveStake e v s = Ok (u, s1) -> active_updated e v s s1.
Proof.
  unfold _updateActiveStake. intros H.
  destruct (inActiveReveal e) eqn:Hr.
  - minv.
    split; unfold promoted; rewrite ?Hr; try done; try lia.
    symmetry. apply VoterStake_eta.
  - minv. ssimpl. split; unfold promoted; rewrite ?Hr; ssimpl; try done.
    + intros w Hw. by autorewrite with staker.
    + by rewrite N.sub_diag.
    + sums.
    + sums.
Qed.

Lemma promoted_reward_updated e v s s' :
  reward_updated e v s s' -> promoted e s' v = promoted e s v.
Proof.
  intros R. unfold promoted. destruct (inActiveReveal e); [done|].
  destruct (N.eq_dec v 0) as [Hz|Hz].
  - by rewrite (ru_zero _ _ _ _ R Hz).
  - destruct (ru_voter _ _ _ _ R Hz) as (owed & _ & ->). reflexivity.
Qed.

Lemma _updateTrackers_spec e v s u s1 :
  _updateTrackers e v s = Ok (u, s1) -> trackers_updated e v s s1.
Proof.
  unfold _updateTrackers. intros H.
  apply bind_ok in H as (u' & s' & HR & HA).
  apply _updateReward_spec in HR as R.
  apply _updateActiveStake_spec in HA as A.
  pose proof (promoted_reward_updated _ _ _ _ R) as Hp.
  destruct R, A. rewrite Hp in *.
  assert (Hsame : forall f : VoterStake.t -> N,
    (forall x y z, f (VoterStake.set_rewardsPaidPerToken x
                        (VoterStake.set_outstandingRewards y z)) = f z) ->
    f (voterStake s' v) = f (voterStake s v)).
  { intros f Hf. destruct (N.eq_dec v 0) as [Hz|Hz].
    - by rewrite (ru_zero0 Hz).
    - destruct (ru_voter0 Hz) as (owed & _ & ->). apply Hf. }
  split; try congruence;
    try (intros w Hw; rewrite au_others0, ru_others0; done);
    try (rewrite au_voter0; simpl;
         first [by apply Hsame | f_equal; by apply Hsame]);
    try lia; auto.
  - intros Hz. rewrite au_voter0. simpl.
    destruct (ru_voter0 Hz) as (owed & Ho & ->). simpl.
    split; congruence.
  - intros Hz. rewrite au_voter0. simpl. by rewrite (ru_zero0 Hz).
Qed.

(** * The ledger invariant *)

Lemma invariant_constructor r c d : ledger_invariant (constructor r c d).
Proof. split; reflexivity. Qed.

Lemma invariant_updateReward e v s u s1 :
  _updateReward e v s = Ok (u, s1) ->
  ledger_invariant s -> ledger_invariant s1.
Proof.
  intros H [Ha Hp]. apply _updateReward_spec in H. destruct H.
  split; congruence.
Qed.

Lemma invariant_updateTrackers e v s u s1 :
  _updateTrackers e v s = Ok (u, s1) ->
  ledger_invariant s -> ledger_invariant s1.
Proof.
  intros H [Ha Hp]. apply _updateTrackers_spec in H. destruct H.
  split; lia.
Qed.

Ltac trackers :=
  match goal with
  | H : _updateTrackers _ _ _ = Ok _ |- _ =>
      let I := fresh "Hinv" in
      pose proof (invariant_updateTrackers _ _ _ _ _ H) as I;
      apply _updateTrackers_spec in H
  end.

Lemma invariant_stake e v amount s u s1 :
  stake e v amount s = Ok (u, s1) ->
  ledger_invariant s -> ledger_invariant s1.
Proof.
  unfold stake, ledger_invariant. intros H Hs.
  minv; trackers.
  all: match type of Hinv with ?P -> _ =>
         assert (Hpre : P) by (destruct Hs; split; sums) end.
  all: destruct (Hinv Hpre) as [Ha Hp]; clear Hinv Hpre.
  all: split; sums.
Qed.

Ltac invariant_tac H Hs :=
  minv; try trackers;
  try match goal with
      | Hinv : ?P -> _ |- _ =>
          let Hpre := fresh in
          assert (Hpre : P) by (destruct Hs; split; sums);
          destruct (Hinv Hpre); clear Hinv Hpre
      end;
  split; sums.

Lemma invariant_requestUnstake e v amount s u s1 :
  requestUnstake e v amount s = Ok (u, s1) ->
  ledger_invariant s -> ledger_invariant s1.
Proof. unfold requestUnstake. intros H Hs. invariant_tac H Hs. Qed.

Lemma invariant_executeUnstake e v s u s1 :
  executeUnstake e v s = Ok (u, s1) ->
  ledger_invariant s -> ledger_invariant s1.
Proof. unfold executeUnstake. intros H Hs. invariant_tac H Hs. Qed.

Lemma invariant_withdrawRewards e v s r s1 :
  withdrawRewards e v s = Ok (r, s1) ->
  ledger_invariant s -> ledger_invariant s1.
Proof. unfold withdrawRewards. intros H Hs. invariant_tac H Hs. Qed.

Lemma invariant_exit e v s u s1 :
  exit e v s = Ok (u, s1) -> ledger_invariant s -> ledger_invariant s1.
Proof.
  unfold exit. intros H Hs.
  apply bind_ok in H as (? & s' & H1 & H).
  apply bind_ok in H as (? & s'' & H2 & H).
  apply ret_ok in H as [_ ->].
  eauto using invariant_executeUnstake, invariant_withdrawRewards.
Qed.

Lemma invariant_setEmissionRate e v r s u s1 :
  setEmissionRate e v r s = Ok (u, s1) ->
  ledger_invariant s -> ledger_invariant s1.
Proof.
  unfold setEmissionRate, onlyOwner. intros H Hs. minv.
  match goal with H : _updateReward _ _ _ = Ok _ |- _ =>
    apply invariant_updateReward in H; [destruct H | done] end.
  split; sums.
Qed.

Lemma invariant_setUnstakeCoolDown v c s u s1 :
  setUnstakeCoolDown v c s = Ok (u, s1) ->
  ledger_invariant s -> ledger_invariant s1.
Proof.
  unfold setUnstakeCoolDown, onlyOwner. intros H Hs. minv.
  destruct Hs. split; sums.
Qed.

Lemma invariant_exec e v op s u s1 :
  exec e v op s = Ok (u, s1) -> ledger_invariant s -> ledger_invariant s1.
Proof.
  destruct op; simpl; intros H Hs.
  - eauto using invariant_stake.
  - eauto using invariant_requestUnstake.
  - eauto using invariant_executeUnstake.
  - apply bind_ok in H as (? & ? & H1 & H). apply ret_ok in H as [_ ->].
    eauto using invariant_withdrawRewards.
  - eauto using invariant_exit.
  - eauto using invariant_setEmissionRate.
  - eauto using invariant_setUnstakeCoolDown.
Qed.

Lemma invariant_run_tx e v op s :
  ledger_invariant s -> ledger_invariant (run_tx e v op s).
Proof.
  intros Hs. unfold run_tx.
  destruct (exec e v op s) as [[u s1]|x] eqn:H; [|done].
  eauto using invariant_exec.
Qed.

Lemma invariant_run_txs txs s :
  ledger_invariant s -> ledger_invariant (run_txs txs s).
Proof.
  revert s. induction txs as [|tx txs IH]; intros s Hs; simpl; [done|].
  apply IH. by apply invariant_run_tx.
Qed.

Lemma invariant_reachable s : reachable s -> ledger_invariant s.
Proof.
  intros (r & c & d & txs & ->).
  apply invariant_run_txs, invariant_constructor.
Qed.

(** C1. After every finite sequence of ledger operations, starting from
    the freshly constructed (empty) ledger, [cumulativeActiveStake] is the
    sum over all voters of their [activeStake] and [cumulativePendingStake]
    the sum of their [pendingStake]. *)
Theorem cumulative_stake_is_sum_of_voter_stakes :
  forall (_emissionRate _unstakeCoolDown : uint256) (deployer : address)
         (txs : list Tx),
    let s := run_txs txs (constructor _emissionRate _unstakeCoolDown deployer) in
    cumulativeActiveStake s = sum_of VoterStake.activeStake (voterStakes s) /\
    cumulativePendingStake s = sum_of VoterStake.pendingStake (voterStakes s).
Proof.
  intros r c d txs s.
  apply (invariant_run_txs txs _ (invariant_constructor r c d)).
Qed.

(** * The accumulator *)

Lemma rewardPerToken_ge e s r :
  rewardPerToken e s = Ok r -> rewardPerTokenStored s <= r.
Proof.
  unfold rewardPerToken. intros H.
  apply rbind_ok in H as (total & _ & H).
  destruct (total =? 0); minv; [lia | apply N.le_add_r].
Qed.

Lemma rewardPerToken_zero_stake e s :
  cumulativeActiveStake s + cumulativePendingStake s = 0 ->
  rewardPerToken e s = Ok (rewardPerTokenStored s).
Proof.
  intros H. unfold rewardPerToken, getCumulativeStake, checked_add.
  rewrite H. reflexivity.
Qed.

Lemma rewardPerToken_err e s x :
  rewardPerToken e s = Err x -> x = Panic_overflow.
Proof.
  unfold rewardPerToken, getCumulativeStake.
  destruct (checked_add _ _) as [total|y] eqn:Ht; simpl;
    [|intros [= <-]; eauto using checked_add_err].
  destruct (N.eqb_spec total 0) as [Hz|Hz]; [discriminate|].
  destruct (checked_sub _ _) as [dt|y] eqn:H1; simpl;
    [|intros [= <-]; eauto using checked_sub_err].
  destruct (checked_mul dt _) as [a|y] eqn:H2; simpl;
    [|intros [= <-]; eauto using checked_mul_err].
  destruct (checked_mul a _) as [b|y] eqn:H3; simpl;
    [|intros [= <-]; eauto using checked_mul_err].
  rewrite checked_div_fits by done. simpl.
  eauto using checked_add_err.
Qed.

Lemma monotone_updateReward e v s u s1 :
  _updateReward e v s = Ok (u, s1) ->
  rewardPerTokenStored s <= rewardPerTokenStored s1.
Proof.
  intros H. apply _updateReward_spec in H. destruct H.
  eauto using rewardPerToken_ge.
Qed.

Lemma monotone_exec e v op s u s1 :
  exec e v op s = Ok (u, s1) ->
  rewardPerTokenStored s <= rewardPerTokenStored s1.
Proof.
  destruct op; simpl;
    unfold stake, requestUnstake, executeUnstake, exit, withdrawRewards,
      executeUnstake, setEmissionRate, setUnstakeCoolDown, onlyOwner;
    intros H; minv;
    repeat match goal with
    | H : _updateTrackers _ _ _ = Ok _ |- _ =>
        apply _updateTrackers_spec in H; destruct H
    | H : _updateReward _ _ _ = Ok _ |- _ => apply monotone_updateReward in H
    | H : rewardPerToken _ _ = Ok _ |- _ => apply rewardPerToken_ge in H
    end; ssimpl; try lia.
Qed.

Lemma monotone_run_tx e v op s :
  rewardPerTokenStored s <= rewardPerTokenStored (run_tx e v op s).
Proof.
  unfold run_tx. destruct (exec e v op s) as [[u s1]|x] eqn:H; [|lia].
  eauto using monotone_exec.
Qed.

Lemma monotone_run_txs txs s :
  rewardPerTokenStored s <= rewardPerTokenStored (run_txs txs s).
Proof.
  revert s. induction txs as [|tx txs IH]; intros s; simpl; [lia|].
  etransitivity; [apply monotone_run_tx | apply IH].
Qed.

(** C2. In every reachable storage, an operation executed at a current
    time not before [lastUpdateTime] leaves [rewardPerTokenStored] at least
    as large as it was; hence the accumulator never decreases along a
    sequence of operations. *)
Theorem rewardPerTokenStored_non_decreasing :
  forall s : Staker, reachable s ->
    (forall (e : Env) (sender : address) (op : Op),
        lastUpdateTime s <= currentTime e ->
        rewardPerTokenStored s <= rewardPerTokenStored (run_tx e sender op s))
    /\ (forall txs : list Tx,
        rewardPerTokenStored s <= rewardPerTokenStored (run_txs txs s)).
Proof.
  intros s _. split.
  - intros e sender op _. apply monotone_run_tx.
  - intros txs. apply monotone_run_txs.
Qed.

(** * Division by the total stake *)

Lemma safe_ok {A} (a : A) : division_safe (Ok a).
Proof. intros x [=]. Qed.

Lemma safe_rbind {A B} (r : result A) (k : A -> result B) :
  division_safe r -> (forall a, r = Ok a -> division_safe (k a)) ->
  division_safe (rbind r k).
Proof.
  intros Hr Hk x. destruct r as [a|y]; simpl.
  - by apply Hk.
  - intros [= <-]. by apply Hr.
Qed.

Lemma safe_add a b : division_safe (checked_add a b).
Proof. intros x H. by rewrite (checked_add_err _ _ _ H). Qed.

Lemma safe_sub a b : division_safe (checked_sub a b).
Proof. intros x H. by rewrite (checked_sub_err _ _ _ H). Qed.

Lemma safe_mul a b : division_safe (checked_mul a b).
Proof. intros x H. by rewrite (checked_mul_err _ _ _ H). Qed.

Lemma safe_div a b : b <> 0 -> division_safe (checked_div a b).
Proof. intros Hb x. by rewrite checked_div_fits. Qed.

Lemma safe_rewardPerToken e s : division_safe (rewardPerToken e s).
Proof. intros x H. by rewrite (rewardPerToken_err _ _ _ H). Qed.

Lemma safe_getVoterStake v s : division_safe (getVoterStake v s).
Proof. apply safe_add. Qed.

Lemma safe_outstandingRewards e v s :
  division_safe (outstandingRewards e v s).
Proof.
  unfold outstandingRewards.
  repeat first
    [ apply safe_add | apply safe_sub | apply safe_mul
    | apply safe_getVoterStake | apply safe_rewardPerToken
    | apply safe_div; exact SCALE_nonzero
    | apply safe_rbind; [|intros ? _] ].
Qed.

Lemma ndz_ret {A} (a : A) : never_divides_by_zero (ret a).
Proof. intros s x [=]. Qed.

Lemma ndz_gets {A} (f : Staker -> A) : never_divides_by_zero (gets f).
Proof. intros s x [=]. Qed.

Lemma ndz_modify f : never_divides_by_zero (modify f).
Proof. intros s x [=]. Qed.

Lemma ndz_emit ev : never_divides_by_zero (emit ev).
Proof. intros s x [=]. Qed.

Lemma ndz_require c reason : never_divides_by_zero (require c reason).
Proof. intros s x. destruct c; intros [= <-]. discriminate. Qed.

Lemma ndz_call e c : never_divides_by_zero (call e c).
Proof.
  intros s x. unfold call. destruct (votingToken e c); intros [= <-].
  discriminate.
Qed.

Lemma ndz_view {A} (f : Staker -> result A) :
  (forall s, division_safe (f s)) -> never_divides_by_zero (view f).
Proof.
  intros Hf s x. unfold view. destruct (f s) eqn:H; intros [= <-].
  by apply (Hf s).
Qed.

Lemma ndz_bind {A B} (m : M A) (k : A -> M B) :
  never_divides_by_zero m -> (forall a, never_divides_by_zero (k a)) ->
  never_divides_by_zero (bind m k).
Proof.
  intros Hm Hk s x. unfold bind. destruct (m s) as [[a s1]|y] eqn:H.
  - apply Hk.
  - intros [= <-]. by apply (Hm s).
Qed.

Lemma ndz_if {A} (c : bool) (m1 m2 : M A) :
  never_divides_by_zero m1 -> never_divides_by_zero m2 ->
  never_divides_by_zero (if c then m1 else m2).
Proof. by destruct c. Qed.

Ltac ndz :=
  repeat first
    [ apply ndz_ret | apply ndz_gets | apply ndz_modify | apply ndz_emit
    | apply ndz_require | apply ndz_call | assumption
    | apply ndz_if
    | apply ndz_bind; [|intros ?]
    | apply ndz_view; intros ?
    | apply safe_add | apply safe_sub | apply safe_mul
    | apply safe_getVoterStake | apply safe_rewardPerToken
    | apply safe_outstandingRewards
    | apply safe_rbind; [|intros ? _] ].

Lemma ndz_updateReward e v : never_divides_by_zero (_updateReward e v).
Proof. unfold _updateReward. ndz. Qed.

Lemma ndz_updateActiveStake e v :
  never_divides_by_zero (_updateActiveStake e v).
Proof. unfold _updateActiveStake. ndz. Qed.

Lemma ndz_updateTrackers e v : never_divides_by_zero (_updateTrackers e v).
Proof.
  unfold _updateTrackers.
  pose proof (ndz_updateReward e v). pose proof (ndz_updateActiveStake e v).
  ndz.
Qed.

Lemma ndz_exec e v op : never_divides_by_zero (exec e v op).
Proof.
  pose proof (ndz_updateTrackers e v). pose proof (ndz_updateReward e 0).
  destruct op; simpl;
    unfold stake, requestUnstake, executeUnstake, exit, withdrawRewards,
      executeUnstake, setEmissionRate, setUnstakeCoolDown, onlyOwner;
    ndz.
Qed.

(** C3. When the total stake [cumulativeActiveStake +
    cumulativePendingStake] is zero, [rewardPerToken()] returns
    [rewardPerTokenStored] unchanged, whatever the current time and the
    emission rate; and the division by the total stake never has a zero
    divisor: neither [rewardPerToken()] nor any ledger operation ever fails
    with [Panic(0x12)]. *)
Theorem zero_total_stake_freezes_accumulator :
  (forall (e : Env) (s : Staker),
      cumulativeActiveStake s + cumulativePendingStake s = 0 ->
      rewardPerToken e s = Ok (rewardPerTokenStored s))
  /\ (forall (e : Env) (s : Staker),
      rewardPerToken e s <> Err Panic_div_zero)
  /\ (forall (e : Env) (sender : address) (op : Op) (s : Staker),
      exec e sender op s <> Err Panic_div_zero).
Proof.
  split; [|split].
  - apply rewardPerToken_zero_stake.
  - intros e s H. by apply rewardPerToken_err in H.
  - intros e sender op s H. by apply ndz_exec in H.
Qed.

(** ** Running a computation forwards *)

Lemma bind_ret {A B} (a : A) (k : A -> M B) s : bind (ret a) k s = k a s.
Proof. reflexivity. Qed.

Lemma bind_gets {A B} (f : Staker -> A) (k : A -> M B) s :
  bind (gets f) k s = k (f s) s.
Proof. reflexivity. Qed.

Lemma bind_modify {B} f (k : unit -> M B) s :
  bind (modify f) k s = k tt (f s).
Proof. reflexivity. Qed.

Lemma bind_emit {B} ev (k : unit -> M B) s :
  bind (emit ev) k s = k tt (set_trace (Emit (ev s) :: trace s) s).
Proof. reflexivity. Qed.

Lemma bind_view {A B} (f : Staker -> result A) (k : A -> M B) s :
  bind (view f) k s = match f s with Ok a => k a s | Err x => Err x end.
Proof. unfold bind, view. by destruct (f s). Qed.

Lemma bind_require {B} c reason (k : unit -> M B) s :
  bind (require c reason) k s
  = if c then k tt s else Err (Require_failed reason).
Proof. by destruct c. Qed.

Lemma bind_call {B} e c (k : bool -> M B) s :
  bind (call e c) k s
  = match votingToken e c with
    | Reverts => Err External_revert
    | Returns b => k b (set_trace (Call c :: trace s) s)
    end.
Proof. unfold bind, call. by destruct (votingToken e c). Qed.

Lemma bind_bind {A B C} (m : M A) (k1 : A -> M B) (k2 : B -> M C) s :
  bind (bind m k1) k2 s = bind m (fun a => bind (k1 a) k2) s.
Proof. unfold bind. by destruct (m s) as [[a s1]|x]. Qed.

Lemma bind_if {A B} (c : bool) (m1 m2 : M A) (k : A -> M B) s :
  bind (if c then m1 else m2) k s = if c then bind m1 k s else bind m2 k s.
Proof. by destruct c. Qed.

Lemma bind_ran {A B} (m : M A) (k : A -> M B) s a s1 :
  m s = Ok (a, s1) -> bind m k s = k a s1.
Proof. intros H. unfold bind. by rewrite H. Qed.

Lemma bind_failed {A B} (m : M A) (k : A -> M B) s x :
  m s = Err x -> bind m k s = Err x.
Proof. intros H. unfold bind. by rewrite H. Qed.

Lemma emit_run ev s : emit ev s = Ok (tt, set_trace (Emit (ev s) :: trace s) s).
Proof. reflexivity. Qed.

Lemma ret_run {A} (a : A) s : ret a s = Ok (a, s).
Proof. reflexivity. Qed.

Lemma modify_run f s : modify f s = Ok (tt, f s).
Proof. reflexivity. Qed.

Create Rewrite HintDb mrun.
#[global] Hint Rewrite @bind_bind @bind_ret @bind_gets @bind_modify @bind_emit
  @bind_view @bind_require @bind_call @bind_if @emit_run @ret_run modify_run
  : mrun.

Ltac mrun :=
  repeat (progress (autorewrite with mrun; cbv beta;
                    autorewrite with staker;
                    cbn [VoterStake.activeStake VoterStake.pendingUnstake
                         VoterStake.pendingStake VoterStake.rewardsPaidPerToken
                         VoterStake.outstandingRewards
                         VoterStake.unstakeRequestTime
                         VoterStake.lastRequestIndexConsidered
                         VoterStake.delegate
                         VoterStake.set_activeStake VoterStake.set_pendingUnstake
                         VoterStake.set_pendingStake
                         VoterStake.set_rewardsPaidPerToken
                         VoterStake.set_outstandingRewards
                         VoterStake.set_unstakeRequestTime
                         VoterStake.set_lastRequestIndexConsidered
                         emissionRate cumulativeActiveStake
                         cumulativePendingStake rewardPerTokenStored
                         lastUpdateTime unstakeCoolDown voterStakes
                         delegateToStaker owner trace
                         set_emissionRate set_cumulativeActiveStake
                         set_cumulativePendingStake set_rewardPerTokenStored
                         set_lastUpdateTime set_unstakeCoolDown
                         set_voterStakes set_trace
                         negb rbind])).

(** * Requesting an unstake *)

Lemma active_le_cumulative s v :
  ledger_invariant s ->
  VoterStake.activeStake (voterStake s v) <= cumulativeActiveStake s.
Proof.
  intros [-> _]. by apply (sum_of_ge VoterStake.activeStake).
Qed.

Lemma requestUnstake_in_reveal e v amount s :
  inActiveReveal e = true ->
  requestUnstake e v amount s
  = Err (Require_failed "In an active reveal phase").
Proof. intros Hr. unfold requestUnstake. mrun. rewrite Hr. reflexivity. Qed.

Lemma requestUnstake_unsettled e v amount s x :
  inActiveReveal e = false ->
  _updateTrackers e v s = Err x -> requestUnstake e v amount s = Err x.
Proof.
  intros Hr Ht. unfold requestUnstake. mrun. rewrite Hr. mrun.
  by rewrite (bind_failed _ _ _ _ Ht).
Qed.

Lemma requestUnstake_settled e v amount s s1 :
  inActiveReveal e = false ->
  _updateTrackers e v s = Ok (tt, s1) ->
  VoterStake.activeStake (voterStake s1 v) <= cumulativeActiveStake s1 ->
  requestUnstake e v amount s =
    if amount <=? VoterStake.activeStake (voterStake s1 v) then
      if VoterStake.pendingUnstake (voterStake s1 v) =? 0
      then Ok (tt, unstake_requested e v amount s1)
      else Err (Require_failed "Have previous request unstake")
    else Err (Require_failed "Bad request amount").
Proof.
  intros Hr Ht Hc. unfold requestUnstake. mrun. rewrite Hr. mrun.
  rewrite (bind_ran _ _ _ _ _ Ht). mrun.
  destruct (N.leb_spec amount (VoterStake.activeStake (voterStake s1 v)));
    [|reflexivity].
  destruct (_ =? 0); [|reflexivity].
  rewrite checked_sub_fits by lia. mrun.
  rewrite checked_sub_fits by done. mrun.
  reflexivity.
Qed.

Lemma is_err_Err {A} (x : error) : is_err (@Err A x).
Proof. exact I. Qed.

Lemma is_err_inv {A} (r : result A) : is_err r -> exists x, r = Err x.
Proof. destruct r; [done | eauto]. Qed.

(** C4 (amended). In a reachable storage [requestUnstake(amount)] fails
    exactly when the system is in the reveal phase, or the settlement
    [_updateTrackers] itself reverts (a checked-arithmetic panic), or
    [amount] exceeds the voter's [activeStake] after settlement and
    promotion, or the voter's [pendingUnstake] is nonzero.  When it succeeds
    it moves [amount] from the settled [activeStake] to [pendingUnstake],
    takes [amount] off [cumulativeActiveStake], stamps
    [unstakeRequestTime] with the current time, and leaves the settled
    [pendingStake], [cumulativePendingStake] and every other voter as
    they are. *)
Theorem requestUnstake_fails_iff :
  forall (s : Staker) (e : Env) (sender : address) (amount : uint256),
    reachable s ->
    (is_err (requestUnstake e sender amount s) <->
       inActiveReveal e = true
       \/ is_err (_updateTrackers e sender s)
       \/ exists s1, _updateTrackers e sender s = Ok (tt, s1) /\
            (VoterStake.activeStake (voterStake s1 sender) < amount
             \/ VoterStake.pendingUnstake (voterStake s1 sender) <> 0))
    /\ (forall s2, requestUnstake e sender amount s = Ok (tt, s2) ->
        exists s1,
          _updateTrackers e sender s = Ok (tt, s1)
          /\ trackers_updated e sender s s1
          /\ amount <= VoterStake.activeStake (voterStake s1 sender)
          /\ VoterStake.activeStake (voterStake s2 sender)
             = VoterStake.activeStake (voterStake s1 sender) - amount
          /\ VoterStake.pendingUnstake (voterStake s2 sender) = amount
          /\ cumulativeActiveStake s2 = cumulativeActiveStake s1 - amount
          /\ VoterStake.unstakeRequestTime (voterStake s2 sender)
             = currentTime e
          /\ VoterStake.pendingStake (voterStake s2 sender)
             = VoterStake.pendingStake (voterStake s1 sender)
          /\ cumulativePendingStake s2 = cumulativePendingStake s1
          /\ (forall w, w <> sender -> voterStake s2 w = voterStake s1 w)
          /\ token_calls (trace s2) = token_calls (trace s1)).
Proof.
  intros s e v amount Hs. apply invariant_reachable in Hs.
  destruct (inActiveReveal e) eqn:Hr.
  { rewrite (requestUnstake_in_reveal _ _ _ _ Hr). split.
    - split; [auto | intros _; exact I].
    - intros s2 [=]. }
  destruct (_updateTrackers e v s) as [[[] s1]|x] eqn:Ht.
  2:{ rewrite (requestUnstake_unsettled _ _ _ _ _ Hr Ht). split.
      - split; [intros _; right; left; exact I | intros _; exact I].
      - intros s2 [=]. }
  pose proof (invariant_updateTrackers _ _ _ _ _ Ht Hs) as Hs1.
  pose proof (active_le_cumulative s1 v Hs1) as Hle.
  rewrite (requestUnstake_settled _ _ _ _ _ Hr Ht Hle).
  destruct (N.leb_spec amount (VoterStake.activeStake (voterStake s1 v)))
    as [Ha|Ha].
  2:{ split.
      - split; [intros _; right; right; eauto | intros _; exact I].
      - intros s2 [=]. }
  destruct (N.eqb_spec (VoterStake.pendingUnstake (voterStake s1 v)) 0)
    as [Hp|Hp].
  - split.
    + split; [intros [] | intros [[=]|[[]|(s1' & [= <-] & [?|?])]]; lia].
    + intros s2 [= <-]. exists s1. unfold unstake_requested.
      split; [done|]. split; [by apply _updateTrackers_spec in Ht|].
      repeat split; ssimpl; try done.
      intros w Hw. by autorewrite with staker.
  - split.
    + split; [intros _; right; right; eauto | intros _; exact I].
    + intros s2 [=].
Qed.

Lemma reachable_constructor r c d : reachable (constructor r c d).
Proof. by exists r, c, d, []. Qed.

Lemma reachable_run_txs txs s : reachable s -> reachable (run_txs txs s).
Proof.
  intros (r & c & d & txs0 & ->). exists r, c, d, (txs0 ++ txs).
  unfold run_txs. by rewrite fold_left_app.
Qed.

Lemma reachable_overflowing_ledger : reachable overflowing_ledger.
Proof. apply reachable_run_txs, reachable_constructor. Qed.

(** C4, as stated, fails: with an emission rate of [2^200], one elapsed
    second makes the accrual [1 * 2^200 * 1e18] overflow, so the settlement
    inside [requestUnstake(1)] panics although the system is outside the
    reveal phase, the voter's active stake covers the amount and no
    unstake request is pending. *)
Lemma requestUnstake_fails_outside_claimed_conditions :
  reachable overflowing_ledger
  /\ requestUnstake (at_time 1 false) 1 1 overflowing_ledger = Err Panic_overflow
  /\ ~ (is_err (requestUnstake (at_time 1 false) 1 1 overflowing_ledger) <->
        inActiveReveal (at_time 1 false) = true
        \/ VoterStake.activeStake (voterStake overflowing_ledger 1)
           + promoted (at_time 1 false) overflowing_ledger 1 < 1
        \/ VoterStake.pendingUnstake (voterStake overflowing_ledger 1) <> 0).
Proof.
  split; [apply reachable_overflowing_ledger|].
  assert (H : requestUnstake (at_time 1 false) 1 1 overflowing_ledger
              = Err Panic_overflow) by (vm_compute; reflexivity).
  assert (Ha : VoterStake.activeStake (voterStake overflowing_ledger 1)
               + promoted (at_time 1 false) overflowing_ledger 1 = 1)
    by (vm_compute; reflexivity).
  assert (Hp : VoterStake.pendingUnstake (voterStake overflowing_ledger 1) = 0)
    by (vm_compute; reflexivity).
  split; [exact H|]. rewrite H, Ha, Hp. intros [Hf _].
  destruct (Hf I) as [Hr|[Hlt|Hne]].
  - discriminate Hr.
  - exact (N.lt_irrefl 1 Hlt).
  - exact (Hne eq_refl).
Qed.

(** The scenario of the specification: a voter with an active stake of
    [100] requests an unstake of [50]; a second request before execution
    fails. *)
Example requestUnstake_fifty_of_hundred :
  VoterStake.activeStake (voterStake requested_ledger 1) = 50
  /\ VoterStake.pendingUnstake (voterStake requested_ledger 1) = 50
  /\ cumulativeActiveStake staked_ledger = 100
  /\ cumulativeActiveStake requested_ledger = 50
  /\ requestUnstake (at_time 9 false) 1 10 requested_ledger
     = Err (Require_failed "Have previous request unstake").
Proof. repeat split; vm_compute; reflexivity. Qed.

Lemma requestUnstake_fails_iff_witness :
  reachable staked_ledger
  /\ is_err (requestUnstake (at_time 8 false) 1 200 staked_ledger).
Proof.
  assert (H : reachable staked_ledger).
  { exists 1, 10, 7, [mkTx (at_time 5 false) 1 (OpStake 100)]. reflexivity. }
  split; [exact H|].
  destruct (requestUnstake_fails_iff staked_ledger (at_time 8 false) 1 200 H)
    as [[_ Hfails] _].
  apply Hfails. right; right.
  exists (match _updateTrackers (at_time 8 false) 1 staked_ledger with
          | Ok (_, s1) => s1
          | Err _ => staked_ledger
          end).
  split; [vm_compute; reflexivity|].
  left. vm_compute. reflexivity.
Defined.

Lemma rewardPerTokenStored_non_decreasing_witness :
  reachable staked_ledger
  /\ lastUpdateTime staked_ledger <= currentTime (at_time 8 false)
  /\ rewardPerTokenStored staked_ledger
     <= rewardPerTokenStored
          (run_tx (at_time 8 false) 1 OpWithdrawRewards staked_ledger).
Proof.
  assert (H : reachable staked_ledger).
  { exists 1, 10, 7, [mkTx (at_time 5 false) 1 (OpStake 100)]. reflexivity. }
  assert (Ht : lastUpdateTime staked_ledger <= currentTime (at_time 8 false)).
  { vm_compute. discriminate. }
  split; [exact H|]. split; [exact Ht|].
  exact (proj1 (rewardPerTokenStored_non_decreasing staked_ledger H)
           (at_time 8 false) 1 OpWithdrawRewards Ht).
Defined.

Lemma zero_total_stake_freezes_accumulator_witness :
  cumulativeActiveStake (constructor 1 10 7)
  + cumulativePendingStake (constructor 1 10 7) = 0
  /\ rewardPerToken (at_time 8 false) (constructor 1 10 7)
     = Ok (rewardPerTokenStored (constructor 1 10 7)).
Proof.
  assert (H : cumulativeActiveStake (constructor 1 10 7)
              + cumulativePendingStake (constructor 1 10 7) = 0)
    by reflexivity.
  split; [exact H|].
  exact (proj1 zero_total_stake_freezes_accumulator
           (at_time 8 false) (constructor 1 10 7) H).
Defined.

(** * Executing an unstake *)

Lemma executeUnstake_unsettled e v s x :
  _updateTrackers e v s = Err x -> executeUnstake e v s = Err x.
Proof.
  intros Ht. unfold executeUnstake. by rewrite (bind_failed _ _ _ _ Ht).
Qed.

Lemma executeUnstake_settled e v s s1 :
  _updateTrackers e v s = Ok (tt, s1) ->
  executeUnstake e v s =
    let requestTime := VoterStake.unstakeRequestTime (voterStake s1 v) in
    let tokensToSend := VoterStake.pendingUnstake (voterStake s1 v) in
    if requestTime =? 0 then Err (Require_failed "Unstake time not passed")
    else
      match checked_add requestTime (unstakeCoolDown s1) with
      | Err x => Err x
      | Ok releaseTime =>
          if releaseTime <=? currentTime e then
            if 0 <? tokensToSend then
              match votingToken e (Transfer v tokensToSend) with
              | Reverts => Err External_revert
              | Returns _ => Ok (tt, unstake_executed e v s1)
              end
            else Ok (tt, unstake_executed e v s1)
          else Err (Require_failed "Unstake time not passed")
      end.
Proof.
  intros Ht. unfold executeUnstake, unstake_executed.
  rewrite (bind_ran _ _ _ _ _ Ht). mrun.
  destruct (_ =? 0); mrun; [reflexivity|].
  destruct (checked_add _ _) as [release|x]; [|reflexivity].
  mrun. destruct (release <=? currentTime e); [|reflexivity].
  destruct (0 <? _); mrun; [|reflexivity].
  destruct (votingToken e _); mrun; reflexivity.
Qed.

Lemma executeUnstake_needs_cooldown e v s :
  ~ cooldown_elapsed e v s -> is_err (executeUnstake e v s).
Proof.
  intros Hc. destruct (_updateTrackers e v s) as [[[] s1]|x] eqn:Ht.
  2:{ by rewrite (executeUnstake_unsettled _ _ _ _ Ht). }
  rewrite (executeUnstake_settled _ _ _ _ Ht). cbv zeta.
  apply _updateTrackers_spec in Ht. destruct Ht.
  rewrite tu_unstakeRequestTime0, tu_cooldown0.
  destruct (N.eqb_spec (VoterStake.unstakeRequestTime (voterStake s v)) 0)
    as [Hz|Hz]; [exact I|].
  destruct (checked_add _ _) as [release|x] eqn:Ha; [|exact I].
  apply checked_add_ok in Ha as [_ ->].
  destruct (N.leb_spec
    (VoterStake.unstakeRequestTime (voterStake s v) + unstakeCoolDown s)
    (currentTime e)); [|exact I].
  exfalso. apply Hc. by split.
Qed.

Lemma requestUnstake_stamps e v amount s s2 :
  requestUnstake e v amount s = Ok (tt, s2) ->
  VoterStake.unstakeRequestTime (voterStake s2 v) = currentTime e
  /\ VoterStake.pendingUnstake (voterStake s2 v) = amount.
Proof. unfold requestUnstake. intros H. minv. by ssimpl. Qed.

Lemma executeUnstake_effect e v s s2 :
  executeUnstake e v s = Ok (tt, s2) ->
  exists s1, _updateTrackers e v s = Ok (tt, s1)
             /\ s2 = unstake_executed e v s1.
Proof.
  intros H. destruct (_updateTrackers e v s) as [[[] s1]|x] eqn:Ht.
  2:{ by rewrite (executeUnstake_unsettled _ _ _ _ Ht) in H. }
  exists s1. split; [done|].
  rewrite (executeUnstake_settled _ _ _ _ Ht) in H. cbv zeta in H.
  destruct (_ =? 0); [done|].
  destruct (checked_add _ _); [|done].
  destruct (_ <=? _); [|done].
  destruct (0 <? _); [destruct (votingToken e _); [done|] |]; congruence.
Qed.

(** C5 (amended). [executeUnstake()] reverts (no state change; it has no
    return value) unless [unstakeRequestTime != 0] and the current time is
    at least [unstakeRequestTime + unstakeCoolDown].  When that holds, the
    settlement succeeds and the token does not revert the transfer, it
    succeeds.  A successful call with [pendingUnstake > 0] transfers
    [pendingUnstake] to the caller and zeroes both [pendingUnstake] and
    [unstakeRequestTime], so that any further call reverts; a successful
    call with [pendingUnstake = 0] transfers nothing and leaves
    [unstakeRequestTime] as it is.  After a [requestUnstake], a call before
    the cooldown has elapsed reverts. *)
Theorem executeUnstake_after_cooldown :
  forall (s : Staker) (e : Env) (sender : address),
    (~ cooldown_elapsed e sender s -> is_err (executeUnstake e sender s))
    /\ (forall s1,
         _updateTrackers e sender s = Ok (tt, s1) ->
         cooldown_elapsed e sender s ->
         currentTime e <= MAX_UINT256 ->
         (VoterStake.pendingUnstake (voterStake s sender) = 0 \/
          votingToken e
            (Transfer sender (VoterStake.pendingUnstake (voterStake s sender)))
          <> Reverts) ->
         executeUnstake e sender s = Ok (tt, unstake_executed e sender s1))
    /\ (forall s2,
         executeUnstake e sender s = Ok (tt, s2) ->
         cooldown_elapsed e sender s
         /\ VoterStake.pendingUnstake (voterStake s2 sender) = 0
         /\ (0 < VoterStake.pendingUnstake (voterStake s sender) ->
             token_calls (trace s2)
             = Transfer sender (VoterStake.pendingUnstake (voterStake s sender))
               :: token_calls (trace s)
             /\ VoterStake.unstakeRequestTime (voterStake s2 sender) = 0
             /\ forall e', is_err (executeUnstake e' sender s2))
         /\ (VoterStake.pendingUnstake (voterStake s sender) = 0 ->
             token_calls (trace s2) = token_calls (trace s)
             /\ VoterStake.unstakeRequestTime (voterStake s2 sender)
                = VoterStake.unstakeRequestTime (voterStake s sender)))
    /\ (forall e0 amount s0,
         requestUnstake e0 sender amount s0 = Ok (tt, s) ->
         currentTime e < currentTime e0 + unstakeCoolDown s ->
         is_err (executeUnstake e sender s)).
Proof.
  intros s e v. split; [apply executeUnstake_needs_cooldown|].
  split; [|split].
  - intros s1 Ht [Hnz Hel] Hnow Htok.
    rewrite (executeUnstake_settled _ _ _ _ Ht). cbv zeta.
    apply _updateTrackers_spec in Ht. destruct Ht.
    rewrite tu_unstakeRequestTime0, tu_cooldown0, tu_pendingUnstake0.
    destruct (N.eqb_spec (VoterStake.unstakeRequestTime (voterStake s v)) 0);
      [done|].
    rewrite checked_add_fits by lia.
    destruct (N.leb_spec
      (VoterStake.unstakeRequestTime (voterStake s v) + unstakeCoolDown s)
      (currentTime e)); [|lia].
    destruct (N.ltb_spec 0 (VoterStake.pendingUnstake (voterStake s v)));
      [|done].
    destruct Htok as [Hz|Hrev]; [lia|].
    by destruct (votingToken e _).
  - intros s2 H.
    split.
    { destruct (decide (cooldown_elapsed e v s)) as [|Hn]; [done|].
      apply executeUnstake_needs_cooldown in Hn. by rewrite H in Hn. }
    apply executeUnstake_effect in H as (s1 & Ht & ->).
    apply _updateTrackers_spec in Ht. destruct Ht.
    unfold unstake_executed. rewrite tu_pendingUnstake0.
    destruct (N.ltb_spec 0 (VoterStake.pendingUnstake (voterStake s v)))
      as [Hpos|Hzero]; ssimpl.
    + split; [done|]. split; [|intros; lia].
      intros _. split; [by rewrite tu_calls0|]. split; [done|].
      intros e'. apply executeUnstake_needs_cooldown.
      intros [Hnz _]. apply Hnz. by ssimpl.
    + split; [lia|]. split; [intros; lia|]. intros _.
      split; [done|]. done.
  - intros e0 amount s0 Hreq Hlt.
    apply requestUnstake_stamps in Hreq as [Hstamp _].
    apply executeUnstake_needs_cooldown. intros [_ Hel]. lia.
Qed.

(** C5, as stated, fails: after a [requestUnstake(0)] the precondition
    of [executeUnstake()] holds once the cooldown has elapsed, yet the call
    leaves [unstakeRequestTime] stamped, and calling it again succeeds
    again. *)
Lemma executeUnstake_keeps_zero_request_stamped :
  reachable zero_request_ledger
  /\ cooldown_elapsed (at_time 20 false) 1 zero_request_ledger
  /\ executeUnstake (at_time 20 false) 1 zero_request_ledger
     = Ok (tt, run_tx (at_time 20 false) 1 OpExecuteUnstake zero_request_ledger)
  /\ VoterStake.unstakeRequestTime
       (voterStake
          (run_tx (at_time 20 false) 1 OpExecuteUnstake zero_request_ledger) 1)
     = 6
  /\ ~ is_err (executeUnstake (at_time 20 false) 1
                 (run_tx (at_time 20 false) 1 OpExecuteUnstake
                    zero_request_ledger)).
Proof.
  split; [apply reachable_run_txs, reachable_constructor|].
  split.
  { assert (Hrt : VoterStake.unstakeRequestTime
                    (voterStake zero_request_ledger 1) = 6)
      by (vm_compute; reflexivity).
    assert (Hcd : unstakeCoolDown zero_request_ledger = 10)
      by (vm_compute; reflexivity).
    unfold cooldown_elapsed. rewrite Hrt, Hcd. split; [discriminate|].
    change (16 <= 20). discriminate. }
  split; [vm_compute; reflexivity|].
  split; [vm_compute; reflexivity|].
  assert (H : exists s3,
    executeUnstake (at_time 20 false) 1
      (run_tx (at_time 20 false) 1 OpExecuteUnstake zero_request_ledger)
    = Ok (tt, s3)).
  { eexists. vm_compute. reflexivity. }
  destruct H as (s3 & ->). exact id.
Qed.

Lemma executeUnstake_after_cooldown_witness :
  ~ cooldown_elapsed (at_time 12 false) 1 requested_ledger
  /\ is_err (executeUnstake (at_time 12 false) 1 requested_ledger).
Proof.
  assert (H : ~ cooldown_elapsed (at_time 12 false) 1 requested_ledger).
  { assert (Hrt : VoterStake.unstakeRequestTime
                    (voterStake requested_ledger 1) = 8)
      by (vm_compute; reflexivity).
    assert (Hcd : unstakeCoolDown requested_ledger = 10)
      by (vm_compute; reflexivity).
    unfold cooldown_elapsed. rewrite Hrt, Hcd. intros [_ Hle].
    apply Hle. reflexivity. }
  split; [exact H|].
  exact (proj1 (executeUnstake_after_cooldown requested_ledger
                  (at_time 12 false) 1) H).
Defined.

(** * Exit *)

Lemma exit_runs e v s s2 :
  exit e v s = Ok (tt, s2) <->
  exists s1 r, executeUnstake e v s = Ok (tt, s1)
               /\ withdrawRewards e v s1 = Ok (r, s2).
Proof.
  unfold exit. split.
  - intros H. apply bind_ok in H as ([] & s1 & H1 & H).
    apply bind_ok in H as (r & s2' & H2 & H).
    apply ret_ok in H as [_ ->]. eauto.
  - intros (s1 & r & H1 & H2).
    rewrite (bind_ran _ _ _ _ _ H1), (bind_ran _ _ _ _ _ H2). reflexivity.
Qed.

(** C6 (amended). [exit()] is [executeUnstake()] followed by
    [withdrawRewards()] inside one atomic call: it succeeds exactly when
    [executeUnstake] succeeds and [withdrawRewards] then succeeds on the
    storage it leaves; a revert of either part reverts the whole call.  In
    particular, when the unstake cooldown condition is unmet, [exit()]
    reverts, the storage is unchanged and no reward is withdrawn. *)
Theorem exit_is_all_or_nothing :
  forall (s : Staker) (e : Env) (sender : address),
    (~ cooldown_elapsed e sender s ->
       is_err (exit e sender s) /\ run_tx e sender OpExit s = s)
    /\ (forall s2,
         exit e sender s = Ok (tt, s2) <->
         exists s1 r, executeUnstake e sender s = Ok (tt, s1)
                      /\ withdrawRewards e sender s1 = Ok (r, s2))
    /\ (forall x, executeUnstake e sender s = Err x ->
                  exit e sender s = Err x)
    /\ (forall s1 x,
         executeUnstake e sender s = Ok (tt, s1) ->
         withdrawRewards e sender s1 = Err x ->
         exit e sender s = Err x).
Proof.
  intros s e v. split; [|split; [|split]].
  - intros Hc. apply executeUnstake_needs_cooldown in Hc.
    apply is_err_inv in Hc as (x & Hx).
    assert (Hexit : exit e v s = Err x)
      by (unfold exit; by rewrite (bind_failed _ _ _ _ Hx)).
    split; [by rewrite Hexit|].
    unfold run_tx. simpl. by rewrite Hexit.
  - apply exit_runs.
  - intros x Hx. unfold exit. by rewrite (bind_failed _ _ _ _ Hx).
  - intros s1 x H1 H2. unfold exit.
    rewrite (bind_ran _ _ _ _ _ H1). by rewrite (bind_failed _ _ _ _ H2).
Qed.

(** C6, as stated, fails: voter [1] is owed [15] tokens at time [20] and
    [withdrawRewards()] alone pays them, but has no unstake request, so
    [exit()] reverts and withdraws nothing. *)
Lemma exit_reverts_without_withdrawing :
  reachable staked_ledger
  /\ ~ cooldown_elapsed (at_time 20 false) 1 staked_ledger
  /\ (exists s', withdrawRewards (at_time 20 false) 1 staked_ledger
                 = Ok (15, s'))
  /\ exit (at_time 20 false) 1 staked_ledger
     = Err (Require_failed "Unstake time not passed")
  /\ run_tx (at_time 20 false) 1 OpExit staked_ledger = staked_ledger.
Proof.
  split; [apply reachable_run_txs, reachable_constructor|].
  split.
  { assert (Hrt : VoterStake.unstakeRequestTime (voterStake staked_ledger 1)
                  = 0) by (vm_compute; reflexivity).
    unfold cooldown_elapsed. rewrite Hrt. intros [Hnz _]. by apply Hnz. }
  split; [eexists; vm_compute; reflexivity|].
  assert (H : exit (at_time 20 false) 1 staked_ledger
              = Err (Require_failed "Unstake time not passed"))
    by (vm_compute; reflexivity).
  split; [exact H|]. unfold run_tx. simpl exec. by rewrite H.
Qed.

Lemma exit_is_all_or_nothing_witness :
  ~ cooldown_elapsed (at_time 12 false) 1 requested_ledger
  /\ is_err (exit (at_time 12 false) 1 requested_ledger).
Proof.
  assert (H : ~ cooldown_elapsed (at_time 12 false) 1 requested_ledger).
  { assert (Hrt : VoterStake.unstakeRequestTime
                    (voterStake requested_ledger 1) = 8)
      by (vm_compute; reflexivity).
    assert (Hcd : unstakeCoolDown requested_ledger = 10)
      by (vm_compute; reflexivity).
    unfold cooldown_elapsed. rewrite Hrt, Hcd. intros [_ Hle].
    apply Hle. reflexivity. }
  split; [exact H|].
  exact (proj1 (proj1 (exit_is_all_or_nothing requested_ledger
                         (at_time 12 false) 1) H)).
Defined.

(** * Settlement succeeds *)

Lemma getCumulativeStake_of_rewardPerToken e s rpt :
  rewardPerToken e s = Ok rpt ->
  cumulativeActiveStake s + cumulativePendingStake s <= MAX_UINT256.
Proof.
  unfold rewardPerToken, getCumulativeStake. intros H.
  apply rbind_ok in H as (total & Ht & _).
  by apply checked_add_ok in Ht as [? _].
Qed.

Lemma rewardPerToken_again e s s' rpt :
  rewardPerToken e s = Ok rpt ->
  rewardPerTokenStored s' = rpt ->
  lastUpdateTime s' = currentTime e ->
  cumulativeActiveStake s' + cumulativePendingStake s'
  = cumulativeActiveStake s + cumulativePendingStake s ->
  rewardPerToken e s' = Ok rpt.
Proof.
  intros H Hstored Htime Hsum.
  pose proof (getCumulativeStake_of_rewardPerToken _ _ _ H) as Hfits.
  assert (Hg : getCumulativeStake s'
               = Ok (cumulativeActiveStake s + cumulativePendingStake s)).
  { unfold getCumulativeStake. rewrite <- Hsum. apply checked_add_fits. lia. }
  unfold rewardPerToken in *. rewrite Hg. cbn [rbind].
  unfold getCumulativeStake in H. rewrite checked_add_fits in H by done.
  cbn [rbind] in H.
  destruct (N.eqb_spec (cumulativeActiveStake s + cumulativePendingStake s) 0)
    as [Hz|Hz]; [congruence|].
  rewrite Htime, checked_sub_diag. cbn [rbind]. rewrite checked_mul_0_l.
  cbn [rbind]. rewrite checked_mul_0_l. cbn [rbind].
  rewrite checked_div_0_l by done. cbn [rbind].
  rewrite Hstored. apply checked_add_0_r. minv. lia.
Qed.

Lemma _updateReward_runs e v s rpt :
  rewardPerToken e s = Ok rpt ->
  (v <> 0 -> exists owed, outstandingRewards e v s = Ok owed) ->
  exists s1, _updateReward e v s = Ok (tt, s1).
Proof.
  intros Hrpt Howed. unfold _updateReward.
  destruct (N.eqb_spec v 0) as [Hz|Hz].
  - eexists. mrun. rewrite Hrpt. mrun. reflexivity.
  - destruct (Howed Hz) as (owed & Ho).
    eexists. mrun. rewrite Hrpt. mrun.
    rewrite (outstandingRewards_settled _ _ _ _ Hrpt), Ho. mrun.
    reflexivity.
Qed.

Lemma _updateActiveStake_runs e v s :
  ledger_invariant s ->
  cumulativeActiveStake s + cumulativePendingStake s <= MAX_UINT256 ->
  exists s1, _updateActiveStake e v s = Ok (tt, s1).
Proof.
  intros [Ha Hp] Hfits. unfold _updateActiveStake.
  destruct (inActiveReveal e); [by eexists|].
  pose proof (sum_of_ge VoterStake.activeStake s v eq_refl).
  pose proof (sum_of_ge VoterStake.pendingStake s v eq_refl).
  eexists. mrun.
  rewrite (checked_add_fits (cumulativeActiveStake s)
             (VoterStake.pendingStake (voterStake s v))) by lia.
  mrun.
  rewrite (checked_sub_fits (cumulativePendingStake s)
             (VoterStake.pendingStake (voterStake s v))) by lia.
  mrun.
  rewrite (checked_add_fits (VoterStake.activeStake (voterStake s v))
             (VoterStake.pendingStake (voterStake s v))) by lia.
  mrun. reflexivity.
Qed.

Lemma _updateTrackers_runs e v s rpt :
  ledger_invariant s ->
  rewardPerToken e s = Ok rpt ->
  (v <> 0 -> exists owed, outstandingRewards e v s = Ok owed) ->
  exists s1, _updateTrackers e v s = Ok (tt, s1).
Proof.
  intros Hs Hrpt Howed.
  destruct (_updateReward_runs e v s rpt Hrpt Howed) as (s' & HR).
  pose proof (invariant_updateReward _ _ _ _ _ HR Hs) as Hs'.
  pose proof (_updateReward_spec _ _ _ _ _ HR) as R. destruct R.
  destruct (_updateActiveStake_runs e v s' Hs') as (s1 & HA).
  { rewrite ru_active0, ru_pending0.
    eauto using getCumulativeStake_of_rewardPerToken. }
  exists s1. unfold _updateTrackers. by rewrite (bind_ran _ _ _ _ _ HR).
Qed.

(** * Withdrawing rewards *)

Lemma withdrawRewards_unsettled e v s x :
  _updateTrackers e v s = Err x -> withdrawRewards e v s = Err x.
Proof.
  intros Ht. unfold withdrawRewards. by rewrite (bind_failed _ _ _ _ Ht).
Qed.

Lemma withdrawRewards_settled e v s s1 :
  _updateTrackers e v s = Ok (tt, s1) ->
  withdrawRewards e v s =
    let tokensToMint := VoterStake.outstandingRewards (voterStake s1 v) in
    if 0 <? tokensToMint then
      match votingToken e (Mint v tokensToMint) with
      | Reverts => Err External_revert
      | Returns true => Ok (tokensToMint, rewards_withdrawn v s1)
      | Returns false => Err (Require_failed "Voting token issuance failed")
      end
    else Ok (tokensToMint, rewards_withdrawn v s1).
Proof.
  intros Ht. unfold withdrawRewards, rewards_withdrawn.
  rewrite (bind_ran _ _ _ _ _ Ht). mrun.
  destruct (0 <? _); mrun; [|reflexivity].
  destruct (votingToken e _) as [|[]]; mrun; reflexivity.
Qed.

Lemma withdrawRewards_effect e v s r s2 :
  withdrawRewards e v s = Ok (r, s2) ->
  exists s1, _updateTrackers e v s = Ok (tt, s1)
             /\ s2 = rewards_withdrawn v s1.
Proof.
  intros H. destruct (_updateTrackers e v s) as [[[] s1]|x] eqn:Ht.
  2:{ by rewrite (withdrawRewards_unsettled _ _ _ _ Ht) in H. }
  exists s1. split; [done|].
  rewrite (withdrawRewards_settled _ _ _ _ Ht) in H. cbv zeta in H.
  destruct (0 <? _); [destruct (votingToken e _) as [|[]]|]; congruence.
Qed.

Lemma withdrawRewards_returns_settled e v s r s2 :
  v <> 0 -> withdrawRewards e v s = Ok (r, s2) ->
  outstandingRewards e v s = Ok r.
Proof.
  intros Hv H. destruct (_updateTrackers e v s) as [[[] s1]|x] eqn:Ht.
  2:{ by rewrite (withdrawRewards_unsettled _ _ _ _ Ht) in H. }
  rewrite (withdrawRewards_settled _ _ _ _ Ht) in H. cbv zeta in H.
  apply _updateTrackers_spec in Ht. destruct Ht.
  destruct (tu_settled0 Hv) as [_ ->].
  destruct (0 <? _); [destruct (votingToken e _) as [|[]]|]; congruence.
Qed.

Lemma rewardPerToken_of_outstandingRewards e v s r :
  outstandingRewards e v s = Ok r ->
  exists rpt, rewardPerToken e s = Ok rpt
    /\ VoterStake.activeStake (voterStake s v)
       + VoterStake.pendingStake (voterStake s v) <= MAX_UINT256.
Proof.
  unfold outstandingRewards, getVoterStake. intros H.
  apply rbind_ok in H as (staked & Hst & H).
  apply rbind_ok in H as (rpt & Hrpt & _).
  apply checked_add_ok in Hst as [? _]. eauto.
Qed.

(** Settled rewards stay settled while the clock stands still. *)
Lemma outstandingRewards_nothing_new e v s :
  rewardPerToken e s = Ok (VoterStake.rewardsPaidPerToken (voterStake s v)) ->
  VoterStake.activeStake (voterStake s v)
  + VoterStake.pendingStake (voterStake s v) <= MAX_UINT256 ->
  VoterStake.outstandingRewards (voterStake s v) <= MAX_UINT256 ->
  outstandingRewards e v s
  = Ok (VoterStake.outstandingRewards (voterStake s v)).
Proof.
  intros Hrpt Hst Ho. unfold outstandingRewards, getVoterStake.
  rewrite checked_add_fits by done. cbn [rbind]. rewrite Hrpt. cbn [rbind].
  rewrite checked_sub_diag. cbn [rbind]. rewrite checked_mul_0_r.
  cbn [rbind]. rewrite checked_div_0_l by apply SCALE_nonzero. cbn [rbind].
  by apply checked_add_0_l.
Qed.

(** The second of two calls in immediate succession: in a storage whose
    trackers were just updated for [v] at the current time and whose
    rewards were paid out, nothing is owed. *)
Lemma withdrawRewards_again e v s s1 :
  v <> 0 ->
  ledger_invariant s ->
  _updateTrackers e v s = Ok (tt, s1) ->
  exists s2,
    withdrawRewards e v (rewards_withdrawn v s1) = Ok (0, s2)
    /\ VoterStake.outstandingRewards (voterStake s2 v) = 0
    /\ token_calls (trace s2) = token_calls (trace (rewards_withdrawn v s1)).
Proof.
  intros Hv Hs Ht.
  pose proof (invariant_updateTrackers _ _ _ _ _ Ht Hs) as Hs1.
  pose proof (_updateTrackers_spec _ _ _ _ _ Ht) as T. destruct T.
  destruct (tu_settled0 Hv) as [Hpaid Howed].
  apply rewardPerToken_of_outstandingRewards in Howed as (rpt & Hrpt & Hfits).
  set (s1' := rewards_withdrawn v s1).
  assert (Hs1' : ledger_invariant s1').
  { destruct Hs1 as [Ha Hp]. unfold s1', rewards_withdrawn.
    destruct (0 <? _); split; sums. }
  assert (Hfields :
    rewardPerTokenStored s1' = rewardPerTokenStored s1
    /\ lastUpdateTime s1' = lastUpdateTime s1
    /\ cumulativeActiveStake s1' = cumulativeActiveStake s1
    /\ cumulativePendingStake s1' = cumulativePendingStake s1
    /\ VoterStake.activeStake (voterStake s1' v)
       = VoterStake.activeStake (voterStake s1 v)
    /\ VoterStake.pendingStake (voterStake s1' v)
       = VoterStake.pendingStake (voterStake s1 v)
    /\ VoterStake.rewardsPaidPerToken (voterStake s1' v)
       = VoterStake.rewardsPaidPerToken (voterStake s1 v)
    /\ VoterStake.outstandingRewards (voterStake s1' v) = 0).
  { unfold s1', rewards_withdrawn.
    destruct (N.ltb_spec 0 (VoterStake.outstandingRewards (voterStake s1 v)));
      ssimpl; repeat split; try done; lia. }
  destruct Hfields as (Hf1 & Hf2 & Hf3 & Hf4 & Hf5 & Hf6 & Hf7 & Hf8).
  assert (Hrpt' : rewardPerToken e s1' = Ok (rewardPerTokenStored s1)).
  { apply (rewardPerToken_again e s); try congruence. lia. }
  assert (Howed' : outstandingRewards e v s1' = Ok 0).
  { rewrite <- Hf8. apply outstandingRewards_nothing_new.
    - congruence.
    - rewrite Hf5, Hf6, tu_activeStake0, tu_pendingStake0.
      assert (promoted e s v <= VoterStake.pendingStake (voterStake s v))
        by (unfold promoted; destruct (inActiveReveal e); lia).
      lia.
    - rewrite Hf8. apply N.le_0_l. }
  destruct (_updateTrackers_runs e v s1' _ Hs1' Hrpt') as (s2' & Ht'); [eauto|].
  pose proof (_updateTrackers_spec _ _ _ _ _ Ht') as T'. destruct T'.
  destruct (tu_settled1 Hv) as [_ Hzero]. rewrite Howed' in Hzero.
  injection Hzero as Hzero.
  exists (rewards_withdrawn v s2').
  rewrite (withdrawRewards_settled _ _ _ _ Ht'). cbv zeta.
  rewrite <- Hzero. split; [reflexivity|].
  unfold rewards_withdrawn at 1 2. rewrite <- Hzero.
  change (0 <? 0) with false. cbv iota zeta. ssimpl.
  split; [by symmetry | done].
Qed.

Lemma withdrawRewards_minted e v s r s1 :
  withdrawRewards e v s = Ok (r, s1) ->
  0 < r -> votingToken e (Mint v r) = Returns true.
Proof.
  intros H Hpos. destruct (_updateTrackers e v s) as [[[] s']|x] eqn:Ht.
  2:{ by rewrite (withdrawRewards_unsettled _ _ _ _ Ht) in H. }
  rewrite (withdrawRewards_settled _ _ _ _ Ht) in H. cbv zeta in H.
  destruct (N.ltb_spec 0 (VoterStake.outstandingRewards (voterStake s' v))).
  - destruct (votingToken e _) as [|[]] eqn:Hm; [done | | done].
    injection H as <- _. exact Hm.
  - injection H as <- _. lia.
Qed.

(** C7. In every reachable storage and for every voter (a nonzero
    address), a [withdrawRewards()] that executes settles, returns the
    voter's settled [outstandingRewards] -- the value of the view
    [outstandingRewards(voter)] --, mints it when it is positive, and zeroes
    the stored field.  Hence, of two calls in immediate succession at the
    same time, the first pays the full amount owed and the second returns
    zero and mints nothing; and a call when nothing is owed returns zero
    and mints nothing.  The call does execute whenever the settled amount
    is defined and the token accepts the mint. *)
Theorem withdrawRewards_pays_once :
  forall (s : Staker) (e : Env) (voter : address),
    reachable s -> voter <> 0 ->
    (forall r s1,
        withdrawRewards e voter s = Ok (r, s1) ->
        outstandingRewards e voter s = Ok r
        /\ VoterStake.outstandingRewards (voterStake s1 voter) = 0
        /\ token_calls (trace s1)
           = (if 0 <? r then [Mint voter r] else []) ++ token_calls (trace s)
        /\ exists s2,
             withdrawRewards e voter s1 = Ok (0, s2)
             /\ VoterStake.outstandingRewards (voterStake s2 voter) = 0
             /\ token_calls (trace s2) = token_calls (trace s1))
    /\ (forall owed,
         outstandingRewards e voter s = Ok owed ->
         (0 < owed -> votingToken e (Mint voter owed) = Returns true) ->
         exists s1, withdrawRewards e voter s = Ok (owed, s1)).
Proof.
  intros s e v Hs Hv. apply invariant_reachable in Hs.
  assert (Hruns : forall owed,
    outstandingRewards e v s = Ok owed ->
    (0 < owed -> votingToken e (Mint v owed) = Returns true) ->
    exists s1 s2,
      withdrawRewards e v s = Ok (owed, s1)
      /\ VoterStake.outstandingRewards (voterStake s1 v) = 0
      /\ token_calls (trace s1)
         = (if 0 <? owed then [Mint v owed] else []) ++ token_calls (trace s)
      /\ withdrawRewards e v s1 = Ok (0, s2)
      /\ VoterStake.outstandingRewards (voterStake s2 v) = 0
      /\ token_calls (trace s2) = token_calls (trace s1)).
  { intros owed Howed Hmint.
    destruct (rewardPerToken_of_outstandingRewards _ _ _ _ Howed)
      as (rpt & Hrpt & _).
    destruct (_updateTrackers_runs e v s rpt Hs Hrpt) as (s1 & Ht); [eauto|].
    destruct (withdrawRewards_again e v s s1 Hv Hs Ht) as (s2 & H2 & Hz & Hc).
    exists (rewards_withdrawn v s1), s2.
    pose proof (_updateTrackers_spec _ _ _ _ _ Ht) as T. destruct T.
    destruct (tu_settled0 Hv) as [_ Hsettled].
    rewrite Howed in Hsettled. injection Hsettled as Hsettled.
    rewrite (withdrawRewards_settled _ _ _ _ Ht). cbv zeta.
    split.
    { rewrite <- Hsettled.
      destruct (N.ltb_spec 0 owed) as [Hpos|Hzero]; [|reflexivity].
      by rewrite (Hmint Hpos). }
    split; [|split; [|done]].
    - unfold rewards_withdrawn. rewrite <- Hsettled.
      destruct (N.ltb_spec 0 owed); ssimpl; [done | lia].
    - unfold rewards_withdrawn. rewrite <- Hsettled.
      destruct (N.ltb_spec 0 owed); ssimpl; by rewrite tu_calls0. }
  split.
  - intros r s1 H.
    pose proof (withdrawRewards_returns_settled _ _ _ _ _ Hv H) as Hview.
    destruct (Hruns r Hview (withdrawRewards_minted _ _ _ _ _ H))
      as (s1' & s2 & H1 & Hz & Hc & H2 & Hz2 & Hc2).
    rewrite H in H1. injection H1 as <-. eauto 10.
  - intros owed Howed Hmint.
    destruct (Hruns owed Howed Hmint) as (s1 & _ & H1 & _). eauto.
Qed.

Lemma withdrawRewards_pays_once_witness :
  reachable staked_ledger
  /\ exists s1 s2,
       withdrawRewards (at_time 20 false) 1 staked_ledger = Ok (15, s1)
       /\ withdrawRewards (at_time 20 false) 1 s1 = Ok (0, s2).
Proof.
  assert (H : reachable staked_ledger).
  { exists 1, 10, 7, [mkTx (at_time 5 false) 1 (OpStake 100)]. reflexivity. }
  split; [exact H|].
  assert (Hv : (1 : N) <> 0) by discriminate.
  assert (H1 : withdrawRewards (at_time 20 false) 1 staked_ledger
               = Ok (15, run_tx (at_time 20 false) 1 OpWithdrawRewards
                           staked_ledger)) by (vm_compute; reflexivity).
  destruct (proj1 (withdrawRewards_pays_once staked_ledger (at_time 20 false)
                     1 H Hv) _ _ H1)
    as (_ & _ & _ & s2 & H2 & _).
  eexists. exists s2. split; [exact H1 | exact H2].
Defined.

(** * Staking *)

Lemma stake_effect e v amount s s2 :
  stake e v amount s = Ok (tt, s2) ->
  exists s1,
    _updateTrackers e v (stake_indexed e v s) = Ok (tt, s1)
    /\ s2 = stake_deposited e v amount s1
    /\ (if inActiveReveal e
        then VoterStake.pendingStake (voterStake s1 v) + amount <= MAX_UINT256
             /\ cumulativePendingStake s1 + amount <= MAX_UINT256
        else VoterStake.activeStake (voterStake s1 v) + amount <= MAX_UINT256
             /\ cumulativeActiveStake s1 + amount <= MAX_UINT256).
Proof.
  unfold stake, stake_indexed, stake_deposited, getVoterStake. intros H.
  apply bind_ok in H as (balance & s' & Hb & H).
  apply view_ok in Hb as [Hb ->]. minv.
  all: destruct (inActiveReveal e); try discriminate.
  all: match goal with H : _updateTrackers _ _ _ = Ok (_, ?s1) |- _ =>
         exists s1 end.
  all: minv; ssimpl; repeat split; try done.
Qed.


(** * A single staker *)








Lemma rewards_withdrawn_zero v s1 :
  VoterStake.outstandingRewards (voterStake (rewards_withdrawn v s1) v) = 0.
Proof.
  unfold rewards_withdrawn.
  destruct (N.ltb_spec 0 (VoterStake.outstandingRewards (voterStake s1 v)));
    ssimpl; [done | lia].
Qed.


(** The condition on the accrual is needed: with emission rate [2^200]
    and [dt = 1] the product [1 * 2^200 * 1e18] exceeds [2^256 - 1], and
    the checked arithmetic of the settlement reverts the call. *)
Example single_staker_withdrawal_overflows :
  stake (at_time 0 false) 1 100 (constructor (2 ^ 200) 0 7)
  = Ok (tt, run_tx (at_time 0 false) 1 (OpStake 100)
              (constructor (2 ^ 200) 0 7))
  /\ withdrawRewards (at_time 1 false) 1
       (run_tx (at_time 0 false) 1 (OpStake 100) (constructor (2 ^ 200) 0 7))
     = Err Panic_overflow.
Proof. split; vm_compute; reflexivity. Qed.


(** * Lazy promotion of pending stake *)


Lemma stake_indexed_voter e v s w :
  VoterStake.activeStake (voterStake (stake_indexed e v s) w)
  = VoterStake.activeStake (voterStake s w)
  /\ VoterStake.pendingStake (voterStake (stake_indexed e v s) w)
     = VoterStake.pendingStake (voterStake s w)
  /\ cumulativeActiveStake (stake_indexed e v s) = cumulativeActiveStake s
  /\ cumulativePendingStake (stake_indexed e v s) = cumulativePendingStake s
  /\ (w <> v -> voterStake (stake_indexed e v s) w = voterStake s w).
Proof.
  unfold stake_indexed. destruct (_ =? 0); [|done].
  ssimpl. repeat split; try done.
  - destruct (N.eq_dec v w) as [->|Hne]; by ssimpl.
  - destruct (N.eq_dec v w) as [->|Hne]; by ssimpl.
  - intros Hw. by ssimpl.
Qed.








(** ** The owner-only setters *)

Lemma setEmissionRate_effect e v r s s2 :
  setEmissionRate e v r s = Ok (tt, s2) ->
  exists s1,
    _updateReward e 0 s = Ok (tt, s1)
    /\ s2 = set_trace (Emit (SetNewEmissionRate r) :: trace s1)
              (set_emissionRate r s1).
Proof.
  unfold setEmissionRate, onlyOwner. intros H. minv.
  match goal with H : _updateReward _ _ _ = Ok (_, ?s1) |- _ =>
    exists s1 end.
  by split.
Qed.

Lemma setUnstakeCoolDown_effect v c s s2 :
  setUnstakeCoolDown v c s = Ok (tt, s2) ->
  s2 = set_trace (Emit (SetNewUnstakeCooldown c) :: trace s)
         (set_unstakeCoolDown c s).
Proof. unfold setUnstakeCoolDown, onlyOwner. intros H. by minv. Qed.

Lemma _updateReward_nobody e s s1 :
  _updateReward e 0 s = Ok (tt, s1) ->
  rewardPerToken e s = Ok (rewardPerTokenStored s1)
  /\ lastUpdateTime s1 = currentTime e
  /\ emissionRate s1 = emissionRate s
  /\ cumulativeActiveStake s1 = cumulativeActiveStake s
  /\ cumulativePendingStake s1 = cumulativePendingStake s
  /\ unstakeCoolDown s1 = unstakeCoolDown s
  /\ voterStakes s1 = voterStakes s
  /\ delegateToStaker s1 = delegateToStaker s
  /\ token_calls (trace s1) = token_calls (trace s).
Proof.
  unfold _updateReward. change (0 =? 0) with true. intros H. minv.
  simpl. repeat split; done.
Qed.

Lemma frame_setEmissionRate e v r s s' :
  setEmissionRate e v r s = Ok (tt, s') ->
  forall w, voterStake s' w = voterStake s w.
Proof.
  intros H w. apply setEmissionRate_effect in H as (s1 & Hu & ->).
  apply _updateReward_nobody in Hu as (_ & _ & _ & _ & _ & _ & Hmap & _).
  ssimpl. by apply voterStake_same_map.
Qed.

Lemma frame_setUnstakeCoolDown v c s s' :
  setUnstakeCoolDown v c s = Ok (tt, s') ->
  forall w, voterStake s' w = voterStake s w.
Proof. intros H w. apply setUnstakeCoolDown_effect in H as ->. by ssimpl. Qed.





(** * A request to unstake nothing *)

Lemma requestUnstake_zero e v s :
  ledger_invariant s ->
  inActiveReveal e = false ->
  VoterStake.pendingUnstake (voterStake s v) = 0 ->
  requestUnstake e v 0 s
  = match _updateTrackers e v s with
    | Ok (_, s1) => Ok (tt, unstake_requested e v 0 s1)
    | Err x => Err x
    end.
Proof.
  intros Hs Hr Hp. destruct (_updateTrackers e v s) as [[[] s1]|x] eqn:Ht.
  2:{ by apply requestUnstake_unsettled. }
  pose proof (invariant_updateTrackers _ _ _ _ _ Ht Hs) as Hs1.
  rewrite (requestUnstake_settled _ _ _ _ _ Hr Ht
             (active_le_cumulative s1 v Hs1)).
  apply _updateTrackers_spec in Ht. destruct Ht.
  rewrite tu_pendingUnstake0, Hp.
  destruct (N.leb_spec 0 (VoterStake.activeStake (voterStake s1 v)));
    [reflexivity | lia].
Qed.

Lemma executeUnstake_nothing_pending e v s s2 :
  VoterStake.pendingUnstake (voterStake s v) = 0 ->
  executeUnstake e v s = Ok (tt, s2) ->
  token_calls (trace s2) = token_calls (trace s)
  /\ VoterStake.unstakeRequestTime (voterStake s2 v)
     = VoterStake.unstakeRequestTime (voterStake s v)
  /\ VoterStake.pendingUnstake (voterStake s2 v) = 0.
Proof.
  intros Hp H. apply executeUnstake_effect in H as (s1 & Ht & ->).
  apply _updateTrackers_spec in Ht. destruct Ht.
  unfold unstake_executed. rewrite tu_pendingUnstake0, Hp.
  change (0 <? 0) with false. cbv iota zeta. ssimpl.
  repeat split; congruence.
Qed.

(** C10 (amended). Outside the reveal phase and with no unstake pending,
    [requestUnstake(0)] passes both of its checks: it does whatever the
    settlement does -- it succeeds whenever [_updateTrackers] does not
    revert -- and then stamps [unstakeRequestTime] with the current time
    while [pendingUnstake] stays [0].  The stamped request does not block a
    later request, whose guard only tests [pendingUnstake == 0]; and an
    [executeUnstake()] on it transfers nothing and leaves
    [unstakeRequestTime] stamped, which it does succeed in doing once the
    cooldown has elapsed. *)
Theorem requestUnstake_of_zero :
  forall (s : Staker) (e : Env) (voter : address),
    reachable s ->
    inActiveReveal e = false ->
    VoterStake.pendingUnstake (voterStake s voter) = 0 ->
    requestUnstake e voter 0 s
    = match _updateTrackers e voter s with
      | Ok (_, s1) => Ok (tt, unstake_requested e voter 0 s1)
      | Err x => Err x
      end
    /\ forall s2,
        requestUnstake e voter 0 s = Ok (tt, s2) ->
        VoterStake.unstakeRequestTime (voterStake s2 voter) = currentTime e
        /\ VoterStake.pendingUnstake (voterStake s2 voter) = 0
        /\ (forall e' amount s3,
              inActiveReveal e' = false ->
              _updateTrackers e' voter s2 = Ok (tt, s3) ->
              amount <= VoterStake.activeStake (voterStake s3 voter) ->
              exists s4,
                requestUnstake e' voter amount s2 = Ok (tt, s4)
                /\ VoterStake.pendingUnstake (voterStake s4 voter) = amount)
        /\ (forall e' s3,
              executeUnstake e' voter s2 = Ok (tt, s3) ->
              token_calls (trace s3) = token_calls (trace s2)
              /\ VoterStake.unstakeRequestTime (voterStake s3 voter)
                 = currentTime e)
        /\ (forall e' s3,
              _updateTrackers e' voter s2 = Ok (tt, s3) ->
              currentTime e <> 0 ->
              currentTime e + unstakeCoolDown s2 <= currentTime e' ->
              currentTime e' <= MAX_UINT256 ->
              executeUnstake e' voter s2
              = Ok (tt, unstake_executed e' voter s3)).
Proof.
  intros s e v Hs Hr Hp. apply invariant_reachable in Hs.
  split; [by apply requestUnstake_zero|].
  intros s2 H.
  pose proof (invariant_requestUnstake _ _ _ _ _ _ H Hs) as Hs2.
  destruct (requestUnstake_stamps _ _ _ _ _ H) as [Hstamp Hzero].
  split; [done|]. split; [done|]. split; [|split].
  - intros e' amount s3 Hr' Ht' Hle.
    pose proof (invariant_updateTrackers _ _ _ _ _ Ht' Hs2) as Hs3.
    exists (unstake_requested e' v amount s3).
    rewrite (requestUnstake_settled _ _ _ _ _ Hr' Ht'
               (active_le_cumulative s3 v Hs3)).
    apply _updateTrackers_spec in Ht'. destruct Ht'.
    rewrite tu_pendingUnstake0, Hzero.
    destruct (N.leb_spec amount (VoterStake.activeStake (voterStake s3 v)));
      [|lia].
    split; [reflexivity|]. unfold unstake_requested. by ssimpl.
  - intros e' s3 H3.
    destruct (executeUnstake_nothing_pending _ _ _ _ Hzero H3) as (? & ? & _).
    split; congruence.
  - intros e' s3 Ht' Hnz Hel Hnow.
    rewrite (executeUnstake_settled _ _ _ _ Ht'). cbv zeta.
    apply _updateTrackers_spec in Ht'. destruct Ht'.
    rewrite tu_unstakeRequestTime0, tu_cooldown0, tu_pendingUnstake0,
      Hstamp, Hzero.
    destruct (N.eqb_spec (currentTime e) 0); [done|].
    rewrite checked_add_fits by lia.
    destruct (N.leb_spec (currentTime e + unstakeCoolDown s2) (currentTime e'));
      [|lia].
    reflexivity.
Qed.

(** C10, as stated, fails in its first part: outside the reveal phase and
    with no unstake pending, [requestUnstake(0)] still reverts when the
    settlement overflows, here with an emission rate of [2^200] after one
    second. *)
Lemma requestUnstake_of_zero_reverts_on_overflow :
  reachable overflowing_ledger
  /\ inActiveReveal (at_time 1 false) = false
  /\ VoterStake.pendingUnstake (voterStake overflowing_ledger 1) = 0
  /\ requestUnstake (at_time 1 false) 1 0 overflowing_ledger
     = Err Panic_overflow.
Proof.
  split; [apply reachable_run_txs, reachable_constructor|].
  split; [reflexivity|].
  split; vm_compute; reflexivity.
Qed.

Lemma requestUnstake_of_zero_witness :
  reachable staked_ledger
  /\ exists s2,
       requestUnstake (at_time 6 false) 1 0 staked_ledger = Ok (tt, s2)
       /\ VoterStake.unstakeRequestTime (voterStake s2 1) = 6.
Proof.
  assert (H : reachable staked_ledger).
  { exists 1, 10, 7, [mkTx (at_time 5 false) 1 (OpStake 100)]. reflexivity. }
  assert (Hp : VoterStake.pendingUnstake (voterStake staked_ledger 1) = 0)
    by (vm_compute; reflexivity).
  split; [exact H|].
  assert (Hrun : requestUnstake (at_time 6 false) 1 0 staked_ledger
                 = Ok (tt, run_tx (at_time 6 false) 1 (OpRequestUnstake 0)
                             staked_ledger)) by (vm_compute; reflexivity).
  destruct (requestUnstake_of_zero staked_ledger (at_time 6 false) 1
              H eq_refl Hp) as [_ Hafter].
  destruct (Hafter _ Hrun) as (Hstamp & _).
  eexists. split; [exact Hrun | exact Hstamp].
Defined.

(** * Further properties of the ledger *)

(** ** What an operation that executes has done *)

Lemma requestUnstake_effect e v amount s s2 :
  requestUnstake e v amount s = Ok (tt, s2) ->
  inActiveReveal e = false
  /\ exists s1,
       _updateTrackers e v s = Ok (tt, s1)
       /\ s2 = unstake_requested e v amount s1
       /\ amount <= VoterStake.activeStake (voterStake s1 v)
       /\ amount <= cumulativeActiveStake s1
       /\ VoterStake.pendingUnstake (voterStake s1 v) = 0.
Proof.
  unfold requestUnstake, unstake_requested. intros H.
  destruct (inActiveReveal e) eqn:Hr; [done|]. split; [done|]. minv.
  match goal with H : _updateTrackers _ _ _ = Ok (_, ?s1) |- _ =>
    exists s1 end.
  repeat match goal with
         | H : (_ <=? _) = true |- _ => apply N.leb_le in H
         | H : (_ =? _) = true |- _ => apply N.eqb_eq in H
         end.
  ssimpl. repeat split; try done.
Qed.

(** A property kept by each entry point is kept by every transaction
    sequence. *)
Lemma run_txs_preserves (P : Staker -> Prop) :
  (forall e v amount s s', stake e v amount s = Ok (tt, s') -> P s -> P s') ->
  (forall e v amount s s',
      requestUnstake e v amount s = Ok (tt, s') -> P s -> P s') ->
  (forall e v s s', executeUnstake e v s = Ok (tt, s') -> P s -> P s') ->
  (forall e v r s s', withdrawRewards e v s = Ok (r, s') -> P s -> P s') ->
  (forall e v r s s', setEmissionRate e v r s = Ok (tt, s') -> P s -> P s') ->
  (forall v c s s', setUnstakeCoolDown v c s = Ok (tt, s') -> P s -> P s') ->
  forall txs s, P s -> P (run_txs txs s).
Proof.
  intros Hstake Hreq Hexe Hwd Hrate Hcool.
  assert (Hexec : forall e v op s s',
    exec e v op s = Ok (tt, s') -> P s -> P s').
  { intros e v op s s' H Hs. destruct op; simpl in H; eauto.
    - apply bind_ok in H as (r & s1 & H & Hret).
      apply ret_ok in Hret as [_ ->]. eauto.
    - apply exit_runs in H as (s1 & r & H1 & H2). eauto. }
  induction txs as [|tx txs IH]; intros s Hs; simpl; [done|].
  apply IH. unfold run_tx.
  destruct (exec _ _ _ s) as [[[] s']|x] eqn:H; eauto.
Qed.

(** ** Custody *)

(** Sums under writes that are interleaved with writes to other fields. *)
Ltac sums_deep := simpl; repeat (sum_step; simpl); intros; ssimpl; try lia.

Lemma sum_pendingUnstake_updateTrackers e v s s1 :
  _updateTrackers e v s = Ok (tt, s1) ->
  sum_of VoterStake.pendingUnstake (voterStakes s1)
  = sum_of VoterStake.pendingUnstake (voterStakes s).
Proof.
  unfold _updateTrackers, _updateReward, _updateActiveStake. intros H.
  minv; sums_deep.
Qed.

Lemma cumulative_updateTrackers e v s s1 :
  _updateTrackers e v s = Ok (tt, s1) ->
  cumulativeActiveStake s1 + cumulativePendingStake s1
  = cumulativeActiveStake s + cumulativePendingStake s.
Proof.
  intros H. apply _updateTrackers_spec in H. destruct H. lia.
Qed.

Lemma custody_updateTrackers e v s s1 :
  _updateTrackers e v s = Ok (tt, s1) ->
  custody_balanced s -> custody_balanced s1.
Proof.
  intros H Hs. unfold custody_balanced in *.
  rewrite (sum_pendingUnstake_updateTrackers _ _ _ _ H).
  pose proof (cumulative_updateTrackers _ _ _ _ H).
  apply _updateTrackers_spec in H. destruct H. rewrite tu_calls0. lia.
Qed.

Lemma custody_stake_indexed e v s :
  custody_balanced s -> custody_balanced (stake_indexed e v s).
Proof.
  unfold custody_balanced, stake_indexed. intros Hs.
  destruct (_ =? 0); [|done]. sums.
Qed.

Lemma custody_stake e v amount s s' :
  stake e v amount s = Ok (tt, s') -> custody_balanced s -> custody_balanced s'.
Proof.
  intros H Hs. apply stake_effect in H as (s1 & Ht & -> & _).
  apply (custody_stake_indexed e v) in Hs.
  apply (custody_updateTrackers _ _ _ _ Ht) in Hs.
  unfold custody_balanced, stake_deposited in *.
  destruct (inActiveReveal e); sums.
Qed.

Lemma custody_requestUnstake e v amount s s' :
  requestUnstake e v amount s = Ok (tt, s') ->
  custody_balanced s -> custody_balanced s'.
Proof.
  intros H Hs.
  apply requestUnstake_effect in H as (_ & s1 & Ht & -> & Ha & Hc & Hp).
  apply (custody_updateTrackers _ _ _ _ Ht) in Hs.
  unfold custody_balanced, unstake_requested in *. sums.
Qed.

Lemma custody_executeUnstake e v s s' :
  executeUnstake e v s = Ok (tt, s') ->
  custody_balanced s -> custody_balanced s'.
Proof.
  intros H Hs. apply executeUnstake_effect in H as (s1 & Ht & ->).
  apply (custody_updateTrackers _ _ _ _ Ht) in Hs.
  unfold custody_balanced, unstake_executed in *.
  destruct (N.ltb_spec 0 (VoterStake.pendingUnstake (voterStake s1 v)));
    sums.
Qed.

Lemma custody_withdrawRewards e v r s s' :
  withdrawRewards e v s = Ok (r, s') ->
  custody_balanced s -> custody_balanced s'.
Proof.
  intros H Hs. apply withdrawRewards_effect in H as (s1 & Ht & ->).
  apply (custody_updateTrackers _ _ _ _ Ht) in Hs.
  unfold custody_balanced, rewards_withdrawn in *.
  destruct (N.ltb_spec 0 (VoterStake.outstandingRewards (voterStake s1 v)));
    sums.
Qed.

Lemma custody_setEmissionRate e v r s s' :
  setEmissionRate e v r s = Ok (tt, s') ->
  custody_balanced s -> custody_balanced s'.
Proof.
  intros H Hs. apply setEmissionRate_effect in H as (s1 & Hu & ->).
  unfold custody_balanced in *. simpl.
  unfold _updateReward in Hu. change (0 =? 0) with true in Hu.
  minv. simpl in *. exact Hs.
Qed.

Lemma custody_setUnstakeCoolDown v c s s' :
  setUnstakeCoolDown v c s = Ok (tt, s') ->
  custody_balanced s -> custody_balanced s'.
Proof. intros H Hs. apply setUnstakeCoolDown_effect in H as ->. exact Hs. Qed.

(** X1. Along every sequence of operations from a fresh ledger, the
    amounts the ledger asked the token to pull in ([transferFrom] in
    [stake]) equal the amounts it asked it to send back ([transfer] in
    [executeUnstake]) plus what it has on record: [cumulativeActiveStake],
    [cumulativePendingStake] and the voters' [pendingUnstake].  Minting
    rewards never enters this balance. *)
Theorem custody_is_balanced :
  forall (_emissionRate _unstakeCoolDown : uint256) (deployer : address)
         (txs : list Tx),
    let s := run_txs txs (constructor _emissionRate _unstakeCoolDown deployer) in
    pulled_in (token_calls (trace s))
    = sent_out (token_calls (trace s))
      + cumulativeActiveStake s + cumulativePendingStake s
      + sum_of VoterStake.pendingUnstake (voterStakes s).
Proof.
  intros r c d txs.
  apply (run_txs_preserves custody_balanced);
    eauto using custody_stake, custody_requestUnstake,
      custody_executeUnstake, custody_withdrawRewards,
      custody_setEmissionRate, custody_setUnstakeCoolDown.
  reflexivity.
Qed.

(** ** The snapshot of the accumulator *)

(** The four storages an entry point leaves differ from the settled one
    in a few fields only; [closed_forms] exposes them. *)
Ltac closed_forms :=
  unfold stake_deposited, stake_indexed, unstake_requested, unstake_executed,
    rewards_withdrawn in *;
  repeat match goal with
         | |- context [if inActiveReveal ?e then _ else _] =>
             destruct (inActiveReveal e)
         | |- context [if ?a <? ?b then _ else _] => destruct (N.ltb_spec a b)
         | |- context [if ?a =? ?b then _ else _] => destruct (N.eqb_spec a b)
         end.

Ltac by_cases_on_voter v w :=
  destruct (N.eq_dec v w) as [<-|?]; closed_forms; ssimpl; try done.

Lemma snapshots_updateTrackers e v s s1 :
  _updateTrackers e v s = Ok (tt, s1) ->
  snapshots_behind s -> snapshots_behind s1.
Proof.
  intros H Hs w. apply _updateTrackers_spec in H. destruct H.
  pose proof (rewardPerToken_ge _ _ _ tu_perToken0) as Hge.
  destruct (N.eq_dec w v) as [->|Hw].
  - destruct (N.eq_dec v 0) as [Hz|Hz].
    + destruct (tu_unsettled0 Hz) as [-> _]. specialize (Hs v). lia.
    + destruct (tu_settled0 Hz) as [-> _]. lia.
  - rewrite (tu_others0 w Hw). specialize (Hs w). lia.
Qed.

Lemma snapshots_stake e v amount s s' :
  stake e v amount s = Ok (tt, s') -> snapshots_behind s -> snapshots_behind s'.
Proof.
  intros H Hs. apply stake_effect in H as (s1 & Ht & -> & _).
  assert (Hs0 : snapshots_behind (stake_indexed e v s)).
  { intros w. specialize (Hs w). by_cases_on_voter v w. }
  apply (snapshots_updateTrackers _ _ _ _ Ht) in Hs0.
  intros w. specialize (Hs0 w). by_cases_on_voter v w.
Qed.

Lemma snapshots_requestUnstake e v amount s s' :
  requestUnstake e v amount s = Ok (tt, s') ->
  snapshots_behind s -> snapshots_behind s'.
Proof.
  intros H Hs. apply requestUnstake_effect in H as (_ & s1 & Ht & -> & _).
  apply (snapshots_updateTrackers _ _ _ _ Ht) in Hs.
  intros w. specialize (Hs w). by_cases_on_voter v w.
Qed.

Lemma snapshots_executeUnstake e v s s' :
  executeUnstake e v s = Ok (tt, s') ->
  snapshots_behind s -> snapshots_behind s'.
Proof.
  intros H Hs. apply executeUnstake_effect in H as (s1 & Ht & ->).
  apply (snapshots_updateTrackers _ _ _ _ Ht) in Hs.
  intros w. specialize (Hs w). by_cases_on_voter v w.
Qed.

Lemma snapshots_withdrawRewards e v r s s' :
  withdrawRewards e v s = Ok (r, s') ->
  snapshots_behind s -> snapshots_behind s'.
Proof.
  intros H Hs. apply withdrawRewards_effect in H as (s1 & Ht & ->).
  apply (snapshots_updateTrackers _ _ _ _ Ht) in Hs.
  intros w. specialize (Hs w). by_cases_on_voter v w.
Qed.

Lemma snapshots_setEmissionRate e v r s s' :
  setEmissionRate e v r s = Ok (tt, s') ->
  snapshots_behind s -> snapshots_behind s'.
Proof.
  intros H Hs. apply setEmissionRate_effect in H as (s1 & Hu & ->).
  apply _updateReward_nobody in Hu as (Hrpt & _ & _ & _ & _ & _ & Hmap & _).
  apply rewardPerToken_ge in Hrpt.
  intros w. specialize (Hs w). ssimpl.
  rewrite (voterStake_same_map s s1 w Hmap). lia.
Qed.

Lemma snapshots_setUnstakeCoolDown v c s s' :
  setUnstakeCoolDown v c s = Ok (tt, s') ->
  snapshots_behind s -> snapshots_behind s'.
Proof.
  intros H Hs. apply setUnstakeCoolDown_effect in H as ->.
  intros w. specialize (Hs w). by ssimpl.
Qed.

Lemma snapshots_run_txs txs s :
  snapshots_behind s -> snapshots_behind (run_txs txs s).
Proof.
  apply (run_txs_preserves snapshots_behind);
    eauto using snapshots_stake, snapshots_requestUnstake,
      snapshots_executeUnstake, snapshots_withdrawRewards,
      snapshots_setEmissionRate, snapshots_setUnstakeCoolDown.
Qed.

(** X2. Along every sequence of operations from a fresh ledger, no
    voter's [rewardsPaidPerToken] exceeds [rewardPerTokenStored], hence
    none exceeds what [rewardPerToken()] returns: the subtraction
    [rewardPerToken() - rewardsPaidPerToken] of [outstandingRewards] never
    underflows. *)
Theorem rewardsPaidPerToken_never_ahead :
  forall (_emissionRate _unstakeCoolDown : uint256) (deployer : address)
         (txs : list Tx) (voter : address),
    let s := run_txs txs (constructor _emissionRate _unstakeCoolDown deployer) in
    VoterStake.rewardsPaidPerToken (voterStake s voter)
    <= rewardPerTokenStored s
    /\ forall e perToken,
         rewardPerToken e s = Ok perToken ->
         checked_sub perToken
           (VoterStake.rewardsPaidPerToken (voterStake s voter))
         = Ok (perToken - VoterStake.rewardsPaidPerToken (voterStake s voter)).
Proof.
  intros r c d txs v s.
  assert (Hs : snapshots_behind s).
  { apply snapshots_run_txs. intros w. ssimpl. apply N.le_0_l. }
  split; [apply Hs|].
  intros e rpt Hrpt. apply checked_sub_fits.
  apply rewardPerToken_ge in Hrpt. specialize (Hs v). lia.
Qed.

(** ** What a call leaves alone *)

Lemma frame_stake e v amount s s' :
  stake e v amount s = Ok (tt, s') ->
  forall w, w <> v -> voterStake s' w = voterStake s w.
Proof.
  intros H w Hw. apply stake_effect in H as (s1 & Ht & -> & _).
  apply _updateTrackers_spec in Ht. destruct Ht.
  specialize (tu_others0 w Hw).
  destruct (stake_indexed_voter e v s w) as (_ & _ & _ & _ & Hidx).
  rewrite (Hidx Hw) in tu_others0.
  unfold stake_deposited. destruct (inActiveReveal e); ssimpl; congruence.
Qed.

Lemma frame_requestUnstake e v amount s s' :
  requestUnstake e v amount s = Ok (tt, s') ->
  forall w, w <> v -> voterStake s' w = voterStake s w.
Proof.
  intros H w Hw. apply requestUnstake_effect in H as (_ & s1 & Ht & -> & _).
  apply _updateTrackers_spec in Ht. destruct Ht.
  specialize (tu_others0 w Hw). closed_forms; ssimpl; congruence.
Qed.

Lemma frame_executeUnstake e v s s' :
  executeUnstake e v s = Ok (tt, s') ->
  forall w, w <> v -> voterStake s' w = voterStake s w.
Proof.
  intros H w Hw. apply executeUnstake_effect in H as (s1 & Ht & ->).
  apply _updateTrackers_spec in Ht. destruct Ht.
  specialize (tu_others0 w Hw). closed_forms; ssimpl; congruence.
Qed.

Lemma frame_withdrawRewards e v r s s' :
  withdrawRewards e v s = Ok (r, s') ->
  forall w, w <> v -> voterStake s' w = voterStake s w.
Proof.
  intros H w Hw. apply withdrawRewards_effect in H as (s1 & Ht & ->).
  apply _updateTrackers_spec in Ht. destruct Ht.
  specialize (tu_others0 w Hw). closed_forms; ssimpl; congruence.
Qed.

(** X3. A call that executes writes to no voter's record but the
    caller's; and the two owner-only setters write to no voter's record at
    all, the caller's included. *)
Theorem other_voters_untouched :
  forall (e : Env) (sender : address) (op : Op) (s s' : Staker),
    exec e sender op s = Ok (tt, s') ->
    (forall w, w <> sender -> voterStake s' w = voterStake s w)
    /\ (voter_entry_point op = false ->
        forall w, voterStake s' w = voterStake s w).
Proof.
  intros e v op s s' H. destruct op; simpl in H.
  - split; [by apply (frame_stake e v amount)|done].
  - split; [by apply (frame_requestUnstake e v amount)|done].
  - split; [by apply (frame_executeUnstake e v)|done].
  - apply bind_ok in H as (r & s1 & H & Hret). apply ret_ok in Hret as [_ ->].
    split; [by apply (frame_withdrawRewards e v r)|done].
  - apply exit_runs in H as (s1 & r & H1 & H2).
    split; [|done]. intros w Hw.
    rewrite (frame_withdrawRewards _ _ _ _ _ H2 w Hw).
    by apply (frame_executeUnstake e v).
  - split; intros; by apply (frame_setEmissionRate e v _emissionRate).
  - split; intros; by apply (frame_setUnstakeCoolDown v _unstakeCoolDown).
Qed.

(** ** When the accumulator stands still *)

Lemma rewardPerToken_frozen e s perToken :
  rewardPerToken e s = Ok perToken ->
  currentTime e = lastUpdateTime s \/ emissionRate s = 0 ->
  perToken = rewardPerTokenStored s.
Proof.
  unfold rewardPerToken. intros H Hz.
  apply rbind_ok in H as (total & Ht & H).
  destruct (N.eqb_spec total 0) as [?|Hnz]; [congruence|]. minv.
  destruct Hz as [->| ->].
  - by rewrite N.sub_diag, !N.mul_0_l, N.Div0.div_0_l, N.add_0_r.
  - by rewrite N.mul_0_r, N.mul_0_l, N.Div0.div_0_l, N.add_0_r.
Qed.

Lemma frozen_exec e v op s s' :
  exec e v op s = Ok (tt, s') ->
  currentTime e = lastUpdateTime s \/ emissionRate s = 0 ->
  rewardPerTokenStored s' = rewardPerTokenStored s.
Proof.
  intros H Hz.
  assert (Hrpt : forall s1, rewardPerToken e s = Ok (rewardPerTokenStored s1) ->
                            rewardPerTokenStored s1 = rewardPerTokenStored s)
    by (intros s1 H1; by apply (rewardPerToken_frozen e)).
  assert (Hidx : rewardPerToken e (stake_indexed e v s) = rewardPerToken e s).
  { unfold stake_indexed. destruct (_ =? 0); [|done].
    unfold rewardPerToken, getCumulativeStake. by ssimpl. }
  destruct op; simpl in H.
  - apply stake_effect in H as (s1 & Ht & -> & _).
    apply _updateTrackers_spec in Ht. destruct Ht.
    rewrite Hidx in tu_perToken0.
    closed_forms; ssimpl; auto.
  - apply requestUnstake_effect in H as (_ & s1 & Ht & -> & _).
    apply _updateTrackers_spec in Ht. destruct Ht.
    closed_forms; ssimpl; auto.
  - apply executeUnstake_effect in H as (s1 & Ht & ->).
    apply _updateTrackers_spec in Ht. destruct Ht.
    closed_forms; ssimpl; auto.
  - apply bind_ok in H as (r & s2 & H & Hret). apply ret_ok in Hret as [_ ->].
    apply withdrawRewards_effect in H as (s1 & Ht & ->).
    apply _updateTrackers_spec in Ht. destruct Ht.
    closed_forms; ssimpl; auto.
  - apply exit_runs in H as (s2 & r & H1 & H2).
    apply executeUnstake_effect in H1 as (s1 & Ht & ->).
    apply withdrawRewards_effect in H2 as (s3 & Ht' & ->).
    apply _updateTrackers_spec in Ht, Ht'. destruct Ht as [T1 T2].
    destruct Ht' as [T1' T2'].
    assert (Hmid : rewardPerTokenStored (unstake_executed e v s1)
                   = rewardPerTokenStored s)
      by (closed_forms; ssimpl; auto).
    assert (Hlast : lastUpdateTime (unstake_executed e v s1) = currentTime e)
      by (closed_forms; ssimpl; auto).
    assert (Hfin : rewardPerTokenStored s3
                   = rewardPerTokenStored (unstake_executed e v s1))
      by (apply (rewardPerToken_frozen e); [done | by left]).
    closed_forms; ssimpl; congruence.
  - apply setEmissionRate_effect in H as (s1 & Hu & ->).
    apply _updateReward_nobody in Hu as (Hp & _). simpl. auto.
  - by apply setUnstakeCoolDown_effect in H as ->.
Qed.

(** X4. An operation executed at the very time of the last update, or
    while the emission rate is zero, leaves [rewardPerTokenStored] exactly
    as it was, whatever the stakes: the accumulator moves with elapsed time
    and a positive rate only. *)
Theorem accumulator_stands_still :
  forall (e : Env) (sender : address) (op : Op) (s : Staker),
    currentTime e = lastUpdateTime s \/ emissionRate s = 0 ->
    rewardPerTokenStored (run_tx e sender op s) = rewardPerTokenStored s.
Proof.
  intros e v op s Hz. unfold run_tx.
  destruct (exec e v op s) as [[[] s']|x] eqn:H; [|done].
  by apply (frozen_exec e v op).
Qed.

(** ** Settling twice *)

Lemma VoterStake_ext (x y : VoterStake.t) :
  VoterStake.activeStake x = VoterStake.activeStake y ->
  VoterStake.pendingUnstake x = VoterStake.pendingUnstake y ->
  VoterStake.pendingStake x = VoterStake.pendingStake y ->
  VoterStake.rewardsPaidPerToken x = VoterStake.rewardsPaidPerToken y ->
  VoterStake.outstandingRewards x = VoterStake.outstandingRewards y ->
  VoterStake.unstakeRequestTime x = VoterStake.unstakeRequestTime y ->
  VoterStake.lastRequestIndexConsidered x
  = VoterStake.lastRequestIndexConsidered y ->
  VoterStake.delegate x = VoterStake.delegate y ->
  x = y.
Proof. destruct x, y. simpl. congruence. Qed.

Lemma outstandingRewards_when_settled e v s r :
  outstandingRewards e v s = Ok r ->
  rewardPerToken e s = Ok (VoterStake.rewardsPaidPerToken (voterStake s v)) ->
  r = VoterStake.outstandingRewards (voterStake s v).
Proof.
  unfold outstandingRewards. intros H Hrpt. rewrite Hrpt in H.
  apply rbind_ok in H as (staked & _ & H). cbn [rbind] in H. minv.
  by rewrite N.sub_diag, N.mul_0_r, N.Div0.div_0_l.
Qed.

Lemma promoted_twice e v s s1 :
  trackers_updated e v s s1 -> promoted e s1 v = 0.
Proof.
  intros T. destruct T. unfold promoted in *.
  destruct (inActiveReveal e); [done|]. lia.
Qed.

Lemma _updateTrackers_twice e v s s1 s2 :
  _updateTrackers e v s = Ok (tt, s1) ->
  _updateTrackers e v s1 = Ok (tt, s2) ->
  emissionRate s2 = emissionRate s1
  /\ cumulativeActiveStake s2 = cumulativeActiveStake s1
  /\ cumulativePendingStake s2 = cumulativePendingStake s1
  /\ rewardPerTokenStored s2 = rewardPerTokenStored s1
  /\ lastUpdateTime s2 = lastUpdateTime s1
  /\ unstakeCoolDown s2 = unstakeCoolDown s1
  /\ token_calls (trace s2) = token_calls (trace s1)
  /\ forall w, voterStake s2 w = voterStake s1 w.
Proof.
  intros H1 H2.
  apply _updateTrackers_spec in H1 as T1. apply _updateTrackers_spec in H2 as T2.
  pose proof (promoted_twice _ _ _ _ T1) as Hp.
  destruct T1, T2. rewrite Hp in *.
  assert (Hstored : rewardPerTokenStored s2 = rewardPerTokenStored s1)
    by (apply (rewardPerToken_frozen e); [done | left; congruence]).
  repeat split; try congruence; try lia.
  intros w. destruct (N.eq_dec w v) as [->|Hw]; [|by apply tu_others1].
  apply VoterStake_ext; try congruence; try lia.
  destruct (N.eq_dec v 0) as [Hz|Hz].
  - by destruct (tu_unsettled1 Hz).
  - destruct (tu_settled0 Hz) as [Hpaid _].
    destruct (tu_settled1 Hz) as [_ Hview].
    apply (outstandingRewards_when_settled e v s1); [done|].
    rewrite Hpaid, <- Hstored. exact tu_perToken1.
Qed.

Lemma outstandingRewards_fits e v s r :
  outstandingRewards e v s = Ok r -> r <= MAX_UINT256.
Proof.
  unfold outstandingRewards. intros H.
  apply rbind_ok in H as (staked & _ & H).
  apply rbind_ok in H as (rpt & _ & H). minv. done.
Qed.

Lemma _updateTrackers_runs_again e v s s1 :
  ledger_invariant s ->
  _updateTrackers e v s = Ok (tt, s1) ->
  exists s2, _updateTrackers e v s1 = Ok (tt, s2).
Proof.
  intros Hs H1.
  pose proof (invariant_updateTrackers _ _ _ _ _ H1 Hs) as Hs1.
  apply _updateTrackers_spec in H1 as T1.
  pose proof (cumulative_updateTrackers _ _ _ _ H1) as Hcum.
  destruct T1.
  assert (Hrpt : rewardPerToken e s1 = Ok (rewardPerTokenStored s1))
    by (by apply (rewardPerToken_again e s)).
  apply (_updateTrackers_runs e v s1 _ Hs1 Hrpt).
  intros Hz. destruct (tu_settled0 Hz) as [Hpaid Hview].
  exists (VoterStake.outstandingRewards (voterStake s1 v)).
  apply outstandingRewards_nothing_new.
  - congruence.
  - destruct (rewardPerToken_of_outstandingRewards _ _ _ _ Hview)
      as (_ & _ & Hfits).
    assert (promoted e s v <= VoterStake.pendingStake (voterStake s v))
      by (unfold promoted; destruct (inActiveReveal e); lia).
    lia.
  - by apply (outstandingRewards_fits e v s).
Qed.

(** X5. Settlement is idempotent while the clock stands still: a second
    [_updateTrackers] for the same voter at the same time changes no
    storage variable and no voter's record (it only emits its events
    again); and in a reachable storage the second settlement does
    execute when the first did. *)
Theorem settlement_is_idempotent :
  forall (e : Env) (voter : address) (s s1 : Staker),
    _updateTrackers e voter s = Ok (tt, s1) ->
    (forall s2,
        _updateTrackers e voter s1 = Ok (tt, s2) ->
        emissionRate s2 = emissionRate s1
        /\ cumulativeActiveStake s2 = cumulativeActiveStake s1
        /\ cumulativePendingStake s2 = cumulativePendingStake s1
        /\ rewardPerTokenStored s2 = rewardPerTokenStored s1
        /\ lastUpdateTime s2 = lastUpdateTime s1
        /\ unstakeCoolDown s2 = unstakeCoolDown s1
        /\ token_calls (trace s2) = token_calls (trace s1)
        /\ forall w, voterStake s2 w = voterStake s1 w)
    /\ (reachable s -> exists s2, _updateTrackers e voter s1 = Ok (tt, s2)).
Proof.
  intros e v s s1 H1. split.
  - intros s2 H2. by apply (_updateTrackers_twice e v s).
  - intros Hs. apply invariant_reachable in Hs.
    by apply (_updateTrackers_runs_again e v s).
Qed.

(** ** Changing the emission rate *)

Lemma outstandingRewards_same e v s s' :
  rewardPerToken e s' = rewardPerToken e s ->
  voterStake s' v = voterStake s v ->
  outstandingRewards e v s' = outstandingRewards e v s.
Proof.
  intros Hrpt Hv. unfold outstandingRewards, getVoterStake.
  by rewrite Hrpt, Hv.
Qed.

(** X6. A change of the emission rate is not retroactive: at the time of
    an executed [setEmissionRate] the views [rewardPerToken] and
    [outstandingRewards] return what they returned before the call, for
    every voter; the new rate is in force and the accumulator is stamped
    with the time of the call, so that the new rate applies from then
    on. *)
Theorem setEmissionRate_is_not_retroactive :
  forall (e : Env) (sender : address) (_emissionRate : uint256)
         (s s' : Staker),
    setEmissionRate e sender _emissionRate s = Ok (tt, s') ->
    rewardPerToken e s' = rewardPerToken e s
    /\ (forall voter,
           outstandingRewards e voter s' = outstandingRewards e voter s)
    /\ emissionRate s' = _emissionRate
    /\ lastUpdateTime s' = currentTime e.
Proof.
  intros e sender r s s' H.
  apply setEmissionRate_effect in H as (s1 & Hu & ->).
  apply _updateReward_nobody in Hu
    as (Hrpt & Htime & _ & Hact & Hpend & _ & Hvoters & _).
  assert (Hsame :
    rewardPerToken e
      (set_trace (Emit (SetNewEmissionRate r) :: trace s1)
         (set_emissionRate r s1))
    = rewardPerToken e s).
  { rewrite Hrpt. apply (rewardPerToken_again e s); simpl; [done|done|done|].
    by rewrite Hact, Hpend. }
  split; [exact Hsame|]. split; [|by split].
  intros voter. apply outstandingRewards_same; [exact Hsame|].
  ssimpl. by apply voterStake_same_map.
Qed.

(** ** How much a voter can accrue *)

Lemma stake_le_cumulative s v :
  ledger_invariant s ->
  VoterStake.activeStake (voterStake s v)
  + VoterStake.pendingStake (voterStake s v)
  <= cumulativeActiveStake s + cumulativePendingStake s.
Proof.
  intros [-> ->].
  pose proof (sum_of_ge VoterStake.activeStake s v eq_refl).
  pose proof (sum_of_ge VoterStake.pendingStake s v eq_refl). lia.
Qed.

Lemma share_le_emitted staked total emitted :
  staked <= total ->
  staked * (emitted * SCALE / total) / SCALE <= emitted.
Proof.
  intros Hle. destruct (N.eq_dec total 0) as [->|Hnz].
  - assert (staked = 0) as -> by lia. simpl. apply N.le_0_l.
  - transitivity (emitted * SCALE / SCALE).
    + apply N.Div0.div_le_mono.
      transitivity (total * (emitted * SCALE / total)).
      * by apply N.mul_le_mono_r.
      * by apply N.Div0.mul_div_le.
    + rewrite N.div_mul by apply SCALE_nonzero. done.
Qed.

(** X7. A voter is never credited more than was emitted: in a reachable
    storage, for a voter whose snapshot is the stored accumulator, the
    rewards [outstandingRewards] reports exceed the recorded ones by at
    most the emission rate times the time elapsed since the last
    update. *)
Theorem accrual_is_bounded_by_emission :
  forall (e : Env) (voter : address) (s : Staker) (rewards : uint256),
    reachable s ->
    VoterStake.rewardsPaidPerToken (voterStake s voter)
    = rewardPerTokenStored s ->
    outstandingRewards e voter s = Ok rewards ->
    VoterStake.outstandingRewards (voterStake s voter) <= rewards
    /\ rewards
       <= VoterStake.outstandingRewards (voterStake s voter)
          + (currentTime e - lastUpdateTime s) * emissionRate s.
Proof.
  intros e v s r Hs Hpaid H.
  apply invariant_reachable in Hs.
  pose proof (stake_le_cumulative s v Hs) as Hle.
  unfold outstandingRewards, getVoterStake in H.
  apply rbind_ok in H as (staked & Hst & H).
  apply rbind_ok in H as (rpt & Hrpt & H).
  apply checked_add_ok in Hst as [_ ->]. minv.
  split; [apply N.le_add_l|].
  rewrite N.add_comm. apply N.add_le_mono_l.
  rewrite Hpaid. unfold rewardPerToken, getCumulativeStake in Hrpt.
  apply rbind_ok in Hrpt as (total & Ht & Hrpt).
  apply checked_add_ok in Ht as [_ ->].
  destruct (_ =? 0); minv.
  - rewrite N.sub_diag, N.mul_0_r, N.Div0.div_0_l. apply N.le_0_l.
  - rewrite (N.add_comm (rewardPerTokenStored s)), N.add_sub.
    by apply share_le_emitted.
Qed.

(** ** The unstake request *)

Lemma frame_exec e v op s s' :
  exec e v op s = Ok (tt, s') ->
  forall w, w <> v -> voterStake s' w = voterStake s w.
Proof.
  intros H w Hw. destruct op; simpl in H.
  - by apply (frame_stake e v amount).
  - by apply (frame_requestUnstake e v amount).
  - by apply (frame_executeUnstake e v).
  - apply bind_ok in H as (r & s1 & H & Hret). apply ret_ok in Hret as [_ ->].
    by apply (frame_withdrawRewards e v r).
  - apply exit_runs in H as (s1 & r & H1 & H2).
    rewrite (frame_withdrawRewards _ _ _ _ _ H2 w Hw).
    by apply (frame_executeUnstake e v).
  - by apply (frame_setEmissionRate e v _emissionRate).
  - by apply (frame_setUnstakeCoolDown v _unstakeCoolDown).
Qed.

Lemma request_updateTrackers e v s s1 w :
  _updateTrackers e v s = Ok (tt, s1) ->
  unstake_request s1 w = unstake_request s w.
Proof.
  intros H. apply _updateTrackers_spec in H. destruct H.
  unfold unstake_request. destruct (N.eq_dec w v) as [->|Hw].
  - congruence.
  - by rewrite (tu_others0 w Hw).
Qed.

Lemma request_stake_indexed e v s w :
  unstake_request (stake_indexed e v s) w = unstake_request s w.
Proof.
  unfold unstake_request, stake_indexed. destruct (_ =? 0); [|done].
  destruct (N.eq_dec v w) as [->|Hne]; by ssimpl.
Qed.

Lemma request_stake e v amount s s' w :
  stake e v amount s = Ok (tt, s') ->
  unstake_request s' w = unstake_request s w.
Proof.
  intros H. apply stake_effect in H as (s1 & Ht & -> & _).
  rewrite <- (request_stake_indexed e v s w),
    <- (request_updateTrackers _ _ _ _ w Ht).
  unfold unstake_request, stake_deposited.
  destruct (inActiveReveal e); destruct (N.eq_dec v w) as [->|Hne]; by ssimpl.
Qed.

Lemma request_withdrawRewards e v r s s' w :
  withdrawRewards e v s = Ok (r, s') ->
  unstake_request s' w = unstake_request s w.
Proof.
  intros H. apply withdrawRewards_effect in H as (s1 & Ht & ->).
  rewrite <- (request_updateTrackers _ _ _ _ w Ht).
  unfold unstake_request, rewards_withdrawn.
  destruct (0 <? _); destruct (N.eq_dec v w) as [->|Hne]; by ssimpl.
Qed.

Lemma request_exec e v op s s' w :
  exec e v op s = Ok (tt, s') ->
  (v = w -> unstakes op = false) ->
  unstake_request s' w = unstake_request s w.
Proof.
  intros H Hop. destruct (N.eq_dec v w) as [Heq|Hne].
  - specialize (Hop Heq). destruct op; try discriminate; simpl in H.
    + by apply (request_stake e v amount).
    + apply bind_ok in H as (r & s1 & H & Hret).
      apply ret_ok in Hret as [_ ->]. by apply (request_withdrawRewards e v r).
    + unfold unstake_request.
      by rewrite (frame_setEmissionRate _ _ _ _ _ H).
    + unfold unstake_request.
      by rewrite (frame_setUnstakeCoolDown _ _ _ _ H).
  - unfold unstake_request. rewrite (frame_exec _ _ _ _ _ H); [done|].
    congruence.
Qed.

Lemma request_run_txs v txs s :
  Forall (leaves_request v) txs ->
  unstake_request (run_txs txs s) v = unstake_request s v.
Proof.
  intros Htxs. revert s.
  induction Htxs as [|tx txs Htx _ IH]; intros s; simpl; [done|].
  rewrite IH. unfold run_tx.
  destruct (exec _ _ _ s) as [[[] s']|x] eqn:H; [|done].
  by apply (request_exec _ _ _ _ _ _ H).
Qed.

(** X8. A voter's unstake request -- [pendingUnstake] and
    [unstakeRequestTime] -- is written by nothing but the voter's own
    [requestUnstake], [executeUnstake] and [exit]: every sequence of other
    transactions, the voter's own stakes and withdrawals and the owner's
    settings included, leaves both fields as they were. *)
Theorem unstake_request_is_kept :
  forall (voter : address) (txs : list Tx) (s : Staker),
    Forall (leaves_request voter) txs ->
    VoterStake.pendingUnstake (voterStake (run_txs txs s) voter)
    = VoterStake.pendingUnstake (voterStake s voter)
    /\ VoterStake.unstakeRequestTime (voterStake (run_txs txs s) voter)
       = VoterStake.unstakeRequestTime (voterStake s voter).
Proof.
  intros v txs s Htxs.
  pose proof (request_run_txs v txs s Htxs) as H.
  unfold unstake_request in H. by injection H.
Qed.

Lemma executeUnstake_sends e v s s2 :
  executeUnstake e v s = Ok (tt, s2) ->
  token_calls (trace s2)
  = (if VoterStake.pendingUnstake (voterStake s v) =? 0 then []
     else [Transfer v (VoterStake.pendingUnstake (voterStake s v))])
    ++ token_calls (trace s)
  /\ VoterStake.pendingUnstake (voterStake s2 v) = 0
  /\ cooldown_elapsed e v s.
Proof.
  intros H.
  assert (Hc : cooldown_elapsed e v s).
  { unfold cooldown_elapsed.
    destruct (N.eq_dec (VoterStake.unstakeRequestTime (voterStake s v)) 0)
      as [Hz|Hz];
      [|destruct (N.le_gt_cases
          (VoterStake.unstakeRequestTime (voterStake s v) + unstakeCoolDown s)
          (currentTime e)) as [Hle|Hgt]; [done|]].
    all: exfalso;
      assert (Hn : ~ cooldown_elapsed e v s)
        by (unfold cooldown_elapsed; lia);
      apply (executeUnstake_needs_cooldown e v s) in Hn;
      by rewrite H in Hn. }
  apply executeUnstake_effect in H as (s1 & Ht & ->).
  apply _updateTrackers_spec in Ht. destruct Ht.
  unfold unstake_executed. rewrite tu_pendingUnstake0.
  destruct (N.eqb_spec (VoterStake.pendingUnstake (voterStake s v)) 0)
    as [Hz|Hz].
  - rewrite Hz. change (0 <? 0) with false. cbv iota zeta. ssimpl.
    repeat split; [congruence|congruence|apply Hc|apply Hc].
  - destruct (N.ltb_spec 0 (VoterStake.pendingUnstake (voterStake s v)));
      [|lia].
    cbv iota zeta. ssimpl. rewrite tu_calls0. by repeat split; try apply Hc.
Qed.

(** X9. What is sent is what was requested: when a [requestUnstake] of
    [amount] has executed and, after any transactions that are not the
    voter's own unstaking, the voter's [executeUnstake] executes, it asks
    the token for exactly one transfer, of [amount], to the voter (none
    when [amount] is zero) and clears the pending amount; and it executes
    only if the request was made at a nonzero time and the cooldown then in
    force has elapsed since. *)
Theorem requested_amount_is_sent :
  forall (e e' : Env) (voter : address) (amount : uint256) (txs : list Tx)
         (s s1 s3 : Staker),
    requestUnstake e voter amount s = Ok (tt, s1) ->
    Forall (leaves_request voter) txs ->
    executeUnstake e' voter (run_txs txs s1) = Ok (tt, s3) ->
    token_calls (trace s3)
    = (if amount =? 0 then [] else [Transfer voter amount])
      ++ token_calls (trace (run_txs txs s1))
    /\ VoterStake.pendingUnstake (voterStake s3 voter) = 0
    /\ currentTime e <> 0
    /\ currentTime e + unstakeCoolDown (run_txs txs s1) <= currentTime e'.
Proof.
  intros e e' v amount txs s s1 s3 Hreq Htxs Hexe.
  apply requestUnstake_stamps in Hreq as [Htime Hamount].
  pose proof (request_run_txs v txs s1 Htxs) as Hkept.
  unfold unstake_request in Hkept. injection Hkept as Hp Ht.
  apply executeUnstake_sends in Hexe as (Hcalls & Hzero & Hc).
  unfold cooldown_elapsed in Hc.
  rewrite Hp, Hamount in Hcalls. rewrite Ht, Htime in Hc.
  by repeat split; try apply Hc.
Qed.

Lemma stuck_requestUnstake e v amount s s' :
  requestUnstake e v amount s = Ok (tt, s') ->
  VoterStake.pendingUnstake (voterStake s v) = 0.
Proof.
  intros H. apply requestUnstake_effect in H as (_ & s1 & Ht & _ & _ & _ & Hp).
  apply _updateTrackers_spec in Ht. destruct Ht. congruence.
Qed.

Lemma stuck_executeUnstake e v s s' :
  executeUnstake e v s = Ok (tt, s') ->
  VoterStake.unstakeRequestTime (voterStake s v) <> 0.
Proof. intros H. by apply executeUnstake_sends in H as (_ & _ & [? _]). Qed.

Lemma stuck_exec e v op s s' w :
  VoterStake.pendingUnstake (voterStake s w) <> 0 ->
  VoterStake.unstakeRequestTime (voterStake s w) = 0 ->
  exec e v op s = Ok (tt, s') ->
  unstake_request s' w = unstake_request s w.
Proof.
  intros Hp Ht H. apply (request_exec _ _ _ _ _ _ H).
  intros <-. destruct op; try done; simpl in H; exfalso.
  - by apply stuck_requestUnstake in H.
  - by apply stuck_executeUnstake in H.
  - apply exit_runs in H as (s1 & r & H & _).
    by apply stuck_executeUnstake in H.
Qed.

Lemma stuck_run_txs v txs s :
  VoterStake.pendingUnstake (voterStake s v) <> 0 ->
  VoterStake.unstakeRequestTime (voterStake s v) = 0 ->
  unstake_request (run_txs txs s) v = unstake_request s v.
Proof.
  revert s. induction txs as [|tx txs IH]; intros s Hp Ht; simpl; [done|].
  assert (Hstep : unstake_request
                    (run_tx (tx_env tx) (tx_sender tx) (tx_op tx) s) v
                  = unstake_request s v).
  { unfold run_tx. destruct (exec _ _ _ s) as [[[] s']|x] eqn:H; [|done].
    by apply (stuck_exec _ _ _ _ _ _ Hp Ht H). }
  unfold unstake_request in Hstep. injection Hstep as Hp' Ht'.
  rewrite IH; [|congruence|congruence].
  unfold unstake_request. congruence.
Qed.

(** X10. A nonzero unstake request stamped with time [0] can never be
    executed nor replaced: whatever transactions follow, the amount stays
    in [pendingUnstake], the stamp stays [0], and the voter's
    [executeUnstake], [exit] and [requestUnstake] revert. *)
Theorem request_stamped_zero_is_stuck :
  forall (voter : address) (s : Staker),
    VoterStake.pendingUnstake (voterStake s voter) <> 0 ->
    VoterStake.unstakeRequestTime (voterStake s voter) = 0 ->
    forall (txs : list Tx),
      let s' := run_txs txs s in
      VoterStake.pendingUnstake (voterStake s' voter)
      = VoterStake.pendingUnstake (voterStake s voter)
      /\ VoterStake.unstakeRequestTime (voterStake s' voter) = 0
      /\ forall (e : Env) (amount : uint256),
           is_err (executeUnstake e voter s')
           /\ is_err (exit e voter s')
           /\ is_err (requestUnstake e voter amount s').
Proof.
  intros v s Hp Ht txs s'.
  pose proof (stuck_run_txs v txs s Hp Ht) as H.
  unfold unstake_request in H. injection H as Hp' Ht'. fold s' in Hp', Ht'.
  split; [done|]. split; [congruence|].
  intros e amount. repeat split.
  - destruct (executeUnstake e v s') as [[[] s2]|x] eqn:H; [|done].
    apply stuck_executeUnstake in H. congruence.
  - destruct (exit e v s') as [[[] s2]|x] eqn:H; [|done].
    apply exit_runs in H as (s1 & r & H & _).
    apply stuck_executeUnstake in H. congruence.
  - destruct (requestUnstake e v amount s') as [[[] s2]|x] eqn:H; [|done].
    apply stuck_requestUnstake in H. congruence.
Qed.

(** ** Calls that cannot settle *)

Lemma rewardPerToken_stake_indexed e v s :
  rewardPerToken e (stake_indexed e v s) = rewardPerToken e s.
Proof.
  unfold stake_indexed. destruct (_ =? 0); [|done].
  unfold rewardPerToken, getCumulativeStake. by ssimpl.
Qed.

Lemma exec_settles e v op s s' :
  exec e v op s = Ok (tt, s') ->
  updates_reward op = true ->
  (exists perToken, rewardPerToken e s = Ok perToken)
  /\ lastUpdateTime s' = currentTime e.
Proof.
  intros H Hop. destruct op; try discriminate; simpl in H.
  - apply stake_effect in H as (s1 & Ht & -> & _).
    apply _updateTrackers_spec in Ht. destruct Ht.
    rewrite rewardPerToken_stake_indexed in tu_perToken0.
    split; [eauto|]. closed_forms; ssimpl; auto.
  - apply requestUnstake_effect in H as (_ & s1 & Ht & -> & _).
    apply _updateTrackers_spec in Ht. destruct Ht.
    split; [eauto|]. closed_forms; ssimpl; auto.
  - apply executeUnstake_effect in H as (s1 & Ht & ->).
    apply _updateTrackers_spec in Ht. destruct Ht.
    split; [eauto|]. closed_forms; ssimpl; auto.
  - apply bind_ok in H as (r & s2 & H & Hret). apply ret_ok in Hret as [_ ->].
    apply withdrawRewards_effect in H as (s1 & Ht & ->).
    apply _updateTrackers_spec in Ht. destruct Ht.
    split; [eauto|]. closed_forms; ssimpl; auto.
  - apply exit_runs in H as (s2 & r & H1 & H2).
    apply executeUnstake_effect in H1 as (s1 & Ht & ->).
    apply withdrawRewards_effect in H2 as (s3 & Ht' & ->).
    apply _updateTrackers_spec in Ht, Ht'. destruct Ht as [T1 T2].
    destruct Ht' as [T1' T2'].
    split; [eauto|]. closed_forms; ssimpl; auto.
  - apply setEmissionRate_effect in H as (s1 & Hu & ->).
    apply _updateReward_nobody in Hu as (Hp & Htime & _).
    split; [eauto|]. by simpl.
Qed.

Lemma same_stakes_run_txs s txs :
  MAX_UINT256 < cumulativeActiveStake s + cumulativePendingStake s ->
  same_stakes s (run_txs txs s).
Proof.
  intros Hover.
  assert (Hstep : forall e v op s1,
    same_stakes s s1 -> same_stakes s (run_tx e v op s1)).
  { intros e v op s1 Hs1. unfold run_tx.
    destruct (exec e v op s1) as [[[] s2]|x] eqn:H; [|done].
    destruct (updates_reward op) eqn:Hop.
    - exfalso. destruct (exec_settles _ _ _ _ _ H Hop) as [(rpt & Hrpt) _].
      apply getCumulativeStake_of_rewardPerToken in Hrpt.
      destruct Hs1 as (HA & HP & _). lia.
    - destruct op; try discriminate. simpl in H.
      apply setUnstakeCoolDown_effect in H as ->. exact Hs1. }
  assert (Hgen : forall s1, same_stakes s s1 -> same_stakes s (run_txs txs s1)).
  { induction txs as [|tx txs IH]; intros s1 Hs1; simpl; [done|].
    apply IH, Hstep, Hs1. }
  apply Hgen. by repeat split.
Qed.

(** X11. Should the two cumulative stakes ever add up to more than
    [2^256 - 1], the ledger is locked for good: every entry point other
    than [setUnstakeCoolDown] reverts, and no sequence of transactions
    changes a voter's record, a cumulative stake or the token calls
    made. *)
Theorem overflowed_totals_lock_the_ledger :
  forall (s : Staker),
    MAX_UINT256 < cumulativeActiveStake s + cumulativePendingStake s ->
    (forall (e : Env) (sender : address) (op : Op),
        updates_reward op = true -> is_err (exec e sender op s))
    /\ forall (txs : list Tx), same_stakes s (run_txs txs s).
Proof.
  intros s Hover. split.
  - intros e v op Hop.
    destruct (exec e v op s) as [[[] s']|x] eqn:H; [|done].
    destruct (exec_settles _ _ _ _ _ H Hop) as [(rpt & Hrpt) _].
    apply getCumulativeStake_of_rewardPerToken in Hrpt. lia.
  - intros txs. by apply same_stakes_run_txs.
Qed.

Lemma rewardPerToken_needs_time e s perToken :
  rewardPerToken e s = Ok perToken ->
  cumulativeActiveStake s + cumulativePendingStake s <> 0 ->
  lastUpdateTime s <= currentTime e.
Proof.
  unfold rewardPerToken, getCumulativeStake. intros H Hnz.
  apply rbind_ok in H as (total & Ht & H).
  apply checked_add_ok in Ht as [_ ->].
  destruct (N.eqb_spec (cumulativeActiveStake s + cumulativePendingStake s) 0);
    [done|].
  apply rbind_ok in H as (elapsed & H & _).
  by apply checked_sub_ok in H as [? _].
Qed.

(** X12. Every executed call other than [setUnstakeCoolDown] stamps
    [lastUpdateTime] with the current time; and while any stake is on
    record such a call cannot execute at a time earlier than the last
    update. *)
Theorem calls_follow_the_clock :
  forall (e : Env) (sender : address) (op : Op) (s s' : Staker),
    exec e sender op s = Ok (tt, s') ->
    updates_reward op = true ->
    lastUpdateTime s' = currentTime e
    /\ (cumulativeActiveStake s + cumulativePendingStake s <> 0 ->
        lastUpdateTime s <= currentTime e).
Proof.
  intros e v op s s' H Hop.
  destruct (exec_settles _ _ _ _ _ H Hop) as [(rpt & Hrpt) Htime].
  split; [done|]. by apply (rewardPerToken_needs_time e s rpt).
Qed.

(** ** Rewards on record *)

Lemma outstandingRewards_ge e v s r :
  outstandingRewards e v s = Ok r ->
  VoterStake.outstandingRewards (voterStake s v) <= r.
Proof.
  unfold outstandingRewards. intros H.
  apply rbind_ok in H as (staked & _ & H).
  apply rbind_ok in H as (rpt & _ & H). minv. apply N.le_add_l.
Qed.

Lemma recorded_updateTrackers e v s s1 w :
  _updateTrackers e v s = Ok (tt, s1) ->
  VoterStake.outstandingRewards (voterStake s w)
  <= VoterStake.outstandingRewards (voterStake s1 w).
Proof.
  intros H. apply _updateTrackers_spec in H. destruct H.
  destruct (N.eq_dec w v) as [->|Hw]; [|by rewrite (tu_others0 w Hw)].
  destruct (N.eq_dec v 0) as [Hz|Hz].
  - destruct (tu_unsettled0 Hz) as [_ ->]. done.
  - destruct (tu_settled0 Hz) as [_ Hview].
    by apply (outstandingRewards_ge e v s).
Qed.

Lemma recorded_stake_indexed e v s w :
  VoterStake.outstandingRewards (voterStake (stake_indexed e v s) w)
  = VoterStake.outstandingRewards (voterStake s w).
Proof.
  unfold stake_indexed. destruct (_ =? 0); [|done].
  destruct (N.eq_dec v w) as [->|Hne]; by ssimpl.
Qed.

Lemma recorded_exec e v op s s' w :
  exec e v op s = Ok (tt, s') ->
  (w = v -> withdraws op = false) ->
  VoterStake.outstandingRewards (voterStake s w)
  <= VoterStake.outstandingRewards (voterStake s' w).
Proof.
  intros H Hop. destruct (N.eq_dec w v) as [Heq|Hne].
  2:{ by rewrite (frame_exec _ _ _ _ _ H w Hne). }
  specialize (Hop Heq). destruct op; try discriminate; simpl in H.
  - apply stake_effect in H as (s1 & Ht & -> & _).
    rewrite <- (recorded_stake_indexed e v s w).
    etransitivity; [exact (recorded_updateTrackers _ _ _ _ w Ht)|].
    unfold stake_deposited.
    destruct (inActiveReveal e); destruct (N.eq_dec v w) as [->|?];
      by ssimpl.
  - apply requestUnstake_effect in H as (_ & s1 & Ht & -> & _).
    etransitivity; [exact (recorded_updateTrackers _ _ _ _ w Ht)|].
    unfold unstake_requested.
    destruct (N.eq_dec v w) as [->|?]; by ssimpl.
  - apply executeUnstake_effect in H as (s1 & Ht & ->).
    etransitivity; [exact (recorded_updateTrackers _ _ _ _ w Ht)|].
    unfold unstake_executed.
    destruct (0 <? _); destruct (N.eq_dec v w) as [->|?]; by ssimpl.
  - by rewrite (frame_setEmissionRate _ _ _ _ _ H).
  - by rewrite (frame_setUnstakeCoolDown _ _ _ _ H).
Qed.

(** X13. Rewards on record are never lost: an executed call leaves every
    voter's [outstandingRewards] field at least as large as it was, except
    that [withdrawRewards] and [exit] leave the caller's at zero. *)
Theorem recorded_rewards_only_leave_by_withdrawal :
  forall (e : Env) (sender : address) (op : Op) (s s' : Staker),
    exec e sender op s = Ok (tt, s') ->
    (forall voter,
        (voter = sender -> withdraws op = false) ->
        VoterStake.outstandingRewards (voterStake s voter)
        <= VoterStake.outstandingRewards (voterStake s' voter))
    /\ (withdraws op = true ->
        VoterStake.outstandingRewards (voterStake s' sender) = 0).
Proof.
  intros e v op s s' H. split.
  - intros w Hw. by apply (recorded_exec e v op).
  - intros Hop. destruct op; try discriminate; simpl in H.
    + apply bind_ok in H as (r & s2 & H & Hret).
      apply ret_ok in Hret as [_ ->].
      apply withdrawRewards_effect in H as (s1 & _ & ->).
      apply rewards_withdrawn_zero.
    + apply exit_runs in H as (s2 & r & _ & H).
      apply withdrawRewards_effect in H as (s1 & _ & ->).
      apply rewards_withdrawn_zero.
Qed.

(** ** The views over time *)

Lemma rewardPerToken_mono e1 e2 s a b :
  currentTime e1 <= currentTime e2 ->
  rewardPerToken e1 s = Ok a -> rewardPerToken e2 s = Ok b -> a <= b.
Proof.
  unfold rewardPerToken, getCumulativeStake. intros Hle H1 H2.
  apply rbind_ok in H1 as (total & Ht & H1). rewrite Ht in H2.
  cbn [rbind] in H2.
  destruct (total =? 0); minv; [lia|].
  apply N.add_le_mono_l, N.Div0.div_le_mono.
  repeat apply N.mul_le_mono_r. by apply N.sub_le_mono_r.
Qed.

(** X14. On a given storage the two views never go down as time goes on:
    of two results of [rewardPerToken], and of two results of
    [outstandingRewards] for the same voter, the one read at the later
    time is at least the other. *)
Theorem views_grow_with_time :
  forall (e1 e2 : Env) (s : Staker),
    currentTime e1 <= currentTime e2 ->
    (forall perToken1 perToken2,
        rewardPerToken e1 s = Ok perToken1 ->
        rewardPerToken e2 s = Ok perToken2 ->
        perToken1 <= perToken2)
    /\ (forall voter rewards1 rewards2,
           outstandingRewards e1 voter s = Ok rewards1 ->
           outstandingRewards e2 voter s = Ok rewards2 ->
           rewards1 <= rewards2).
Proof.
  intros e1 e2 s Hle. split.
  - intros a b. by apply rewardPerToken_mono.
  - intros v r1 r2 H1 H2. unfold outstandingRewards in *.
    apply rbind_ok in H1 as (staked & Hst & H1). rewrite Hst in H2.
    cbn [rbind] in H2.
    apply rbind_ok in H1 as (a & Ha & H1).
    apply rbind_ok in H2 as (b & Hb & H2).
    pose proof (rewardPerToken_mono _ _ _ _ _ Hle Ha Hb). minv.
    apply N.add_le_mono_r, N.Div0.div_le_mono, N.mul_le_mono_l.
    by apply N.sub_le_mono_r.
Qed.

(** ** Fields that are never, or seldom, written *)

Lemma delegateToStaker_updateTrackers e v s s1 :
  _updateTrackers e v s = Ok (tt, s1) ->
  delegateToStaker s1 = delegateToStaker s.
Proof.
  unfold _updateTrackers, _updateReward, _updateActiveStake. intros H.
  minv; by ssimpl.
Qed.

Lemma delegation_updateTrackers e v s s1 :
  _updateTrackers e v s = Ok (tt, s1) ->
  no_delegation s -> no_delegation s1.
Proof.
  intros H [Hmap Hs]. split.
  - by rewrite (delegateToStaker_updateTrackers _ _ _ _ H).
  - intros w. apply _updateTrackers_spec in H. destruct H.
    destruct (N.eq_dec w v) as [->|Hw]; [|rewrite (tu_others0 w Hw)];
      congruence.
Qed.

Lemma delegation_stake_indexed e v s :
  no_delegation s -> no_delegation (stake_indexed e v s).
Proof.
  intros [Hmap Hs]. unfold stake_indexed. destruct (_ =? 0); [|done].
  split; [by ssimpl|]. intros w. specialize (Hs w).
  destruct (N.eq_dec v w) as [->|?]; by ssimpl.
Qed.

Ltac delegation_tac v :=
  let Hmap := fresh "Hmap" in let Hs := fresh "Hs" in let w := fresh "w" in
  intros [Hmap Hs]; split;
  [ closed_forms; by ssimpl
  | intros w; specialize (Hs w);
    destruct (N.eq_dec v w) as [->|?]; closed_forms; by ssimpl ].

Lemma delegation_run_txs txs s :
  no_delegation s -> no_delegation (run_txs txs s).
Proof.
  apply run_txs_preserves.
  - intros e v amount s0 s' H Hs0. apply stake_effect in H as (s1 & Ht & -> & _).
    apply (delegation_stake_indexed e v) in Hs0.
    apply (delegation_updateTrackers _ _ _ _ Ht) in Hs0. revert Hs0.
    delegation_tac v.
  - intros e v amount s0 s' H Hs0.
    apply requestUnstake_effect in H as (_ & s1 & Ht & -> & _).
    apply (delegation_updateTrackers _ _ _ _ Ht) in Hs0. revert Hs0.
    delegation_tac v.
  - intros e v s0 s' H Hs0. apply executeUnstake_effect in H as (s1 & Ht & ->).
    apply (delegation_updateTrackers _ _ _ _ Ht) in Hs0. revert Hs0.
    delegation_tac v.
  - intros e v r s0 s' H Hs0.
    apply withdrawRewards_effect in H as (s1 & Ht & ->).
    apply (delegation_updateTrackers _ _ _ _ Ht) in Hs0. revert Hs0.
    delegation_tac v.
  - intros e v r s0 s' H [Hmap Hs0].
    pose proof (frame_setEmissionRate _ _ _ _ _ H) as Hframe.
    apply setEmissionRate_effect in H as (s1 & Hu & ->).
    apply _updateReward_nobody in Hu as (_ & _ & _ & _ & _ & _ & _ & Hd & _).
    split; [simpl; congruence|]. intros w. by rewrite Hframe.
  - intros v c s0 s' H [Hmap Hs0].
    apply setUnstakeCoolDown_effect in H as ->. split; [done|].
    intros w. by ssimpl.
Qed.

(** X15. Delegation is declared but never used: in every storage the
    ledger can reach, [delegateToStaker] is empty and every voter's
    [delegate] is the zero address. *)
Theorem delegation_is_never_recorded :
  forall (s : Staker),
    reachable s ->
    delegateToStaker s = ∅
    /\ forall voter, VoterStake.delegate (voterStake s voter) = 0.
Proof.
  intros s (r & c & d & txs & ->).
  apply (delegation_run_txs txs (constructor r c d)). by split.
Qed.

Lemma index_updateTrackers e v s s1 w :
  _updateTrackers e v s = Ok (tt, s1) ->
  VoterStake.lastRequestIndexConsidered (voterStake s1 w)
  = VoterStake.lastRequestIndexConsidered (voterStake s w).
Proof.
  intros H. apply _updateTrackers_spec in H. destruct H.
  destruct (N.eq_dec w v) as [->|Hw]; [done|by rewrite (tu_others0 w Hw)].
Qed.

Lemma index_stake_indexed e v s w :
  VoterStake.lastRequestIndexConsidered (voterStake (stake_indexed e v s) w)
  = if (w =? v) && (balance_before_stake s v =? 0) then startingIndex e
    else VoterStake.lastRequestIndexConsidered (voterStake s w).
Proof.
  unfold stake_indexed, balance_before_stake.
  destruct (N.eqb_spec w v) as [->|Hw]; destruct (_ =? 0); simpl; try done.
  - by ssimpl.
  - rewrite voterStake_write_ne; [done|congruence].
Qed.

(** X16. [lastRequestIndexConsidered] is written in one place only: an
    executed [stake] by a voter whose balance test
    [getVoterStake + pendingStake == 0] holds sets the voter's index to
    the starting index; every other executed call, and that call for every
    other voter, leaves the index as it was. *)
Theorem request_index_is_set_by_first_stake :
  forall (e : Env) (sender : address) (op : Op) (s s' : Staker),
    exec e sender op s = Ok (tt, s') ->
    forall voter,
      VoterStake.lastRequestIndexConsidered (voterStake s' voter)
      = if stakes op && (voter =? sender)
           && (balance_before_stake s sender =? 0)
        then startingIndex e
        else VoterStake.lastRequestIndexConsidered (voterStake s voter).
Proof.
  intros e v op s s' H w. destruct op; simpl in H; cbn [stakes andb].
  - apply stake_effect in H as (s1 & Ht & -> & _).
    rewrite <- (index_stake_indexed e v s w),
      <- (index_updateTrackers _ _ _ _ w Ht).
    unfold stake_deposited.
    destruct (inActiveReveal e); destruct (N.eq_dec v w) as [->|?]; by ssimpl.
  - apply requestUnstake_effect in H as (_ & s1 & Ht & -> & _).
    rewrite <- (index_updateTrackers _ _ _ _ w Ht). simpl.
    unfold unstake_requested. destruct (N.eq_dec v w) as [->|?]; by ssimpl.
  - apply executeUnstake_effect in H as (s1 & Ht & ->).
    rewrite <- (index_updateTrackers _ _ _ _ w Ht). simpl.
    unfold unstake_executed.
    destruct (0 <? _); destruct (N.eq_dec v w) as [->|?]; by ssimpl.
  - apply bind_ok in H as (r & s2 & H & Hret). apply ret_ok in Hret as [_ ->].
    apply withdrawRewards_effect in H as (s1 & Ht & ->).
    rewrite <- (index_updateTrackers _ _ _ _ w Ht). simpl.
    unfold rewards_withdrawn.
    destruct (0 <? _); destruct (N.eq_dec v w) as [->|?]; by ssimpl.
  - apply exit_runs in H as (s2 & r & H1 & H2).
    apply executeUnstake_effect in H1 as (s1 & Ht & ->).
    apply withdrawRewards_effect in H2 as (s3 & Ht' & ->).
    rewrite <- (index_updateTrackers _ _ _ _ w Ht). simpl.
    transitivity (VoterStake.lastRequestIndexConsidered
                    (voterStake (unstake_executed e v s1) w)).
    + rewrite <- (index_updateTrackers _ _ _ _ w Ht').
      unfold rewards_withdrawn.
      destruct (0 <? _); destruct (N.eq_dec v w) as [->|?]; by ssimpl.
    + unfold unstake_executed.
      destruct (0 <? _); destruct (N.eq_dec v w) as [->|?]; by ssimpl.
  - simpl. by rewrite (frame_setEmissionRate _ _ _ _ _ H).
  - simpl. by rewrite (frame_setUnstakeCoolDown _ _ _ _ H).
Qed.

(** ** Voting stake *)

Lemma votes_updateTrackers e v s s1 :
  _updateTrackers e v s = Ok (tt, s1) ->
  VoterStake.activeStake (voterStake s1 v)
  + VoterStake.pendingStake (voterStake s1 v)
  = VoterStake.activeStake (voterStake s v)
    + VoterStake.pendingStake (voterStake s v).
Proof.
  intros H. apply _updateTrackers_spec in H. destruct H.
  assert (promoted e s v <= VoterStake.pendingStake (voterStake s v))
    by (unfold promoted; destruct (inActiveReveal e); lia).
  lia.
Qed.

(** X17. Voting stake enters by [stake] and leaves by [requestUnstake]
    only, whatever the phase: an executed call changes the sum of the two
    cumulative stakes, and the sum of the caller's active and pending
    stake, by exactly the amount staked or the amount requested, and by
    nothing otherwise. *)
Theorem voting_stake_moves_by_the_amount :
  forall (e : Env) (sender : address) (op : Op) (s s' : Staker),
    exec e sender op s = Ok (tt, s') ->
    cumulativeActiveStake s' + cumulativePendingStake s' + unstaked_by op
    = cumulativeActiveStake s + cumulativePendingStake s + staked_by op
    /\ VoterStake.activeStake (voterStake s' sender)
       + VoterStake.pendingStake (voterStake s' sender) + unstaked_by op
       = VoterStake.activeStake (voterStake s sender)
         + VoterStake.pendingStake (voterStake s sender) + staked_by op.
Proof.
  intros e v op s s' H. destruct op; simpl in H; cbn [staked_by unstaked_by].
  - apply stake_effect in H as (s1 & Ht & -> & _).
    pose proof (cumulative_updateTrackers _ _ _ _ Ht) as Hc.
    pose proof (votes_updateTrackers _ _ _ _ Ht) as Hv.
    destruct (stake_indexed_voter e v s v) as (Ha & Hp & HcA & HcP & _).
    rewrite Ha, Hp in Hv. rewrite HcA, HcP in Hc.
    unfold stake_deposited. destruct (inActiveReveal e); ssimpl; lia.
  - apply requestUnstake_effect in H as (_ & s1 & Ht & -> & Hle & Hle' & _).
    pose proof (cumulative_updateTrackers _ _ _ _ Ht) as Hc.
    pose proof (votes_updateTrackers _ _ _ _ Ht) as Hv.
    unfold unstake_requested. ssimpl. lia.
  - apply executeUnstake_effect in H as (s1 & Ht & ->).
    pose proof (cumulative_updateTrackers _ _ _ _ Ht) as Hc.
    pose proof (votes_updateTrackers _ _ _ _ Ht) as Hv.
    unfold unstake_executed. destruct (0 <? _); ssimpl; lia.
  - apply bind_ok in H as (r & s2 & H & Hret). apply ret_ok in Hret as [_ ->].
    apply withdrawRewards_effect in H as (s1 & Ht & ->).
    pose proof (cumulative_updateTrackers _ _ _ _ Ht) as Hc.
    pose proof (votes_updateTrackers _ _ _ _ Ht) as Hv.
    unfold rewards_withdrawn. destruct (0 <? _); ssimpl; lia.
  - apply exit_runs in H as (s2 & r & H1 & H2).
    apply executeUnstake_effect in H1 as (s1 & Ht & ->).
    apply withdrawRewards_effect in H2 as (s3 & Ht' & ->).
    pose proof (cumulative_updateTrackers _ _ _ _ Ht) as Hc.
    pose proof (votes_updateTrackers _ _ _ _ Ht) as Hv.
    pose proof (cumulative_updateTrackers _ _ _ _ Ht') as Hc'.
    pose proof (votes_updateTrackers _ _ _ _ Ht') as Hv'.
    assert (Hmid :
      cumulativeActiveStake (unstake_executed e v s1)
      + cumulativePendingStake (unstake_executed e v s1)
      = cumulativeActiveStake s1 + cumulativePendingStake s1
      /\ VoterStake.activeStake (voterStake (unstake_executed e v s1) v)
         + VoterStake.pendingStake (voterStake (unstake_executed e v s1) v)
         = VoterStake.activeStake (voterStake s1 v)
           + VoterStake.pendingStake (voterStake s1 v))
      by (unfold unstake_executed; destruct (0 <? _); by ssimpl).
    destruct Hmid as [Hm1 Hm2]. rewrite Hm1 in Hc'. rewrite Hm2 in Hv'.
    clear Ht Ht' Hm1 Hm2.
    unfold rewards_withdrawn. destruct (0 <? _); ssimpl; lia.
  - pose proof (frame_setEmissionRate _ _ _ _ _ H v) as ->.
    apply setEmissionRate_effect in H as (s1 & Hu & ->).
    apply _updateReward_nobody in Hu as (_ & _ & _ & HA & HP & _).
    simpl. lia.
  - pose proof (frame_setUnstakeCoolDown _ _ _ _ H v) as ->.
    apply setUnstakeCoolDown_effect in H as ->. simpl. lia.
Qed.

(** ** Paying out once *)

Lemma executeUnstake_clears e v s s2 :
  executeUnstake e v s = Ok (tt, s2) ->
  VoterStake.pendingUnstake (voterStake s v) <> 0 ->
  VoterStake.unstakeRequestTime (voterStake s2 v) = 0.
Proof.
  intros H Hp. apply executeUnstake_effect in H as (s1 & Ht & ->).
  apply _updateTrackers_spec in Ht. destruct Ht.
  unfold unstake_executed.
  destruct (N.ltb_spec 0 (VoterStake.pendingUnstake (voterStake s1 v)));
    [by ssimpl|lia].
Qed.

(** X18. An unstake is paid out once: after an [executeUnstake] that sent
    a nonzero amount, the voter's [executeUnstake] and [exit] revert, at
    any time and after any transactions that are not the voter's own
    unstaking, until the voter requests again. *)
Theorem unstake_is_paid_once :
  forall (e e' : Env) (voter : address) (txs : list Tx) (s s1 : Staker),
    executeUnstake e voter s = Ok (tt, s1) ->
    VoterStake.pendingUnstake (voterStake s voter) <> 0 ->
    Forall (leaves_request voter) txs ->
    is_err (executeUnstake e' voter (run_txs txs s1))
    /\ is_err (exit e' voter (run_txs txs s1)).
Proof.
  intros e e' v txs s s1 H Hp Htxs.
  pose proof (executeUnstake_clears _ _ _ _ H Hp) as Hz.
  pose proof (request_run_txs v txs s1 Htxs) as Hkept.
  unfold unstake_request in Hkept. injection Hkept as _ Ht.
  rewrite Hz in Ht. split.
  - destruct (executeUnstake e' v _) as [[[] s2]|x] eqn:H2; [|done].
    by apply stuck_executeUnstake in H2.
  - destruct (exit e' v _) as [[[] s2]|x] eqn:H2; [|done].
    apply exit_runs in H2 as (s3 & r & H2 & _).
    by apply stuck_executeUnstake in H2.
Qed.

(** X19. A change of the cooldown, unlike a change of the emission rate,
    applies to the requests already made: once [setUnstakeCoolDown] has
    executed, an [executeUnstake] reverts unless the voter's request time
    is nonzero and the new cooldown has elapsed since that time. *)
Theorem cooldown_change_applies_to_pending_requests :
  forall (sender : address) (_unstakeCoolDown : uint256) (s s1 : Staker),
    setUnstakeCoolDown sender _unstakeCoolDown s = Ok (tt, s1) ->
    forall (e : Env) (voter : address),
      ~ (VoterStake.unstakeRequestTime (voterStake s voter) <> 0
         /\ VoterStake.unstakeRequestTime (voterStake s voter)
            + _unstakeCoolDown <= currentTime e) ->
      is_err (executeUnstake e voter s1).
Proof.
  intros sender c s s1 H e v Hn.
  pose proof (frame_setUnstakeCoolDown _ _ _ _ H v) as Hv.
  apply setUnstakeCoolDown_effect in H as ->.
  apply executeUnstake_needs_cooldown. unfold cooldown_elapsed.
  rewrite Hv. exact Hn.
Qed.

(** * The further properties at work *)

Lemma reachable_staked_ledger : reachable staked_ledger.
Proof. apply reachable_run_txs, reachable_constructor. Qed.

Lemma reachable_requested_ledger : reachable requested_ledger.
Proof. apply reachable_run_txs, reachable_staked_ledger. Qed.

Lemma other_voters_untouched_witness :
  exec (at_time 8 false) 1 (OpRequestUnstake 50) staked_ledger
  = Ok (tt, requested_ledger)
  /\ forall w, w <> 1 -> voterStake requested_ledger w = voterStake staked_ledger w.
Proof.
  assert (H : exec (at_time 8 false) 1 (OpRequestUnstake 50) staked_ledger
              = Ok (tt, requested_ledger)) by (vm_compute; reflexivity).
  split; [exact H|].
  exact (proj1 (other_voters_untouched (at_time 8 false) 1
                  (OpRequestUnstake 50) staked_ledger requested_ledger H)).
Defined.

Lemma accumulator_stands_still_witness :
  currentTime (at_time 5 false) = lastUpdateTime staked_ledger
  /\ rewardPerTokenStored (run_tx (at_time 5 false) 2 (OpStake 1) staked_ledger)
     = rewardPerTokenStored staked_ledger.
Proof.
  assert (H : currentTime (at_time 5 false) = lastUpdateTime staked_ledger)
    by (vm_compute; reflexivity).
  split; [exact H|].
  exact (accumulator_stands_still (at_time 5 false) 2 (OpStake 1)
           staked_ledger (or_introl H)).
Defined.

Lemma settlement_is_idempotent_witness :
  _updateTrackers (at_time 8 false) 1 staked_ledger
  = Ok (tt, settle (at_time 8 false) 1 staked_ledger)
  /\ exists s2,
       _updateTrackers (at_time 8 false) 1
         (settle (at_time 8 false) 1 staked_ledger) = Ok (tt, s2).
Proof.
  assert (H : _updateTrackers (at_time 8 false) 1 staked_ledger
              = Ok (tt, settle (at_time 8 false) 1 staked_ledger))
    by (vm_compute; reflexivity).
  split; [exact H|].
  exact (proj2 (settlement_is_idempotent (at_time 8 false) 1 staked_ledger
                  (settle (at_time 8 false) 1 staked_ledger) H)
               reachable_staked_ledger).
Defined.

Lemma setEmissionRate_is_not_retroactive_witness :
  setEmissionRate (at_time 8 false) 7 3 staked_ledger
  = Ok (tt, run_tx (at_time 8 false) 7 (OpSetEmissionRate 3) staked_ledger)
  /\ rewardPerToken (at_time 8 false)
       (run_tx (at_time 8 false) 7 (OpSetEmissionRate 3) staked_ledger)
     = rewardPerToken (at_time 8 false) staked_ledger.
Proof.
  assert (H : setEmissionRate (at_time 8 false) 7 3 staked_ledger
              = Ok (tt, run_tx (at_time 8 false) 7 (OpSetEmissionRate 3)
                          staked_ledger))
    by (vm_compute; reflexivity).
  split; [exact H|].
  exact (proj1 (setEmissionRate_is_not_retroactive (at_time 8 false) 7 3
                  staked_ledger _ H)).
Defined.

Lemma accrual_is_bounded_by_emission_witness :
  VoterStake.rewardsPaidPerToken (voterStake staked_ledger 1)
  = rewardPerTokenStored staked_ledger
  /\ outstandingRewards (at_time 8 false) 1 staked_ledger = Ok 3
  /\ 3 <= VoterStake.outstandingRewards (voterStake staked_ledger 1)
          + (currentTime (at_time 8 false) - lastUpdateTime staked_ledger)
            * emissionRate staked_ledger.
Proof.
  assert (Hpaid : VoterStake.rewardsPaidPerToken (voterStake staked_ledger 1)
                  = rewardPerTokenStored staked_ledger)
    by (vm_compute; reflexivity).
  assert (H : outstandingRewards (at_time 8 false) 1 staked_ledger = Ok 3)
    by (vm_compute; reflexivity).
  split; [exact Hpaid|]. split; [exact H|].
  exact (proj2 (accrual_is_bounded_by_emission (at_time 8 false) 1
                  staked_ledger 3 reachable_staked_ledger Hpaid H)).
Defined.

Lemma unstake_request_is_kept_witness :
  Forall (leaves_request 1)
    [mkTx (at_time 9 false) 2 (OpStake 5); mkTx (at_time 9 false) 1 (OpStake 5)]
  /\ VoterStake.pendingUnstake
       (voterStake
          (run_txs [mkTx (at_time 9 false) 2 (OpStake 5);
                    mkTx (at_time 9 false) 1 (OpStake 5)] requested_ledger) 1)
     = VoterStake.pendingUnstake (voterStake requested_ledger 1).
Proof.
  assert (H : Forall (leaves_request 1)
                [mkTx (at_time 9 false) 2 (OpStake 5);
                 mkTx (at_time 9 false) 1 (OpStake 5)]).
  { constructor; [intros _; reflexivity|].
    constructor; [intros _; reflexivity|]. constructor. }
  split; [exact H|].
  exact (proj1 (unstake_request_is_kept 1 _ requested_ledger H)).
Defined.

Lemma requested_amount_is_sent_witness :
  requestUnstake (at_time 8 false) 1 50 staked_ledger
  = Ok (tt, requested_ledger)
  /\ executeUnstake (at_time 18 false) 1
       (run_txs [mkTx (at_time 9 false) 2 (OpStake 5)] requested_ledger)
     = Ok (tt, run_tx (at_time 18 false) 1 OpExecuteUnstake
                 (run_txs [mkTx (at_time 9 false) 2 (OpStake 5)]
                    requested_ledger))
  /\ token_calls
       (trace (run_tx (at_time 18 false) 1 OpExecuteUnstake
                 (run_txs [mkTx (at_time 9 false) 2 (OpStake 5)]
                    requested_ledger)))
     = [Transfer 1 50]
       ++ token_calls
            (trace (run_txs [mkTx (at_time 9 false) 2 (OpStake 5)]
                      requested_ledger)).
Proof.
  assert (Hreq : requestUnstake (at_time 8 false) 1 50 staked_ledger
                 = Ok (tt, requested_ledger)) by (vm_compute; reflexivity).
  assert (Htxs : Forall (leaves_request 1)
                   [mkTx (at_time 9 false) 2 (OpStake 5)]).
  { constructor; [intros [=]|]. constructor. }
  assert (Hexe : executeUnstake (at_time 18 false) 1
                   (run_txs [mkTx (at_time 9 false) 2 (OpStake 5)]
                      requested_ledger)
                 = Ok (tt, run_tx (at_time 18 false) 1 OpExecuteUnstake
                             (run_txs [mkTx (at_time 9 false) 2 (OpStake 5)]
                                requested_ledger)))
    by (vm_compute; reflexivity).
  split; [exact Hreq|]. split; [exact Hexe|].
  exact (proj1 (requested_amount_is_sent (at_time 8 false) (at_time 18 false)
                  1 50 [mkTx (at_time 9 false) 2 (OpStake 5)]
                  staked_ledger requested_ledger _ Hreq Htxs Hexe)).
Defined.

Lemma request_stamped_zero_is_stuck_witness :
  VoterStake.pendingUnstake (voterStake stuck_ledger 1) <> 0
  /\ VoterStake.unstakeRequestTime (voterStake stuck_ledger 1) = 0
  /\ forall e,
       is_err (executeUnstake e 1
                 (run_txs [mkTx (at_time 50 false) 2 (OpStake 5)]
                    stuck_ledger)).
Proof.
  assert (Hp : VoterStake.pendingUnstake (voterStake stuck_ledger 1) <> 0).
  { assert (Hv : VoterStake.pendingUnstake (voterStake stuck_ledger 1) = 50)
      by (vm_compute; reflexivity).
    rewrite Hv. discriminate. }
  assert (Ht : VoterStake.unstakeRequestTime (voterStake stuck_ledger 1) = 0)
    by (vm_compute; reflexivity).
  split; [exact Hp|]. split; [exact Ht|].
  intros e.
  pose proof (request_stamped_zero_is_stuck 1 stuck_ledger Hp Ht
                [mkTx (at_time 50 false) 2 (OpStake 5)]) as H.
  cbv zeta in H. destruct H as (_ & _ & H).
  destruct (H e 0) as [H1 _]. exact H1.
Defined.

Lemma overflowed_totals_lock_the_ledger_witness :
  reachable overflowed_totals
  /\ MAX_UINT256 < cumulativeActiveStake overflowed_totals
                   + cumulativePendingStake overflowed_totals
  /\ forall txs, same_stakes overflowed_totals (run_txs txs overflowed_totals).
Proof.
  assert (H : MAX_UINT256 < cumulativeActiveStake overflowed_totals
                            + cumulativePendingStake overflowed_totals)
    by (vm_compute; reflexivity).
  split; [apply reachable_run_txs, reachable_constructor|].
  split; [exact H|].
  exact (proj2 (overflowed_totals_lock_the_ledger overflowed_totals H)).
Defined.

Lemma calls_follow_the_clock_witness :
  exec (at_time 8 false) 1 (OpRequestUnstake 50) staked_ledger
  = Ok (tt, requested_ledger)
  /\ lastUpdateTime requested_ledger = currentTime (at_time 8 false).
Proof.
  assert (H : exec (at_time 8 false) 1 (OpRequestUnstake 50) staked_ledger
              = Ok (tt, requested_ledger)) by (vm_compute; reflexivity).
  split; [exact H|].
  exact (proj1 (calls_follow_the_clock (at_time 8 false) 1
                  (OpRequestUnstake 50) staked_ledger requested_ledger H
                  eq_refl)).
Defined.

Lemma recorded_rewards_only_leave_by_withdrawal_witness :
  exec (at_time 8 false) 1 OpWithdrawRewards staked_ledger
  = Ok (tt, run_tx (at_time 8 false) 1 OpWithdrawRewards staked_ledger)
  /\ VoterStake.outstandingRewards
       (voterStake
          (run_tx (at_time 8 false) 1 OpWithdrawRewards staked_ledger) 1) = 0.
Proof.
  assert (H : exec (at_time 8 false) 1 OpWithdrawRewards staked_ledger
              = Ok (tt, run_tx (at_time 8 false) 1 OpWithdrawRewards
                          staked_ledger))
    by (vm_compute; reflexivity).
  split; [exact H|].
  exact (proj2 (recorded_rewards_only_leave_by_withdrawal (at_time 8 false) 1
                  OpWithdrawRewards staked_ledger _ H) eq_refl).
Defined.

Lemma views_grow_with_time_witness :
  currentTime (at_time 6 false) <= currentTime (at_time 8 false)
  /\ outstandingRewards (at_time 6 false) 1 staked_ledger = Ok 1
  /\ outstandingRewards (at_time 8 false) 1 staked_ledger = Ok 3
  /\ 1 <= 3.
Proof.
  assert (Hle : currentTime (at_time 6 false) <= currentTime (at_time 8 false))
    by (vm_compute; discriminate).
  assert (H1 : outstandingRewards (at_time 6 false) 1 staked_ledger = Ok 1)
    by (vm_compute; reflexivity).
  assert (H2 : outstandingRewards (at_time 8 false) 1 staked_ledger = Ok 3)
    by (vm_compute; reflexivity).
  split; [exact Hle|]. split; [exact H1|]. split; [exact H2|].
  exact (proj2 (views_grow_with_time (at_time 6 false) (at_time 8 false)
                  staked_ledger Hle) 1 1 3 H1 H2).
Defined.

Lemma delegation_is_never_recorded_witness :
  reachable requested_ledger
  /\ delegateToStaker requested_ledger = ∅
  /\ forall voter, VoterStake.delegate (voterStake requested_ledger voter) = 0.
Proof.
  split; [exact reachable_requested_ledger|].
  exact (delegation_is_never_recorded requested_ledger
           reachable_requested_ledger).
Defined.

Lemma request_index_is_set_by_first_stake_witness :
  exec indexed_call 1 (OpStake 100) (constructor 1 10 7)
  = Ok (tt, run_tx indexed_call 1 (OpStake 100) (constructor 1 10 7))
  /\ VoterStake.lastRequestIndexConsidered
       (voterStake (run_tx indexed_call 1 (OpStake 100) (constructor 1 10 7))
          1)
     = if stakes (OpStake 100) && (1 =? 1)
          && (balance_before_stake (constructor 1 10 7) 1 =? 0)
       then startingIndex indexed_call
       else VoterStake.lastRequestIndexConsidered
              (voterStake (constructor 1 10 7) 1).
Proof.
  assert (H : exec indexed_call 1 (OpStake 100) (constructor 1 10 7)
              = Ok (tt, run_tx indexed_call 1 (OpStake 100)
                          (constructor 1 10 7)))
    by (vm_compute; reflexivity).
  split; [exact H|].
  exact (request_index_is_set_by_first_stake indexed_call 1 (OpStake 100)
           (constructor 1 10 7) _ H 1).
Defined.

Lemma voting_stake_moves_by_the_amount_witness :
  exec (at_time 8 false) 1 (OpRequestUnstake 50) staked_ledger
  = Ok (tt, requested_ledger)
  /\ cumulativeActiveStake requested_ledger
     + cumulativePendingStake requested_ledger + 50
     = cumulativeActiveStake staked_ledger
       + cumulativePendingStake staked_ledger + 0.
Proof.
  assert (H : exec (at_time 8 false) 1 (OpRequestUnstake 50) staked_ledger
              = Ok (tt, requested_ledger)) by (vm_compute; reflexivity).
  split; [exact H|].
  exact (proj1 (voting_stake_moves_by_the_amount (at_time 8 false) 1
                  (OpRequestUnstake 50) staked_ledger requested_ledger H)).
Defined.

Lemma unstake_is_paid_once_witness :
  executeUnstake (at_time 18 false) 1 requested_ledger
  = Ok (tt, run_tx (at_time 18 false) 1 OpExecuteUnstake requested_ledger)
  /\ VoterStake.pendingUnstake (voterStake requested_ledger 1) <> 0
  /\ is_err (executeUnstake (at_time 30 false) 1
               (run_txs [mkTx (at_time 20 false) 2 (OpStake 5)]
                  (run_tx (at_time 18 false) 1 OpExecuteUnstake
                     requested_ledger))).
Proof.
  assert (H : executeUnstake (at_time 18 false) 1 requested_ledger
              = Ok (tt, run_tx (at_time 18 false) 1 OpExecuteUnstake
                          requested_ledger))
    by (vm_compute; reflexivity).
  assert (Hp : VoterStake.pendingUnstake (voterStake requested_ledger 1) <> 0).
  { assert (Hv : VoterStake.pendingUnstake (voterStake requested_ledger 1)
                 = 50) by (vm_compute; reflexivity).
    rewrite Hv. discriminate. }
  assert (Htxs : Forall (leaves_request 1)
                   [mkTx (at_time 20 false) 2 (OpStake 5)]).
  { constructor; [intros [=]|]. constructor. }
  split; [exact H|]. split; [exact Hp|].
  exact (proj1 (unstake_is_paid_once (at_time 18 false) (at_time 30 false) 1
                  [mkTx (at_time 20 false) 2 (OpStake 5)] requested_ledger _
                  H Hp Htxs)).
Defined.

Lemma cooldown_change_applies_to_pending_requests_witness :
  setUnstakeCoolDown 7 100 requested_ledger
  = Ok (tt, run_tx (at_time 9 false) 7 (OpSetUnstakeCoolDown 100)
              requested_ledger)
  /\ is_err (executeUnstake (at_time 20 false) 1
               (run_tx (at_time 9 false) 7 (OpSetUnstakeCoolDown 100)
                  requested_ledger)).
Proof.
  assert (H : setUnstakeCoolDown 7 100 requested_ledger
              = Ok (tt, run_tx (at_time 9 false) 7 (OpSetUnstakeCoolDown 100)
                          requested_ledger))
    by (vm_compute; reflexivity).
  assert (Hn : ~ (VoterStake.unstakeRequestTime (voterStake requested_ledger 1)
                  <> 0
                  /\ VoterStake.unstakeRequestTime
                       (voterStake requested_ledger 1) + 100
                     <= currentTime (at_time 20 false))).
  { assert (Hv : VoterStake.unstakeRequestTime (voterStake requested_ledger 1)
                 = 8) by (vm_compute; reflexivity).
    rewrite Hv. intros [_ Hle]. apply Hle. reflexivity. }
  split; [exact H|].
  exact (cooldown_change_applies_to_pending_requests 7 100 requested_ledger _
           H (at_time 20 false) 1 Hn).
Defined.
